(** * The mentor-conversation engine of the AI chat panel

    A shallow embedding of [AIChatPanel] (src/components/HeroSection.tsx,
    second document of that file): the intake collector ([handleSend],
    [parseIntakeFromText]), the stream ingestor (the read loop and the final
    flush of [streamChat]), the command extractor ([extractFencedJson]) and
    the operation dispatcher ([applyFileOps], [applyMilestoneOps]).

    JavaScript strings are modelled as [string]: a sequence of code units,
    here restricted to the code units below 256.  React state is passed
    explicitly; calls into collaborators that are not part of the component
    (the conversation store, the file system hook, the database client, the
    platform's [JSON.parse]) are either recorded as effects or taken as
    parameters. *)

From Stdlib Require Import Ascii NArith ZArith Lia Bool DecimalString.
From stdpp Require Import base option list gmap strings.

Local Open Scope stdpp_scope.
Set Warnings "-register-all".

(** Comparisons of characters stay folded under [simpl]. *)
Global Arguments Ascii.eqb : simpl never.

(* ===================================================================== *)
(** * Part I. Definitions *)
(* ===================================================================== *)

(** ** JavaScript string primitives *)

Module JS.

(** Characters used by the component. *)
Definition LF : ascii := "010"%char.
Definition CR : ascii := "013"%char.
Definition colon : ascii := ":"%char.
Definition backtick : ascii := "`"%char.
(** The double quote, outside string literals. *)
Definition dquote : ascii := "034"%char.

Definition str (c : ascii) : string := String c "".

(** [WhiteSpace] and [LineTerminator] code points below 256: what
    [String.prototype.trim] strips and what the regular expression class
    [\s] matches. *)
Definition is_whitespace (c : ascii) : bool :=
  match c with
  | "009" | "010" | "011" | "012" | "013" | " " | "160" => true
  | _ => false
  end%char.

(** Line terminators below 256: what the regular expression [.] refuses. *)
Definition is_line_terminator (c : ascii) : bool :=
  match c with
  | "010" | "013" => true
  | _ => false
  end%char.

Definition is_empty (s : string) : bool :=
  match s with "" => true | String _ _ => false end.

(** [s.trimStart()] *)
Fixpoint trimStart (s : string) : string :=
  match s with
  | "" => ""
  | String c s' => if is_whitespace c then trimStart s' else s
  end.

(** [s.trimEnd()] *)
Fixpoint trimEnd (s : string) : string :=
  match s with
  | "" => ""
  | String c s' =>
      let r := trimEnd s' in
      if is_whitespace c && is_empty r then "" else String c r
  end.

(** [s.trim()] *)
Definition trim (s : string) : string := trimEnd (trimStart s).

(** [s.startsWith(p)] *)
Fixpoint startsWith (p s : string) : bool :=
  match p, s with
  | "", _ => true
  | String a p', String b s' => if Ascii.eqb a b then startsWith p' s' else false
  | String _ _, "" => false
  end.

(** [s.endsWith(c)] for a one-character string [c]. *)
Fixpoint endsWithChar (c : ascii) (s : string) : bool :=
  match s with
  | "" => false
  | String a "" => Ascii.eqb a c
  | String _ s' => endsWithChar c s'
  end.

(** [s.slice(0, -1)] *)
Fixpoint dropLast (s : string) : string :=
  match s with
  | "" => ""
  | String _ "" => ""
  | String a s' => String a (dropLast s')
  end.

(** [s.slice(n)] for [n >= 0]. *)
Fixpoint sliceFrom (n : nat) (s : string) : string :=
  match n, s with
  | O, _ => s
  | S n', String _ s' => sliceFrom n' s'
  | S _, "" => ""
  end.

(** [s.slice(0, n)] for [n >= 0]. *)
Fixpoint sliceTo (n : nat) (s : string) : string :=
  match n, s with
  | O, _ => ""
  | S n', String a s' => String a (sliceTo n' s')
  | S _, "" => ""
  end.

(** [s.slice(a, b)] for [0 <= a] and [0 <= b]. *)
Definition slice (a b : nat) (s : string) : string :=
  sliceTo (b - a) (sliceFrom a s).

(** [s.indexOf(p)]: [None] stands for [-1]. *)
Fixpoint indexOf (p s : string) : option nat :=
  if startsWith p s then Some 0
  else match s with
       | "" => None
       | String _ s' => S <$> indexOf p s'
       end.

(** [s.indexOf(p, from)] for [from >= 0]. *)
Definition indexOfFrom (p s : string) (from : nat) : option nat :=
  (fun i => from + i) <$> indexOf p (sliceFrom from s).

(** [s.split("\n")] *)
Fixpoint split_LF (s : string) : list string :=
  match s with
  | "" => [""]
  | String c s' =>
      if Ascii.eqb c LF then "" :: split_LF s'
      else match split_LF s' with
           | h :: t => String c h :: t
           | [] => [String c ""]
           end
  end.

(** [s.split(/\r?\n/)] *)
Fixpoint split_CRLF (s : string) : list string :=
  match s with
  | "" => [""]
  | String c s' =>
      let continue :=
        match split_CRLF s' with
        | h :: t => String c h :: t
        | [] => [String c ""]
        end in
      if Ascii.eqb c LF then "" :: split_CRLF s'
      else if Ascii.eqb c CR then
        match s' with
        | String d s'' => if Ascii.eqb d LF then "" :: split_CRLF s'' else continue
        | "" => continue
        end
      else continue
  end.

(** [s.toLowerCase()], on code units below 256: the letters A to Z and the
    Latin-1 capitals (192 to 222, the multiplication sign 215 apart). *)
Definition toLowerChar (c : ascii) : ascii :=
  let n := nat_of_ascii c in
  if (65 <=? n) && (n <=? 90) then ascii_of_nat (n + 32)
  else if (192 <=? n) && (n <=? 222) && negb (n =? 215) then ascii_of_nat (n + 32)
  else c.

Fixpoint toLowerCase (s : string) : string :=
  match s with
  | "" => ""
  | String c s' => String (toLowerChar c) (toLowerCase s')
  end.

(** The [Canonicalize] operation of an [/i] regular expression without the
    [u] flag, on code units below 256: a character is compared through its
    upper-case form, and a character at or above 128 never canonicalizes to
    one below 128.  Only equality with the canonical form of the letters and
    blanks of a pattern is used below, so characters at or above 128 are
    left as they are. *)
Definition Canonicalize (c : ascii) : ascii :=
  let n := nat_of_ascii c in
  if (97 <=? n) && (n <=? 122) then ascii_of_nat (n - 32) else c.

(** The pattern [p] matches at the start of [s], ignoring case. *)
Fixpoint startsWith_i (p s : string) : bool :=
  match p, s with
  | "", _ => true
  | String a p', String b s' =>
      if Ascii.eqb (Canonicalize a) (Canonicalize b) then startsWith_i p' s' else false
  | String _ _, "" => false
  end.

(** [/p/i.test(s)] for a pattern [p] of literal characters. *)
Fixpoint test_i (p s : string) : bool :=
  if startsWith_i p s then true
  else match s with
       | "" => false
       | String _ s' => test_i p s'
       end.

(** A letter of a pattern that [/i] matches through lower case: the
    characters it accepts are those whose lower-case form it is. *)
Definition plain_letter (a : ascii) : Prop :=
  forall c, Ascii.eqb (Canonicalize a) (Canonicalize c) = Ascii.eqb (toLowerChar c) a.

Fixpoint plain_word (p : string) : Prop :=
  match p with
  | "" => True
  | String a p' => plain_letter a /\ plain_word p'
  end.

(** [/^p$/i.test(s)] for a pattern [p] of literal characters. *)
Fixpoint test_exact_i (p s : string) : bool :=
  match p, s with
  | "", "" => true
  | String a p', String b s' =>
      if Ascii.eqb (Canonicalize a) (Canonicalize b) then test_exact_i p' s' else false
  | _, _ => false
  end.

(** The strings of a list one after the other: the text a sequence of
    chunks carries. *)
Fixpoint concat (l : list string) : string :=
  match l with
  | [] => ""
  | s :: rest => s +:+ concat rest
  end.

(** [s.includes(c)] for a one-character string [c]. *)
Fixpoint has_char (c : ascii) (s : string) : bool :=
  match s with
  | "" => false
  | String a s' => Ascii.eqb a c || has_char c s'
  end.

(** Every character of [s] is one that [trim] strips. *)
Fixpoint all_whitespace (s : string) : bool :=
  match s with
  | "" => true
  | String a s' => is_whitespace a && all_whitespace s'
  end.

End JS.

(** ** Messages, intake records and the panel's state *)

Inductive Role := user | assistant.

Inductive MessageType := explanation | hint | question | warning.

(** [id] is the number whose decimal rendering the component stores. *)
Record Message := mkMessage {
  id : N;
  role : Role;
  content : string;
  type : option MessageType
}.

Record IntakeRecord := mkIntake {
  projectIdea : string;
  techStack : string;
  skillLevel : string;
  timeline : string
}.

(** The [useState] cells that [handleSend] reads and writes. *)
Record ChatState := mkChat {
  messages : list Message;
  input : string;
  intake : option IntakeRecord;
  intakeConfirmed : bool;
  awaitingConfirmation : bool;
  isLoading : bool
}.

(** Calls that leave the component: the conversation store
    ([useConversationHistory]) and the tail call into [streamChat]. *)
Inductive Effect :=
| UpdateTitle (title : string)
| AddMessage (r : Role) (c : string) (ty : option MessageType)
| SaveIntake (i : IntakeRecord)
| StreamChat (text : string).

Global Instance Role_eq_dec : EqDecision Role.
Proof. solve_decision. Defined.
Global Instance MessageType_eq_dec : EqDecision MessageType.
Proof. solve_decision. Defined.
Global Instance IntakeRecord_eq_dec : EqDecision IntakeRecord.
Proof. solve_decision. Defined.
Global Instance Message_eq_dec : EqDecision Message.
Proof. solve_decision. Defined.

(** ** The intake collector *)

Module Intake.
Import JS.

(** [line.match(/^([^:]+):\s*(.+)$/)]: the two groups, when the line
    matches. *)

(** [[^:]+] followed by [:]: the text before the first colon and the text
    after it. *)
Fixpoint split_first_colon (s : string) : option (string * string) :=
  match s with
  | "" => None
  | String c s' =>
      if Ascii.eqb c colon then Some ("", s')
      else match split_first_colon s' with
           | Some (k, r) => Some (String c k, r)
           | None => None
           end
  end.

Fixpoint no_line_terminator (s : string) : bool :=
  match s with
  | "" => true
  | String c s' => negb (is_line_terminator c) && no_line_terminator s'
  end.

(** The last character of a string of blanks, which [(.+)] takes back from
    the greedy [\s*] when nothing else is left. *)
Fixpoint last_char (s : string) : option ascii :=
  match s with
  | "" => None
  | String c "" => Some c
  | String _ s' => last_char s'
  end.

(** [\s*(.+)$] on the text after the colon. *)
Definition match_value (rest : string) : option string :=
  let v := trimStart rest in
  if is_empty v then
    match last_char rest with
    | Some c => if is_line_terminator c then None else Some (str c)
    | None => None
    end
  else if no_line_terminator v then Some v else None.

Definition match_key_value (line : string) : option (string * string) :=
  match split_first_colon line with
  | Some (k, rest) =>
      if is_empty k then None
      else match match_value rest with
           | Some v => Some (k, v)
           | None => None
           end
  | None => None
  end.

(** [text.split(/\r?\n/).map((l) => l.trim()).filter(Boolean)] *)
Definition intake_lines (text : string) : list string :=
  filter (fun l => is_empty l = false) (map trim (split_CRLF text)).

(** The body of the [for] loop: [map[m[1].toLowerCase()] = m[2]] when the
    line matches.  The object [map] is read only at the eight keys below,
    none of which is inherited from [Object.prototype]. *)
Definition record_line (map : gmap string string) (line : string) : gmap string string :=
  match match_key_value line with
  | Some (k, v) => <[toLowerCase k := v]> map
  | None => map
  end.

(** [map[a] || map[b] || ""] *)
Definition first_truthy (map : gmap string string) (a b : string) : string :=
  match map !! a with
  | Some v => if is_empty v then default "" (map !! b) else v
  | None => default "" (map !! b)
  end.

Definition parseIntakeFromText (text : string) : option IntakeRecord :=
  let lines := intake_lines text in
  let map := foldl record_line ∅ lines in
  let projectIdea := first_truthy map "project idea" "project" in
  let techStack := first_truthy map "tech stack" "tech" in
  let skillLevel := first_truthy map "skill level" "skill" in
  let timeline := first_truthy map "timeline" "timeframe" in
  if negb (is_empty projectIdea) && negb (is_empty techStack)
     && negb (is_empty skillLevel) && negb (is_empty timeline)
  then Some (mkIntake projectIdea techStack skillLevel timeline)
  else None.

(** *** The lines of a text, read as a list

    What the loop above amounts to, stated on the lines themselves: the
    pairs of a lower-cased key and a value that the matching lines give, in
    the order of the text, and for a target the value of the last line that
    carries its name, or else of the last line that carries its alias. *)

Definition key_value_of (line : string) : option (string * string) :=
  match match_key_value line with
  | Some (k, v) => Some (toLowerCase k, v)
  | None => None
  end.

Definition key_values (text : string) : list (string * string) :=
  omap key_value_of (intake_lines text).

Fixpoint last_value (k : string) (kvs : list (string * string)) : option string :=
  match kvs with
  | [] => None
  | (k', v) :: rest =>
      match last_value k rest with
      | Some w => Some w
      | None => if String.eqb k k' then Some v else None
      end
  end.

Definition field (kvs : list (string * string)) (name alias : string) : string :=
  match last_value name kvs with
  | Some v => v
  | None => default "" (last_value alias kvs)
  end.

(** The values of the lines that carry the name or the alias of a target. *)
Definition values_for (name alias : string) (kvs : list (string * string)) : list string :=
  map snd (filter (fun kv => String.eqb (fst kv) name || String.eqb (fst kv) alias = true) kvs).

End Intake.

(** ** [handleSend] *)

Module Chat.
Import JS.

Definition codeRequestPatterns : list string :=
  [ "give me the code"; "paste the code"; "implement for me";
    "write the code"; "full implementation"; "complete solution" ].

(** [codeRequestPatterns.some((rx) => rx.test(text))] *)
Definition is_code_request (text : string) : bool :=
  existsb (fun rx => test_i rx text) codeRequestPatterns.

Definition nl : string := str LF.

Definition refusal_content : string :=
  "I cannot provide code. Describe your intended approach and I will guide the logic, tests, and structure.".

Definition parsed_content (p : IntakeRecord) : string :=
  "I parsed your intake as:" +:+ nl +:+
  "Project idea: " +:+ projectIdea p +:+ nl +:+
  "Tech stack: " +:+ techStack p +:+ nl +:+
  "Skill level: " +:+ skillLevel p +:+ nl +:+
  "Timeline: " +:+ timeline p +:+ nl +:+ nl +:+
  "Please reply with **yes** to confirm or **no** to re-enter the details.".

Definition confirmed_content : string :=
  "Intake confirmed. Tell me which milestone you'd like to start with, or ask me to create the full milestone sequence.".

(** The dash of the source text is outside the modelled alphabet; it is
    written here as a hyphen. *)
Definition reenter_content : string :=
  "Okay - please re-enter the intake fields in the required format.".

Definition helper_content : string :=
  "Please provide the required intake fields in this exact format:" +:+ nl +:+
  "Project idea: ..." +:+ nl +:+
  "Tech stack: ..." +:+ nl +:+
  "Skill level: ..." +:+ nl +:+
  "Timeline: ..." +:+ nl +:+ nl +:+
  "Or confirm the parsed intake with 'yes'/'no'.".

(** The store calls of one branch, made only [if (currentConversation)]. *)
Definition persist (currentConversation : bool) (es : list Effect) : list Effect :=
  if currentConversation then es else [].

(** [setMessages((m) => [...m, userMsg, reply])] and [setInput("")]. *)
Definition reply (s : ChatState) (now : N) (text : string) (m : Message) : ChatState :=
  mkChat (messages s ++ [mkMessage now user text None; m]) ""
         (intake s) (intakeConfirmed s) (awaitingConfirmation s) (isLoading s).

Definition set_input (s : ChatState) (i : string) : ChatState :=
  mkChat (messages s) i (intake s) (intakeConfirmed s) (awaitingConfirmation s) (isLoading s).

Definition set_intake (s : ChatState) (i : option IntakeRecord) : ChatState :=
  mkChat (messages s) (input s) i (intakeConfirmed s) (awaitingConfirmation s) (isLoading s).

Definition set_intakeConfirmed (s : ChatState) (b : bool) : ChatState :=
  mkChat (messages s) (input s) (intake s) b (awaitingConfirmation s) (isLoading s).

Definition set_awaitingConfirmation (s : ChatState) (b : bool) : ChatState :=
  mkChat (messages s) (input s) (intake s) (intakeConfirmed s) b (isLoading s).

(** [handleSend], with [now] the value of [Date.now()] during the call and
    [currentConversation] telling whether a conversation is open.  The
    result is the state after the call's updates and the calls it made, in
    order. *)
Definition handleSend (now : N) (currentConversation : bool) (s : ChatState)
  : ChatState * list Effect :=
  if is_empty (trim (input s)) || isLoading s then (s, [])
  else
    let text := trim (input s) in
    let title := persist currentConversation [UpdateTitle ("BODHIT: " +:+ sliceTo 48 text)] in
    if is_code_request text then
      let refusal := mkMessage now assistant refusal_content (Some warning) in
      (reply s now text refusal,
       title ++ persist currentConversation
         [AddMessage user text None; AddMessage assistant refusal_content (Some warning)])
    else if negb (intakeConfirmed s) then
      match Intake.parseIntakeFromText text with
      | Some parsed =>
          let assistantMsg := mkMessage (now + 1) assistant (parsed_content parsed) (Some question) in
          (reply (set_awaitingConfirmation (set_intake s (Some parsed)) true) now text assistantMsg,
           title ++ persist currentConversation
             [AddMessage user text None;
              AddMessage assistant (parsed_content parsed) (Some question)])
      | None =>
          match awaitingConfirmation s && test_exact_i "yes" text, intake s with
          | true, Some i =>
              let assistantMsg := mkMessage (now + 1) assistant confirmed_content (Some explanation) in
              (reply (set_awaitingConfirmation (set_intakeConfirmed s true) false) now text assistantMsg,
               title ++ persist currentConversation
                 [AddMessage user text None;
                  AddMessage assistant confirmed_content (Some explanation);
                  SaveIntake i])
          | _, _ =>
              if awaitingConfirmation s && test_exact_i "no" text then
                let assistantMsg := mkMessage (now + 1) assistant reenter_content (Some explanation) in
                (reply (set_awaitingConfirmation (set_intake s None) false) now text assistantMsg,
                 title ++ persist currentConversation
                   [AddMessage user text None;
                    AddMessage assistant reenter_content (Some explanation)])
              else
                let helper := mkMessage (now + 1) assistant helper_content (Some question) in
                (reply s now text helper,
                 title ++ persist currentConversation
                   [AddMessage user text None;
                    AddMessage assistant helper_content (Some question)])
          end
      end
    else (s, title ++ [StreamChat text]).

(** The panel's first state: the greeting (its first words stand for the
    whole text here), no intake. *)
Definition greeting : Message :=
  mkMessage 1 assistant "You are interacting with BODHIT" (Some explanation).

Definition initial : ChatState :=
  mkChat [greeting] "" None false false false.

(** What can happen to the state between two renders: the user edits the
    text area, [handleSend] runs, or [streamChat] writes the cells it owns
    ([messages], [input], [isLoading]).  [streamChat] is called from the
    last line of [handleSend] only, which a session reaches once its intake
    is confirmed. *)
Inductive step : ChatState -> ChatState -> Prop :=
| step_edit s i :
    step s (set_input s i)
| step_send s now conv :
    step s (fst (handleSend now conv s))
| step_stream s ms i l :
    intakeConfirmed s = true ->
    step s (mkChat ms i (intake s) (intakeConfirmed s) (awaitingConfirmation s) l).

Inductive reachable : ChatState -> Prop :=
| reachable_initial : reachable initial
| reachable_step s s' : reachable s -> step s s' -> reachable s'.

(** What every reachable state satisfies: the two flags exclude each
    other, a record is held while awaiting and was parsed from a text, and
    a response loads only in a confirmed session. *)
Definition invariant (s : ChatState) : Prop :=
  (awaitingConfirmation s = true -> intakeConfirmed s = false)
  /\ (isLoading s = true -> intakeConfirmed s = true)
  /\ (awaitingConfirmation s = true -> is_Some (intake s))
  /\ (forall i, intake s = Some i ->
        exists text, Intake.parseIntakeFromText text = Some i).

End Chat.

(** ** JSON values and the platform *)

Module Json.
Import JS.

(** What [JSON.parse] returns.  A number is kept as the decimal the text
    wrote, [m * 10^e]; the engine rounds it to the nearest double.  An
    object keeps its members in the order of the text. *)
Inductive json :=
| JNull
| JBool (b : bool)
| JNum (m e : Z)
| JStr (s : string)
| JArr (elements : list json)
| JObj (members : list (string * json)).

(** The double nearest to [m * 10^e] is a zero: the decimal is at most
    half the least positive double, [2^-1075]. *)
Definition number_is_zero (m e : Z) : bool :=
  if (0 <=? e)%Z then (m =? 0)%Z
  else (Z.abs m * 2 ^ 1075 <=? 10 ^ (- e))%Z.

(** [ToBoolean]; [None] stands for [undefined]. *)
Definition truthy (v : option json) : bool :=
  match v with
  | None => false
  | Some JNull => false
  | Some (JBool b) => b
  | Some (JNum m e) => negb (number_is_zero m e)
  | Some (JStr s) => negb (is_empty s)
  | Some (JArr _) => true
  | Some (JObj _) => true
  end.

(** An own member of an object: of members with one name, the last one
    written is the one [JSON.parse] keeps. *)
Fixpoint lookup_member (k : string) (members : list (string * json)) : option json :=
  match members with
  | [] => None
  | (k', v) :: rest =>
      match lookup_member k rest with
      | Some w => Some w
      | None => if String.eqb k k' then Some v else None
      end
  end.

Fixpoint charAt (i : nat) (s : string) : option ascii :=
  match s, i with
  | "", _ => None
  | String c _, O => Some c
  | String _ s', S i' => charAt i' s'
  end.

(** [v.k] for a value [v] that is neither [null] nor [undefined] and a name
    [k] that is no array index and no property of a prototype (the
    component reads no other); [None] stands for [undefined]. *)
Definition prop (k : string) (v : json) : option json :=
  match v with
  | JObj members => lookup_member k members
  | _ => None
  end.

(** [v[0]] for a value [v] that is neither [null] nor [undefined]. *)
Definition prop0 (v : json) : option json :=
  match v with
  | JObj members => lookup_member "0" members
  | JArr elements => elements !! 0
  | JStr s => (fun c => JStr (str c)) <$> charAt 0 s
  | _ => None
  end.

(** The operand of [?.]: [null] and [undefined] cut the chain short. *)
Definition not_nullish (v : option json) : option json :=
  match v with
  | Some JNull => None
  | _ => v
  end.

(** What the component needs of the JavaScript engine. *)
Record Platform := mkPlatform {
  (** [JSON.parse(text)]; [None] stands for a thrown [SyntaxError]. *)
  JSON_parse : string -> option json;
  (** [Number::toString] of the double nearest to [m * 10^e]. *)
  Number_toString : Z -> Z -> string
}.

Section ToString.
Context (P : Platform).

(** [ToString] of a value born of [JSON.parse], as [+=] on a string and
    [Array.prototype.join] apply it.  [None] stands for the [TypeError] of
    an object that has a member [toString] of its own: the member hides the
    method of the prototype and, read from JSON, is no function. *)
Fixpoint ToString (v : json) : option string :=
  match v with
  | JNull => Some "null"
  | JBool true => Some "true"
  | JBool false => Some "false"
  | JNum m e => Some (Number_toString P m e)
  | JStr s => Some s
  | JArr elements =>
      (fix join (first : bool) (l : list json) : option string :=
         match l with
         | [] => Some ""
         | x :: rest =>
             match match x with JNull => Some "" | _ => ToString x end with
             | Some head =>
                 match join false rest with
                 | Some tail => Some ((if first then "" else ",") +:+ head +:+ tail)
                 | None => None
                 end
             | None => None
             end
         end) true elements
  | JObj members =>
      match lookup_member "toString" members with
      | Some _ => None
      | None => Some "[object Object]"
      end
  end.

End ToString.

End Json.

(** ** The stream ingestor *)

Module Ingest.
Import JS Json.

(** The variables of [streamChat] that the read loop and the final flush
    share, and the [messages] cell their updaters rewrite. *)
Record IngestState := mkIngest {
  textBuffer : string;
  assistantContent : string;
  shown : list Message
}.

(** [if (line.endsWith("\r")) line = line.slice(0, -1)] *)
Definition strip_CR (line : string) : string :=
  if endsWithChar CR line then dropLast line else line.

(** What the tests before [JSON.parse] make of a line. *)
Inductive LineKind :=
| Ignored
| Sentinel
| Payload (jsonStr : string).

Definition classify (line : string) : LineKind :=
  if startsWith ":" line || is_empty (trim line) then Ignored
  else if negb (startsWith "data: " line) then Ignored
  else
    let jsonStr := trim (sliceFrom 6 line) in
    if String.eqb jsonStr "[DONE]" then Sentinel else Payload jsonStr.

(** [parsed.choices?.[0]?.delta?.content]; the outer [None] stands for the
    [TypeError] of reading [choices] of [null]. *)
Definition delta_content (parsed : json) : option (option json) :=
  match parsed with
  | JNull => None
  | _ =>
      Some (choices ← not_nullish (prop "choices" parsed);
            first ← not_nullish (prop0 choices);
            delta ← not_nullish (prop "delta" first);
            prop "content" delta)
  end.

(** The body of [try]: [None] when it throws ([JSON.parse], the read of
    [choices] of [null], or [+=] on a value that has no string), otherwise
    the text that [assistantContent += content] appends, if [content] is
    truthy. *)
Definition decode (P : Platform) (jsonStr : string) : option (option string) :=
  match JSON_parse P jsonStr with
  | None => None
  | Some parsed =>
      match delta_content parsed with
      | None => None
      | Some content =>
          match content with
          | Some v => if truthy content then Some <$> ToString P v else Some None
          | None => Some None
          end
      end
  end.

Definition set_content (c : string) (m : Message) : Message :=
  mkMessage (id m) (role m) c (type m).

Definition is_assistant (assistantId : N) (m : Message) : bool :=
  bool_decide (role m = assistant) && N.eqb (id m) assistantId.

(** The updater of the read loop. *)
Definition show_streamed (assistantId : N) (c : string) (prev : list Message) : list Message :=
  match last prev with
  | Some l =>
      if is_assistant assistantId l
      then map (fun m => if N.eqb (id m) assistantId then set_content c m else m) prev
      else prev ++ [mkMessage assistantId assistant c (Some explanation)]
  | None => prev ++ [mkMessage assistantId assistant c (Some explanation)]
  end.

(** The updater of the final flush. *)
Definition show_flushed (assistantId : N) (c : string) (prev : list Message) : list Message :=
  match last prev with
  | Some l =>
      if is_assistant assistantId l
      then imap (fun i m => if Nat.eqb i (length prev - 1) then set_content c m else m) prev
      else prev
  | None => prev
  end.

Section Loop.
Context (P : Platform) (assistantId : N).

(** [assistantContent += content; setMessages(...)] *)
Definition append_streamed (st : IngestState) (content : string) : IngestState :=
  let c := assistantContent st +:+ content in
  mkIngest (textBuffer st) c (show_streamed assistantId c (shown st)).

Definition append_flushed (st : IngestState) (content : string) : IngestState :=
  let c := assistantContent st +:+ content in
  mkIngest (textBuffer st) c (show_flushed assistantId c (shown st)).

Definition set_buffer (st : IngestState) (b : string) : IngestState :=
  mkIngest b (assistantContent st) (shown st).

(** The inner [while] loop of one read.  Every turn removes a line from the
    buffer, so [fuel] turns are enough for a buffer of [fuel] characters. *)
Fixpoint process_lines (fuel : nat) (st : IngestState) : IngestState :=
  match fuel with
  | O => st
  | S fuel' =>
      match indexOf (str LF) (textBuffer st) with
      | None => st
      | Some newlineIndex =>
          let line := slice 0 newlineIndex (textBuffer st) in
          let st := set_buffer st (sliceFrom (newlineIndex + 1) (textBuffer st)) in
          let line := strip_CR line in
          match classify line with
          | Ignored => process_lines fuel' st
          | Sentinel => st
          | Payload jsonStr =>
              match decode P jsonStr with
              | Some (Some content) => process_lines fuel' (append_streamed st content)
              | Some None => process_lines fuel' st
              | None => set_buffer st (line +:+ str LF +:+ textBuffer st)
              end
          end
      end
  end.

(** One turn of the outer loop with [done] false: [chunk] is the decoded
    text of the value read. *)
Definition read_chunk (st : IngestState) (chunk : string) : IngestState :=
  let st := set_buffer st (textBuffer st +:+ chunk) in
  process_lines (String.length (textBuffer st)) st.

(** One line of the final flush. *)
Definition flush_line (st : IngestState) (raw : string) : IngestState :=
  if is_empty raw then st
  else
    match classify (strip_CR raw) with
    | Ignored => st
    | Sentinel => st
    | Payload jsonStr =>
        match decode P jsonStr with
        | Some (Some content) => append_flushed st content
        | Some None => st
        | None => st
        end
    end.

Definition final_flush (st : IngestState) : IngestState :=
  if negb (is_empty (trim (textBuffer st)))
  then foldl flush_line st (split_LF (textBuffer st))
  else st.

(** The text one line of the stream contributes to [assistantContent],
    and the text all the lines of a buffer contribute. *)
Definition line_text (raw : string) : string :=
  match classify (strip_CR raw) with
  | Payload jsonStr =>
      match decode P jsonStr with
      | Some (Some content) => content
      | _ => ""
      end
  | _ => ""
  end.

Definition text_of (buffer : string) : string :=
  concat (map line_text (split_LF buffer)).

(** The read loop over the chunks the reader yields before it reports
    [done], then the final flush. *)
Definition ingest (prev : list Message) (chunks : list string) : IngestState :=
  final_flush (foldl read_chunk (mkIngest "" "" prev) chunks).

End Loop.

End Ingest.

(** ** An engine: the JSON grammar, read by recursive descent *)

Module Engine.
Import JS Json.

(** JSON's own blanks: space, tab, line feed, carriage return. *)
Definition is_json_space (c : ascii) : bool :=
  match c with
  | " " | "009" | "010" | "013" => true
  | _ => false
  end%char.

Fixpoint skip_space (s : string) : string :=
  match s with
  | "" => ""
  | String c s' => if is_json_space c then skip_space s' else s
  end.

Definition digit (c : ascii) : option Z :=
  let n := nat_of_ascii c in
  if (48 <=? n) && (n <=? 57) then Some (Z.of_nat (n - 48)) else None.

Definition hex_digit (c : ascii) : option nat :=
  let n := nat_of_ascii c in
  if (48 <=? n) && (n <=? 57) then Some (n - 48)
  else if (65 <=? n) && (n <=? 70) then Some (n - 55)
  else if (97 <=? n) && (n <=? 102) then Some (n - 87)
  else None.

(** The character a two-character escape stands for. *)
Definition simple_escape (c : ascii) : option ascii :=
  match c with
  | "034" => Some "034"
  | "\" => Some "\"
  | "/" => Some "/"
  | "b" => Some "008"
  | "f" => Some "012"
  | "n" => Some "010"
  | "r" => Some "013"
  | "t" => Some "009"
  | _ => None
  end%char.

Definition prepend (c : ascii) (r : option (string * string)) : option (string * string) :=
  match r with
  | Some (s, rest) => Some (String c s, rest)
  | None => None
  end.

(** A string after its opening quote: its value and the text after the
    closing quote.  A [\u] escape of a code unit at or above 256 is outside
    the modelled alphabet and is refused. *)
Fixpoint string_body (s : string) : option (string * string) :=
  match s with
  | "" => None
  | String c r =>
      if Ascii.eqb c dquote then Some ("", r)
      else if Ascii.eqb c "\" then
        match r with
        | String e r' =>
            match simple_escape e with
            | Some x => prepend x (string_body r')
            | None =>
                if Ascii.eqb e "u" then
                  match r' with
                  | String h1 (String h2 (String h3 (String h4 r''))) =>
                      match hex_digit h1, hex_digit h2, hex_digit h3, hex_digit h4 with
                      | Some a, Some b, Some c', Some d =>
                          let n := ((a * 16 + b) * 16 + c') * 16 + d in
                          if n <? 256 then prepend (ascii_of_nat n) (string_body r'')
                          else None
                      | _, _, _, _ => None
                      end
                  | _ => None
                  end
                else None
            end
        | "" => None
        end
      else if nat_of_ascii c <? 32 then None
      else prepend c (string_body r)
  end.

(** A run of digits: the number read so far, how many digits, the rest. *)
Fixpoint digits (s : string) (acc : Z) (count : nat) : Z * nat * string :=
  match s with
  | "" => (acc, count, "")
  | String c s' =>
      match digit c with
      | Some d => digits s' (acc * 10 + d)%Z (S count)
      | None => (acc, count, s)
      end
  end.

(** The integer part: a lone zero, or digits that do not start with one. *)
Definition int_part (s : string) : option (Z * string) :=
  match s with
  | String "0" s' => Some (0%Z, s')
  | _ =>
      match digits s 0%Z 0 with
      | (_, O, _) => None
      | (n, S _, rest) => Some (n, rest)
      end
  end.

(** The fraction, if any: the mantissa with its digits and their number. *)
Definition frac_part (m : Z) (s : string) : option (Z * nat * string) :=
  match s with
  | String "." s' =>
      match digits s' m 0 with
      | (_, O, _) => None
      | (n, S k, rest) => Some (n, S k, rest)
      end
  | _ => Some (m, 0, s)
  end.

(** The exponent, if any. *)
Definition exp_part (s : string) : option (Z * string) :=
  let unsigned (neg : bool) (s' : string) :=
    match digits s' 0%Z 0 with
    | (_, O, _) => None
    | (n, S _, rest) => Some (if neg then (- n)%Z else n, rest)
    end in
  match s with
  | String c s' =>
      if Ascii.eqb c "e" || Ascii.eqb c "E" then
        match s' with
        | String "+" s'' => unsigned false s''
        | String "-" s'' => unsigned true s''
        | _ => unsigned false s'
        end
      else Some (0%Z, s)
  | "" => Some (0%Z, "")
  end.

Definition number (s : string) : option (json * string) :=
  let (neg, s1) := match s with String "-" s' => (true, s') | _ => (false, s) end in
  '(i, s2) ← int_part s1;
  '(m, k, s3) ← frac_part i s2;
  '(x, s4) ← exp_part s3;
  Some (JNum (if neg then - m else m)%Z (x - Z.of_nat k)%Z, s4).

Definition literal (word : string) (v : json) (s : string) : option (json * string) :=
  if startsWith word s then Some (v, sliceFrom (String.length word) s) else None.

(** A value, then the members of an object and the elements of an array
    after the first.  Every call reads at least one character before the
    next, so twice the length of the text is fuel enough. *)
Fixpoint value (fuel : nat) (s : string) : option (json * string) :=
  match fuel with
  | O => None
  | S fuel' =>
      match skip_space s with
      | "" => None
      | String c r =>
          if Ascii.eqb c "{" then
            match skip_space r with
            | String "}" r' => Some (JObj [], r')
            | _ => members fuel' r []
            end
          else if Ascii.eqb c "[" then
            match skip_space r with
            | String "]" r' => Some (JArr [], r')
            | _ => elements fuel' r []
            end
          else if Ascii.eqb c dquote then
            '(v, r') ← string_body r; Some (JStr v, r')
          else if Ascii.eqb c "t" then literal "true" (JBool true) (String c r)
          else if Ascii.eqb c "f" then literal "false" (JBool false) (String c r)
          else if Ascii.eqb c "n" then literal "null" JNull (String c r)
          else number (String c r)
      end
  end
with members (fuel : nat) (s : string) (acc : list (string * json)) : option (json * string) :=
  match fuel with
  | O => None
  | S fuel' =>
      match skip_space s with
      | String c r =>
          if Ascii.eqb c dquote then
            '(k, r1) ← string_body r;
            match skip_space r1 with
            | String ":" r2 =>
                '(v, r3) ← value fuel' r2;
                match skip_space r3 with
                | String "," r4 => members fuel' r4 (acc ++ [(k, v)])
                | String "}" r4 => Some (JObj (acc ++ [(k, v)]), r4)
                | _ => None
                end
            | _ => None
            end
          else None
      | "" => None
      end
  end
with elements (fuel : nat) (s : string) (acc : list json) : option (json * string) :=
  match fuel with
  | O => None
  | S fuel' =>
      '(v, r1) ← value fuel' s;
      match skip_space r1 with
      | String "," r2 => elements fuel' r2 (acc ++ [v])
      | String "]" r2 => Some (JArr (acc ++ [v]), r2)
      | _ => None
      end
  end.

(** [JSON.parse(text)]: one value, blanks around it, nothing else. *)
Definition parse (text : string) : option json :=
  '(v, rest) ← value (2 * String.length text + 2) text;
  if is_empty (skip_space rest) then Some v else None.

(** The digits of a natural number. *)
Definition decimal (n : N) : string :=
  NilZero.string_of_uint (N.to_uint n).

Fixpoint strip_zeros (fuel : nat) (m e : Z) : Z * Z :=
  match fuel with
  | O => (m, e)
  | S fuel' =>
      if (e <? 0)%Z && (m mod 10 =? 0)%Z then strip_zeros fuel' (m / 10)%Z (e + 1)%Z
      else (m, e)
  end.

Fixpoint zeros (n : nat) : string :=
  match n with
  | O => ""
  | S n' => String "0" (zeros n')
  end.

(** [Number::toString] where it is positional and exact: for a decimal of
    at most 15 significant digits that is zero or between [1e-6] and
    [1e21] in size, the shortest decimal of the nearest double is the
    decimal itself.  Other decimals are not modelled by this engine; no
    statement below evaluates it there. *)
Definition number_toString (m e : Z) : string :=
  let '(m, e) := strip_zeros (Z.to_nat (- e)) m e in
  if (m =? 0)%Z then "0"
  else
    let sign := if (m <? 0)%Z then "-" else "" in
    let a := Z.to_N (Z.abs m) in
    if (0 <=? e)%Z then sign +:+ decimal a +:+ zeros (Z.to_nat e)
    else
      let scale := (10 ^ Z.to_N (- e))%N in
      let frac := decimal (a mod scale) in
      sign +:+ decimal (a / scale) +:+ "."
        +:+ zeros (Z.to_nat (- e) - String.length frac) +:+ frac.

Definition platform : Platform := mkPlatform parse number_toString.

(** A string between double quotes, for writing JSON text. *)
Definition quoted (s : string) : string := str dquote +:+ s +:+ str dquote.

End Engine.

(** ** The command extractor *)

Module Extract.
Import JS Json.

Definition fence : string := "```".

(** The object [{ raw, parsed }]. *)
Record Extracted := mkExtracted {
  raw : string;
  parsed : json
}.

Definition extractFencedJson (P : Platform) (text tag : string) : option Extracted :=
  let startTag := fence +:+ tag in
  match indexOf startTag text with
  | None => None
  | Some start =>
      match indexOfFrom fence text (start + String.length startTag) with
      | None => None
      | Some closing =>
          if closing <=? start then None
          else
            let raw := trim (slice (start + String.length startTag) closing text) in
            match JSON_parse P raw with
            | Some v => Some (mkExtracted raw v)
            | None => None
            end
      end
  end.

End Extract.

(** ** The operation dispatcher *)

Module Dispatch.
Import JS Json Extract.

Inductive Status := ok | error | unknown_action.

Global Instance Status_eq_dec : EqDecision Status.
Proof. solve_decision. Defined.

(** The object [{ ...op, status }] or [{ ...op, status, error }] pushed for
    one operation: the operation it copies, its status, and the stringified
    cause when there is one. *)
Record OpResult := mkResult {
  operation : json;
  status : Status;
  cause : option string
}.

Record LogEntry := mkLog {
  timestamp : N;
  ops : list OpResult
}.

(** The [useState] cells of the two confirmation dialogs and the log. *)
Record DispatchState := mkDispatch {
  pendingFileOps : option json;
  showFileOpsDialog : bool;
  pendingMilestoneOps : option json;
  showMilestoneOpsDialog : bool;
  opsLog : list LogEntry
}.

(** *** The end of [streamChat]: extraction, staging and persistence *)

Inductive StoreCall :=
| AddAssistantMessage (content : string) (fileOps mentorReport : option json)
| InsertMentorReport (submission_id : string) (report : json) (raw_text : string).

(** [x?.parsed] when it is truthy. *)
Definition truthy_parsed (x : option Extracted) : option json :=
  match x with
  | Some e => if truthy (Some (parsed e)) then Some (parsed e) else None
  | None => None
  end.

(** [x?.parsed ?? null], with [None] for [null]. *)
Definition parsed_or_null (x : option Extracted) : option json :=
  not_nullish (parsed <$> x).

Definition stage_file_ops (d : DispatchState) (v : json) : DispatchState :=
  mkDispatch (Some v) true (pendingMilestoneOps d) (showMilestoneOpsDialog d) (opsLog d).

Definition stage_milestone_ops (d : DispatchState) (v : json) : DispatchState :=
  mkDispatch (pendingFileOps d) (showFileOpsDialog d) (Some v) true (opsLog d).

(** The statements of [streamChat] after its [try] statement, on the
    content the ingestor accumulated.  [submissionId] is [None] when the
    property is [null] or [undefined]. *)
Definition finalize (P : Platform) (currentConversation : bool)
    (submissionId : option string) (assistantContent : string)
    (d : DispatchState) : DispatchState * list StoreCall :=
  let extract tag :=
    if is_empty assistantContent then None
    else extractFencedJson P assistantContent tag in
  let fileOpsExtract := extract "FILE_OPS" in
  let mentorReportExtract := extract "MENTOR_REPORT" in
  let milestoneOpsExtract := extract "MILESTONE_OPS" in
  let d := match truthy_parsed fileOpsExtract with
           | Some v => stage_file_ops d v
           | None => d
           end in
  let d := match truthy_parsed milestoneOpsExtract with
           | Some v => stage_milestone_ops d v
           | None => d
           end in
  let persisted :=
    if currentConversation && negb (is_empty assistantContent)
    then [AddAssistantMessage assistantContent
            (parsed_or_null fileOpsExtract) (parsed_or_null mentorReportExtract)]
    else [] in
  let reported :=
    match mentorReportExtract, submissionId with
    | Some e, Some sid =>
        if truthy (Some (parsed e)) && negb (is_empty sid)
        then [InsertMentorReport sid (parsed e) (raw e)]
        else []
    | _, _ => []
    end in
  (d, persisted ++ reported).

(** The two [Cancel] buttons. *)
Definition cancelFileOps (d : DispatchState) : DispatchState :=
  mkDispatch None false (pendingMilestoneOps d) (showMilestoneOpsDialog d) (opsLog d).

Definition cancelMilestoneOps (d : DispatchState) : DispatchState :=
  mkDispatch (pendingFileOps d) (showFileOpsDialog d) None false (opsLog d).

(** *** Collaborators *)

(** A call into a collaborator returns or throws; either way it leaves a
    world behind.  [cause] is what [String(err)] makes of the exception. *)
Inductive Outcome (A W : Type) :=
| Returned (a : A) (w : W)
| Threw (cause : string) (w : W).
Arguments Returned {A W} a w.
Arguments Threw {A W} cause w.

(** The hook [useFileSystem], which is not part of the component: its
    methods as the component calls them, on the values it computes. *)
Record FileSystem (W : Type) := mkFileSystem {
  createFile : option json -> json -> json -> W -> Outcome unit W;
  updateFile : option json -> json -> W -> Outcome unit W;
  deleteFile : option json -> bool -> W -> Outcome unit W;
  renameFile : option json -> option json -> W -> Outcome unit W;
  exportProject : W -> Outcome string W
}.
Arguments createFile {W}.
Arguments updateFile {W}.
Arguments deleteFile {W}.
Arguments renameFile {W}.
Arguments exportProject {W}.

(** The browser and the database client. *)
Record Host (W : Type) := mkHost {
  (** [JSON.stringify(currentFiles, null, 2)] *)
  stringifyCurrentFiles : W -> Outcome string W;
  (** The [Blob], its object URL and the click on the anchor whose
      [download] attribute is the second argument. *)
  offerDownload : string -> json -> W -> Outcome unit W;
  (** [await supabase.from(table).update(payload).eq("id", key)]: the
      [error] of the response, stringified, when it is not [null]. *)
  updateRow : string -> list (string * json) -> json -> W -> Outcome (option string) W
}.
Arguments stringifyCurrentFiles {W}.
Arguments offerDownload {W}.
Arguments updateRow {W}.

(** How the [try] block of one turn of the loop ends. *)
Inductive Attempt :=
| Applied
| UnknownAction
| Thrown (cause : string).

Definition result_of (op : json) (a : Attempt) : OpResult :=
  match a with
  | Applied => mkResult op ok None
  | UnknownAction => mkResult op unknown_action None
  | Thrown c => mkResult op error (Some c)
  end.

(** [String(err)] for the [TypeError] of reading a property of [null], as
    V8 words it. *)
Definition TypeError_null (name : string) : string :=
  "TypeError: Cannot read properties of null (reading '" +:+ name +:+ "')".

(** [a || b] *)
Definition or_else (a : option json) (b : json) : json :=
  match a with
  | Some v => if truthy a then v else b
  | None => b
  end.

Definition or_else_undefined (a b : option json) : option json :=
  if truthy a then a else b.

Section Apply.
Context {W : Type} (fs : option (FileSystem W)) (host : Host W) (now : N).

Definition finish {A} (o : Outcome A W) : Attempt * W :=
  match o with
  | Returned _ w => (Applied, w)
  | Threw c w => (Thrown c, w)
  end.

(** [if (fs) fs.method(...)] *)
Definition if_fs (call : FileSystem W -> W -> Outcome unit W) (w : W) : Outcome unit W :=
  match fs with
  | Some f => call f w
  | None => Returned tt w
  end.

(** The [try] block of [applyFileOps] for one operation. *)
Definition attempt_file_op (op : json) (w : W) : Attempt * W :=
  match op with
  | JNull => (Thrown (TypeError_null "action"), w)
  | _ =>
      match prop "action" op with
      | Some (JStr action) =>
          if String.eqb action "create" then
            let path := prop "path" op in
            let content := or_else (prop "content" op) (JStr "") in
            let language := or_else (prop "language" op) (JStr "text") in
            finish (if_fs (fun f => createFile f path content language) w)
          else if String.eqb action "update" then
            let path := prop "path" op in
            let content := or_else (prop "content" op) (JStr "") in
            finish (if_fs (fun f => updateFile f path content) w)
          else if String.eqb action "delete" then
            let path := prop "path" op in
            let recursive := truthy (prop "recursive" op) in
            finish (if_fs (fun f => deleteFile f path recursive) w)
          else if String.eqb action "rename" then
            let oldPath := prop "path" op in
            let newName := or_else_undefined (prop "newName" op) (prop "newPath" op) in
            finish (if_fs (fun f => renameFile f oldPath newName) w)
          else if String.eqb action "export" then
            let exported :=
              match fs with
              | Some f => exportProject f w
              | None => stringifyCurrentFiles host w
              end in
            match exported with
            | Returned text w1 =>
                let filename :=
                  or_else (prop "filename" op)
                          (JStr ("bodhit-project-" +:+ Engine.decimal now +:+ ".json")) in
                finish (offerDownload host text filename w1)
            | Threw c w1 => (Thrown c, w1)
            end
          else (UnknownAction, w)
      | _ => (UnknownAction, w)
      end
  end.

(** One turn of a [for] loop over the operations: the [try] block, then
    one [push], made in the block or in its [catch]. *)
Definition turn (attempt : json -> W -> Attempt * W)
    (acc : list OpResult * W) (op : json) : list OpResult * W :=
  let (a, w) := attempt op (snd acc) in
  (fst acc ++ [result_of op a], w).

(** The loop, from an empty list of results. *)
Definition run (attempt : json -> W -> Attempt * W)
    (operations : list json) (w : W) : list OpResult * W :=
  foldl (turn attempt) ([], w) operations.

(** [Array.isArray(ops) ? ops : [ops]] *)
Definition operations_of (ops : json) : list json :=
  match ops with
  | JArr l => l
  | _ => [ops]
  end.

Definition run_file_ops : list json -> W -> list OpResult * W :=
  run attempt_file_op.

Definition applyFileOps (ops : option json) (d : DispatchState) (w : W)
  : DispatchState * W :=
  match ops with
  | Some v =>
      if truthy ops then
        let (applied, w') := run_file_ops (operations_of v) w in
        (mkDispatch None false (pendingMilestoneOps d) (showMilestoneOpsDialog d)
                    (opsLog d ++ [mkLog now applied]), w')
      else (d, w)
  | None => (d, w)
  end.

(** The fields of [op] that the update carries: those that are truthy,
    and [progress] whenever it is a number. *)
Definition provided (op : json) (k : string) : list (string * json) :=
  match prop k op with
  | Some v => if truthy (Some v) then [(k, v)] else []
  | None => []
  end.

Definition provided_number (op : json) (k : string) : list (string * json) :=
  match prop k op with
  | Some (JNum m e) => [(k, JNum m e)]
  | _ => []
  end.

(** The request and [if (error) throw error]. *)
Definition update_or_throw (table : string) (payload : list (string * json))
    (key : json) (w : W) : Attempt * W :=
  match updateRow host table payload key w with
  | Returned None w1 => (Applied, w1)
  | Returned (Some c) w1 => (Thrown c, w1)
  | Threw c w1 => (Thrown c, w1)
  end.

(** The [try] block of [applyMilestoneOps] for one operation. *)
Definition attempt_milestone_op (op : json) (w : W) : Attempt * W :=
  match op with
  | JNull => (Thrown (TypeError_null "action"), w)
  | _ =>
      match prop "action" op with
      | Some (JStr action) =>
          if String.eqb action "update_milestone" then
            match prop "milestone_id" op with
            | Some key =>
                if truthy (Some key) then
                  let payload :=
                    provided op "status" ++ provided op "title"
                      ++ provided op "description" ++ provided op "due_date" in
                  update_or_throw "milestones" payload key w
                else (Thrown "Error: milestone_id is required", w)
            | None => (Thrown "Error: milestone_id is required", w)
            end
          else if String.eqb action "update_task" then
            match prop "task_id" op with
            | Some key =>
                if truthy (Some key) then
                  let payload :=
                    provided op "status" ++ provided_number op "progress"
                      ++ provided op "title" ++ provided op "description" in
                  update_or_throw "tasks" payload key w
                else (Thrown "Error: task_id is required", w)
            | None => (Thrown "Error: task_id is required", w)
            end
          else (UnknownAction, w)
      | _ => (UnknownAction, w)
      end
  end.

Definition run_milestone_ops : list json -> W -> list OpResult * W :=
  run attempt_milestone_op.

Record Toast := mkToast {
  title : string;
  description : string;
  destructive : bool
}.

(** [results.filter((r) => r.status !== "ok").length] *)
Definition failed_count (results : list OpResult) : nat :=
  length (filter (fun r => status r <> ok) results).

Definition report (results : list OpResult) : Toast :=
  let failed := failed_count results in
  let count (n : nat) := Engine.decimal (N.of_nat n) in
  if Nat.eqb failed 0
  then mkToast "Milestone ops applied"
               (count (length results) +:+ " changes applied") false
  else mkToast "Milestone ops completed with warnings"
               (count (length results - failed) +:+ " succeeded, "
                  +:+ count failed +:+ " failed") true.

Definition applyMilestoneOps (ops : option json) (d : DispatchState) (w : W)
  : DispatchState * W * option Toast :=
  match ops with
  | Some v =>
      if truthy ops then
        let (results, w') := run_milestone_ops (operations_of v) w in
        (mkDispatch (pendingFileOps d) (showFileOpsDialog d) None false (opsLog d),
         w', Some (report results))
      else (d, w, None)
  | None => (d, w, None)
  end.

End Apply.

(** What the loop of a dispatcher guarantees, whatever the [try] block of a
    turn does: one result for each operation, in the order of the
    operations; the result at [j] is that of the attempt on operation [j]
    in the world the operations before it left; and the turn of an
    operation neither ends the loop nor touches the results before it: the
    operations after it are run from the world it left, however it
    ended. *)
Definition one_result_each {W : Type} (attempt : json -> W -> Attempt * W) : Prop :=
  forall operations w,
    length (fst (run attempt operations w)) = length operations
    /\ (forall j op,
          operations !! j = Some op ->
          fst (run attempt operations w) !! j =
          Some (result_of op
                  (fst (attempt op (snd (run attempt (take j operations) w))))))
    /\ (forall before op after,
          operations = before ++ op :: after ->
          fst (run attempt operations w) =
          fst (run attempt before w)
            ++ result_of op (fst (attempt op (snd (run attempt before w))))
            :: fst (run attempt after
                      (snd (attempt op (snd (run attempt before w)))))).

Definition file_actions : list string :=
  ["create"; "update"; "delete"; "rename"; "export"].

Definition milestone_actions : list string :=
  ["update_milestone"; "update_task"].

(** The operation has an [action] that is a string among [actions]. *)
Definition recognized (actions : list string) (op : json) : Prop :=
  exists a, prop "action" op = Some (JStr a) /\ a ∈ actions.

(** The four actions that change files. *)
Definition mutations : list string :=
  ["create"; "update"; "delete"; "rename"].

(** What fault isolation asks of a turn whose [try] block ends as [o]: the
    turn is recorded as applied when the block ran through, and as thrown,
    with the stringified cause, when it threw; either way the world is the
    one the block left. *)
Definition caught {A W : Type} (o : Outcome A W) (r : Attempt * W) : Prop :=
  match o with
  | Returned _ w => r = (Applied, w)
  | Threw c w => r = (Thrown c, w)
  end.

(** The same for a turn that ends with an update request: the block also
    throws the error that the response carries. *)
Definition answered {W : Type} (o : Outcome (option string) W) (r : Attempt * W) : Prop :=
  match o with
  | Returned None w => r = (Applied, w)
  | Returned (Some c) w => r = (Thrown c, w)
  | Threw c w => r = (Thrown c, w)
  end.

End Dispatch.

(** ** [streamChat] as a whole *)

Module Stream.
Import JS Json Ingest Dispatch.

(** What the request and the reader of its response do. *)
Inductive Response :=
(** Building the request throws or [fetch] rejects. *)
| Rejected
(** [resp.ok] is false: the status, and the value of
    [await resp.json().catch(() => ({}))]. *)
| Refused (status : N) (errorData : json)
(** [resp.ok] is true and [resp.body] is [null]. *)
| NoBody
(** The reader yields the chunks and then [reader.read()] rejects. *)
| Interrupted (chunks : list string)
(** The reader yields the chunks and then reports [done]. *)
| Streamed (chunks : list string).

(** The four toasts of [streamChat], all of the destructive variant:
    [Rate Limited], [Credits Exhausted], [Error] with the description
    [errorData.error || "Failed to get response"], and
    [Connection Error]. *)
Inductive Notice :=
| RateLimited
| CreditsExhausted
| RequestFailed (description : json)
| ConnectionError.

(** The cells after the call, the [addMessage] call for the user's
    message, the store calls of the end of the function, and the toasts. *)
Record Settled := mkSettled {
  chat : ChatState;
  dispatch : DispatchState;
  sent : list Effect;
  stored : list StoreCall;
  notices : list Notice
}.

Section Call.
Context (P : Platform) (now assistantId : N) (currentConversation : bool)
        (submissionId : option string).

(** [streamChat(userMessage)], with [now] the value of [Date.now()] at its
    first statement and [assistantId] that of [Date.now() + 1] when the
    reader is taken. *)
Definition streamChat (userMessage : string) (resp : Response)
    (s : ChatState) (d : DispatchState) : Settled :=
  let allMessages := messages s ++ [mkMessage now user userMessage None] in
  let sent := Chat.persist currentConversation [AddMessage user userMessage None] in
  (** [setIsLoading(false)], in [finally] or before [return] *)
  let settle (ms : list Message) :=
    mkChat ms "" (intake s) (intakeConfirmed s) (awaitingConfirmation s) false in
  (** [return] inside [try]: the statements after it are not run *)
  let returned (notices : list Notice) :=
    mkSettled (settle allMessages) d sent [] notices in
  (** the statements after the [try] statement *)
  let after_try (st : IngestState) (notices : list Notice) :=
    let (d', stored) :=
      finalize P currentConversation submissionId (assistantContent st) d in
    mkSettled (settle (shown st)) d' sent stored notices in
  let begun := mkIngest "" "" allMessages in
  match resp with
  | Rejected => after_try begun [ConnectionError]
  | Refused status errorData =>
      if N.eqb status 429 then returned [RateLimited]
      else if N.eqb status 402 then returned [CreditsExhausted]
      else
        match errorData with
        | JNull => after_try begun [ConnectionError]
        | _ =>
            returned [RequestFailed (or_else (prop "error" errorData)
                                             (JStr "Failed to get response"))]
        end
  | NoBody => after_try begun [ConnectionError]
  | Interrupted chunks =>
      after_try (foldl (read_chunk P assistantId) begun chunks) [ConnectionError]
  | Streamed chunks => after_try (ingest P assistantId allMessages chunks) []
  end.

End Call.

(** The response brings no stream. *)
Definition without_stream (resp : Response) : Prop :=
  match resp with
  | Interrupted _ | Streamed _ => False
  | _ => True
  end.

End Stream.

(** ** The two confirmation dialogs *)

Module Dialogs.
Import Json Dispatch.

(** The cells of the dispatcher when the panel mounts. *)
Definition initial : DispatchState := mkDispatch None false None false [].

(** [onOpenChange={setShowFileOpsDialog}] and
    [onOpenChange={setShowMilestoneOpsDialog}] *)
Definition setShowFileOpsDialog (d : DispatchState) (b : bool) : DispatchState :=
  mkDispatch (pendingFileOps d) b (pendingMilestoneOps d) (showMilestoneOpsDialog d)
             (opsLog d).

Definition setShowMilestoneOpsDialog (d : DispatchState) (b : bool) : DispatchState :=
  mkDispatch (pendingFileOps d) (showFileOpsDialog d) (pendingMilestoneOps d) b
             (opsLog d).

Section Steps.
Context {W : Type} (P : Platform) (fs : option (FileSystem W)) (host : Host W).

(** Every writer of the five cells, each taken as a whole: the end of
    [streamChat], the [Cancel] and [Apply] buttons of the two dialogs, which
    pass the pending cell to the dispatcher, and the dialogs'
    [onOpenChange].  The world of the collaborators may change between two
    of them. *)
Inductive step : DispatchState * W -> DispatchState * W -> Prop :=
| step_finalize d w conv sid content :
    step (d, w) (fst (finalize P conv sid content d), w)
| step_cancel_files d w :
    step (d, w) (cancelFileOps d, w)
| step_cancel_milestones d w :
    step (d, w) (cancelMilestoneOps d, w)
| step_apply_files d w now :
    step (d, w) (applyFileOps fs host now (pendingFileOps d) d w)
| step_apply_milestones d w :
    step (d, w) (fst (applyMilestoneOps host (pendingMilestoneOps d) d w))
| step_open_files d w b :
    step (d, w) (setShowFileOpsDialog d b, w)
| step_open_milestones d w b :
    step (d, w) (setShowMilestoneOpsDialog d b, w)
| step_world d w w' :
    step (d, w) (d, w').

Inductive reachable : DispatchState * W -> Prop :=
| reachable_initial w : reachable (initial, w)
| reachable_step x y : reachable x -> step x y -> reachable y.

End Steps.

(** A pending batch is a truthy value. *)
Definition staged_truthy (d : DispatchState) : Prop :=
  (forall v, pendingFileOps d = Some v -> truthy (Some v) = true)
  /\ (forall v, pendingMilestoneOps d = Some v -> truthy (Some v) = true).

End Dialogs.

(** ** Sample texts *)

Module Samples.
Import JS Json Engine.

(** An event line that carries the delta [content], without a line
    ending. *)
Definition event_line (content : string) : string :=
  "data: {" +:+ quoted "choices" +:+ ":[{" +:+ quoted "delta" +:+ ":{"
    +:+ quoted "content" +:+ ":" +:+ quoted content +:+ "}}]}".

(** An event line cut inside its payload, after the opening quote of the
    member name [content]. *)
Definition cut_line : string :=
  "data: {" +:+ quoted "choices" +:+ ":[{" +:+ quoted "delta"
    +:+ ":{" +:+ str dquote +:+ "con".

(** The event line that carries the delta [content], with its line
    feed. *)
Definition event (content : string) : string :=
  "data: {" +:+ quoted "choices" +:+ ":[{" +:+ quoted "delta" +:+ ":{"
    +:+ quoted "content" +:+ ":" +:+ quoted content +:+ "}}]}" +:+ str LF.

(** The four lines of the required format. *)
Definition four_lines : string :=
  "Project idea: Todo app" +:+ str LF +:+
  "Tech stack: React" +:+ str LF +:+
  "Skill level: beginner" +:+ str LF +:+
  "Timeline: 2 weeks".

Definition todo_app : IntakeRecord :=
  mkIntake "Todo app" "React" "beginner" "2 weeks".

(** The same four lines between a greeting and a line that names the
    project again. *)
Definition four_lines_and_more : string :=
  "Hello," +:+ str LF +:+ four_lines +:+ str LF +:+ "Project idea: Blog".

(** Another intake, through the aliases and in another order. *)
Definition other_lines : string :=
  "timeframe: 1 week" +:+ str CR +:+ str LF +:+
  "SKILL: advanced" +:+ str LF +:+
  "Tech: Vue" +:+ str LF +:+
  "Project:   Blog".

Definition blog : IntakeRecord :=
  mkIntake "Blog" "Vue" "advanced" "1 week".

(** Text with fenced blocks. *)
Definition block (tag body : string) : string :=
  Extract.fence +:+ tag +:+ str LF +:+ body +:+ str LF +:+ Extract.fence.

(** A block of file operations that is never closed. *)
Definition open_file_ops : string :=
  Extract.fence +:+ "FILE_OPS" +:+ str LF +:+ "[]" +:+ str LF.

(** A mentor report whose payload is an empty object, and one whose
    payload is [null]. *)
Definition empty_report : string := block "MENTOR_REPORT" "{}".
Definition null_report : string := block "MENTOR_REPORT" "null".

(** The member [key: value] of an object, the value being a string. *)
Definition member (k v : string) : string := quoted k +:+ ":" +:+ quoted v.

(** A mentor report whose note quotes the opening fence of file
    operations. *)
Definition quoting_report : string :=
  block "MENTOR_REPORT"
    ("{" +:+ member "note" ("look for " +:+ Extract.fence +:+ "FILE_OPS below") +:+ "}").

(** The block of the second end-to-end scenario: one [create]. *)
Definition create_a_ts : string :=
  "[{" +:+ member "action" "create" +:+ "," +:+ member "path" "/src/a.ts"
    +:+ "," +:+ member "content" "x" +:+ "}]".

(** A response with a report that does not parse before the file
    operations. *)
Definition response : string :=
  "Here is the plan." +:+ str LF +:+ block "MENTOR_REPORT" "{oops"
    +:+ str LF +:+ block "FILE_OPS" create_a_ts +:+ str LF +:+ "Confirm to apply.".

(** Collaborators that record the calls they receive; [createFile] refuses
    the path [/forbidden], and the database answers with an error for the
    key [missing]. *)
Inductive Call :=
| Created (path : option json) (content language : json)
| Updated (path : option json) (content : json)
| Deleted (path : option json) (recursive : bool)
| Renamed (path newName : option json)
| Downloaded (text : string) (filename : json)
| RowUpdated (table : string) (payload : list (string * json)) (key : json).

Definition recording_fs : Dispatch.FileSystem (list Call) :=
  Dispatch.mkFileSystem (list Call)
    (fun path content language w =>
       match path with
       | Some (JStr "/forbidden") => Dispatch.Threw "Error: forbidden" w
       | _ => Dispatch.Returned tt (w ++ [Created path content language])
       end)
    (fun path content w => Dispatch.Returned tt (w ++ [Updated path content]))
    (fun path recursive w => Dispatch.Returned tt (w ++ [Deleted path recursive]))
    (fun path newName w => Dispatch.Returned tt (w ++ [Renamed path newName]))
    (fun w => Dispatch.Returned "{}" w).

Definition recording_host : Dispatch.Host (list Call) :=
  Dispatch.mkHost (list Call)
    (fun w => Dispatch.Returned "{}" w)
    (fun text filename w => Dispatch.Returned tt (w ++ [Downloaded text filename]))
    (fun table payload key w =>
       match key with
       | JStr "missing" => Dispatch.Returned (Some "Error: no such row") w
       | _ => Dispatch.Returned None (w ++ [RowUpdated table payload key])
       end).

Definition op_of (action path : string) : json :=
  JObj [("action", JStr action); ("path", JStr path)].

(** The panel after the user sent the four lines: it holds the parsed
    record and awaits the confirmation. *)
Definition after_intake : ChatState :=
  fst (Chat.handleSend 10 false (Chat.set_input Chat.initial four_lines)).

End Samples.

(** ** Notions used to state further properties *)

Module Notions.
Import JS.

(** A value as a form field wants it: not empty, on one line, with no
    blank at either end. *)
Definition clean (v : string) : Prop :=
  is_empty v = false /\ Intake.no_line_terminator v = true /\ trim v = v.

(** The first character of a string, if any, is not a blank. *)
Definition head_ok (s : string) : bool :=
  match s with
  | "" => true
  | String c _ => negb (is_whitespace c)
  end.

(** [a] is the beginning of [b]. *)
Definition begins (a b : string) : Prop := exists t, b = a +:+ t.

(** Lines, each followed by the line ending [sep]. *)
Definition terminated (sep : string) (lines : list string) : string :=
  concat (map (fun l => l +:+ sep) lines).

(** The line carries a payload: it is an event line other than the
    sentinel. *)
Definition carries_payload (line : string) : bool :=
  match Ingest.classify (Ingest.strip_CR line) with
  | Ingest.Payload _ => true
  | _ => false
  end.

(** The buffer starts with a complete event line that does not decode. *)
Definition held_back (P : Json.Platform) (st : Ingest.IngestState) : Prop :=
  exists line rest jsonStr,
    Ingest.textBuffer st = line +:+ str LF +:+ rest
    /\ has_char LF line = false
    /\ Ingest.classify (Ingest.strip_CR line) = Ingest.Payload jsonStr
    /\ Ingest.decode P jsonStr = None.

(** The two line endings of an event stream. *)
Definition line_ending (sep : string) : Prop :=
  sep = str LF \/ sep = str CR +:+ str LF.

Definition no_LF (l : string) : Prop := has_char LF l = false.

(** No message of the list has the identifier of the assistant's
    message. *)
Definition fresh (assistantId : N) (prev : list Message) : Prop :=
  Forall (fun m => id m <> assistantId) prev.

(** The assistant's message while it streams. *)
Definition streamed_message (assistantId : N) (c : string) : Message :=
  mkMessage assistantId assistant c (Some explanation).

(** The world a call into a collaborator leaves. *)
Definition world_of {A W} (o : Dispatch.Outcome A W) : W :=
  match o with
  | Dispatch.Returned _ w => w
  | Dispatch.Threw _ w => w
  end.

(** The columns an update of a table may write, and the member of the
    operation that names the row. *)
Definition update_fields (table : string) : list string :=
  if String.eqb table "milestones"
  then ["status"; "title"; "description"; "due_date"]
  else ["status"; "progress"; "title"; "description"].

Definition key_name (table : string) : string :=
  if String.eqb table "milestones" then "milestone_id" else "task_id".

Definition is_number (v : Json.json) : bool :=
  match v with
  | Json.JNum _ _ => true
  | _ => false
  end.

(** An update request that the operation [op] warrants: on one of the
    two tables, keyed by the operation's own truthy identifier, and
    writing only columns of the table, each with the value the operation
    gives it, which is truthy or is the number of [progress]. *)
Definition warranted (op : Json.json) (table : string)
    (payload : list (string * Json.json)) (key : Json.json) : Prop :=
  (table = "milestones" \/ table = "tasks")
  /\ Json.prop (key_name table) op = Some key
  /\ Json.truthy (Some key) = true
  /\ forall k v, (k, v) ∈ payload ->
       k ∈ update_fields table
       /\ Json.prop k op = Some v
       /\ (Json.truthy (Some v) = true \/ k = "progress" /\ is_number v = true).

(** The messages shown are the earlier ones, followed or not by the
    assistant's message with the content accumulated so far. *)
Definition shows (assistantId : N) (prev : list Message) (st : Ingest.IngestState) : Prop :=
  Ingest.shown st = prev
  \/ Ingest.shown st
     = prev ++ [streamed_message assistantId (Ingest.assistantContent st)].

End Notions.

(** ** Tactics *)

(** A call of another kind is not among the calls listed. *)
Ltac not_among :=
  let H := fresh "H" in
  intros H; cbn in H;
  repeat (apply elem_of_cons in H as [H|H]; [discriminate H|]);
  exact (proj1 (elem_of_nil _) H).

(** Decides the comparisons of an action with the names of a domain. *)
Ltac decide_actions :=
  repeat match goal with
         | |- context [String.eqb ?a ?b] =>
             let v := eval vm_compute in (String.eqb a b) in
             change (String.eqb a b) with v
         end;
  cbv iota.


(* ===================================================================== *)
(** * Part II. Properties *)
(* ===================================================================== *)

(** ** Facts about the string primitives *)

Module JSFacts.
Import JS.

Lemma app_cons c s t : String c s +:+ t = String c (s +:+ t).
Proof. reflexivity. Qed.

Lemma app_nil_r s : s +:+ "" = s.
Proof. induction s as [|c s IH]; [reflexivity|]. now rewrite app_cons, IH. Qed.

Lemma app_assoc s t u : (s +:+ t) +:+ u = s +:+ t +:+ u.
Proof. induction s as [|c s IH]; [reflexivity|]. now rewrite !app_cons, IH. Qed.

Lemma length_app s t : String.length (s +:+ t) = String.length s + String.length t.
Proof. induction s as [|c s IH]; [reflexivity|]. rewrite app_cons. simpl. now rewrite IH. Qed.

Lemma concat_app l1 l2 : concat (l1 ++ l2) = concat l1 +:+ concat l2.
Proof.
  induction l1 as [|s l1 IH]; [reflexivity|].
  simpl. now rewrite IH, app_assoc.
Qed.

Lemma has_char_app c s t : has_char c (s +:+ t) = has_char c s || has_char c t.
Proof.
  induction s as [|a s IH]; [reflexivity|].
  rewrite app_cons. simpl. now rewrite IH, orb_assoc.
Qed.

(** *** [indexOf] and [split] at line feeds *)

Lemma indexOf_LF_cons c s :
  indexOf (str LF) (String c s) =
  if Ascii.eqb LF c then Some 0 else S <$> indexOf (str LF) s.
Proof. unfold str. simpl. destruct (Ascii.eqb LF c); reflexivity. Qed.

Lemma indexOf_LF_Some buf i :
  indexOf (str LF) buf = Some i ->
  has_char LF (sliceTo i buf) = false /\
  buf = sliceTo i buf +:+ str LF +:+ sliceFrom (i + 1) buf.
Proof.
  revert i. induction buf as [|c buf IH]; intros i H.
  - discriminate H.
  - rewrite indexOf_LF_cons in H.
    destruct (Ascii.eqb LF c) eqn:E.
    + inversion H; subst i. apply Ascii.eqb_eq in E. subst c.
      split; reflexivity.
    + destruct (indexOf (str LF) buf) as [j|] eqn:Hj; [|discriminate H].
      inversion H; subst i. destruct (IH j eq_refl) as [Hno Heq].
      simpl. rewrite Ascii.eqb_sym, E. split; [exact Hno|].
      rewrite app_cons. f_equal. exact Heq.
Qed.

Lemma indexOf_LF_None buf :
  indexOf (str LF) buf = None -> has_char LF buf = false.
Proof.
  induction buf as [|c buf IH]; intros H; [reflexivity|].
  rewrite indexOf_LF_cons in H.
  destruct (Ascii.eqb LF c) eqn:E; [discriminate H|].
  simpl. rewrite Ascii.eqb_sym, E. apply IH.
  destruct (indexOf (str LF) buf); [discriminate H|reflexivity].
Qed.

Lemma split_LF_line line rest :
  has_char LF line = false ->
  split_LF (line +:+ str LF +:+ rest) = line :: split_LF rest.
Proof.
  induction line as [|c line IH]; intros H.
  - reflexivity.
  - simpl in H. apply orb_false_iff in H as [Hc Hl].
    rewrite app_cons. simpl. rewrite Hc. now rewrite (IH Hl).
Qed.

Lemma split_LF_whole line :
  has_char LF line = false -> split_LF line = [line].
Proof.
  induction line as [|c line IH]; intros H; [reflexivity|].
  simpl in H. apply orb_false_iff in H as [Hc Hl].
  simpl. rewrite Hc. now rewrite (IH Hl).
Qed.

(** *** [trim] *)

Lemma trimEnd_app_whitespace s c :
  is_whitespace c = true -> trimEnd (s +:+ str c) = trimEnd s.
Proof.
  intros Hc. induction s as [|a s IH].
  - simpl. now rewrite Hc.
  - rewrite app_cons. simpl. now rewrite IH.
Qed.

Lemma trimStart_all_whitespace s :
  all_whitespace s = true -> trimStart s = "".
Proof.
  induction s as [|a s IH]; [reflexivity|].
  simpl. intros [Ha Hs]%andb_true_iff. rewrite Ha. auto.
Qed.

Lemma trimStart_app s t :
  trimStart (s +:+ t) =
  if all_whitespace s then trimStart t else trimStart s +:+ t.
Proof.
  induction s as [|a s IH]; [reflexivity|].
  rewrite app_cons. simpl. destruct (is_whitespace a); [exact IH|reflexivity].
Qed.

Lemma trim_app_whitespace s c :
  is_whitespace c = true -> trim (s +:+ str c) = trim s.
Proof.
  intros Hc. unfold trim. rewrite trimStart_app.
  destruct (all_whitespace s) eqn:E.
  - rewrite (trimStart_all_whitespace s E). simpl. now rewrite Hc.
  - now apply trimEnd_app_whitespace.
Qed.

Lemma trimEnd_empty s :
  is_empty (trimEnd s) = true -> all_whitespace s = true.
Proof.
  induction s as [|a s IH]; [reflexivity|].
  simpl. destruct (is_whitespace a) eqn:Ha; simpl.
  - destruct (is_empty (trimEnd s)) eqn:E; [auto|discriminate].
  - discriminate.
Qed.

Lemma trimStart_whitespace_suffix s :
  all_whitespace (trimStart s) = true -> all_whitespace s = true.
Proof.
  induction s as [|a s IH]; [reflexivity|].
  simpl. destruct (is_whitespace a) eqn:Ha; simpl; [auto|].
  now rewrite Ha.
Qed.

Lemma trim_empty s :
  is_empty (trim s) = true -> all_whitespace s = true.
Proof.
  intros H. apply trimStart_whitespace_suffix, trimEnd_empty, H.
Qed.

Lemma all_whitespace_trim s :
  all_whitespace s = true -> trim s = "".
Proof. intros H. unfold trim. now rewrite trimStart_all_whitespace. Qed.

End JSFacts.

(** ** The stream ingestor: chunk boundaries *)

Module IngestFacts.
Import JS Json Ingest JSFacts.

(** *** Stripping a carriage return does not change what a line is *)

Lemma endsWithChar_dropLast c l :
  endsWithChar c l = true -> l = dropLast l +:+ str c.
Proof.
  induction l as [|a l IH]; [discriminate|].
  destruct l as [|b l].
  - simpl. intros ->%Ascii.eqb_eq. reflexivity.
  - intros H. change (endsWithChar c (String b l) = true) in H.
    change (dropLast (String a (String b l))) with (String a (dropLast (String b l))).
    rewrite app_cons. f_equal. exact (IH H).
Qed.

Lemma strip_CR_cases l :
  strip_CR l = l \/ l = strip_CR l +:+ str CR.
Proof.
  unfold strip_CR. destruct (endsWithChar CR l) eqn:E; [right|left; reflexivity].
  now apply endsWithChar_dropLast.
Qed.

Lemma startsWith_app_other p m c :
  has_char c p = false ->
  startsWith p (m +:+ str c) = startsWith p m.
Proof.
  revert m. induction p as [|a p IH]; intros m Hp; [now destruct m|].
  simpl in Hp. apply orb_false_iff in Hp as [Ha Hp].
  destruct m as [|b m].
  - simpl. now rewrite Ha.
  - rewrite app_cons. simpl. destruct (Ascii.eqb a b); [now apply IH|reflexivity].
Qed.

Lemma startsWith_sliceFrom_app p m t :
  startsWith p m = true ->
  sliceFrom (String.length p) (m +:+ t) = sliceFrom (String.length p) m +:+ t.
Proof.
  revert m. induction p as [|a p IH]; intros m H; [reflexivity|].
  destruct m as [|b m]; [discriminate|].
  simpl in H. destruct (Ascii.eqb a b); [|discriminate].
  rewrite app_cons. simpl. now apply IH.
Qed.

Lemma classify_app_CR m : classify (m +:+ str CR) = classify m.
Proof.
  unfold classify.
  rewrite (startsWith_app_other ":" m CR eq_refl).
  rewrite (startsWith_app_other "data: " m CR eq_refl).
  rewrite (trim_app_whitespace m CR eq_refl).
  destruct (startsWith ":" m || is_empty (trim m)); [reflexivity|].
  destruct (startsWith "data: " m) eqn:E; [|reflexivity]. cbn [negb].
  pose proof (startsWith_sliceFrom_app "data: " m (str CR) E) as H6.
  cbn [String.length] in H6. rewrite H6.
  now rewrite (trim_app_whitespace _ CR eq_refl).
Qed.

Lemma classify_strip_CR l : classify (strip_CR l) = classify l.
Proof.
  destruct (strip_CR_cases l) as [-> | E]; [reflexivity|].
  rewrite E at 2. now rewrite classify_app_CR.
Qed.

Lemma has_char_strip_CR c l :
  has_char c l = false -> has_char c (strip_CR l) = false.
Proof.
  destruct (strip_CR_cases l) as [-> | E]; [easy|].
  rewrite E at 1. rewrite has_char_app. now intros [? _]%orb_false_iff.
Qed.

Section Reads.
Context (P : Platform) (assistantId : N).

Local Abbreviation process_lines := (process_lines P assistantId).
Local Abbreviation read_chunk := (read_chunk P assistantId).
Local Abbreviation flush_line := (flush_line P assistantId).
Local Abbreviation final_flush := (final_flush P assistantId).
Local Abbreviation line_text := (line_text P).
Local Abbreviation text_of := (text_of P).

(** *** The final flush appends the text of the buffer *)

Lemma flush_line_content st raw :
  assistantContent (flush_line st raw) = assistantContent st +:+ line_text raw.
Proof.
  unfold Ingest.flush_line, Ingest.line_text. destruct raw as [|c raw].
  - simpl. now rewrite app_nil_r.
  - cbn [is_empty].
    destruct (classify (strip_CR (String c raw))); try now rewrite app_nil_r.
    destruct (decode P jsonStr) as [[content|]|]; try now rewrite app_nil_r.
    reflexivity.
Qed.

Lemma flush_line_buffer st raw : textBuffer (flush_line st raw) = textBuffer st.
Proof.
  unfold Ingest.flush_line. destruct (is_empty raw); [reflexivity|].
  destruct (classify (strip_CR raw)); try reflexivity.
  now destruct (decode P jsonStr) as [[content|]|].
Qed.

Lemma flush_lines_content l st :
  assistantContent (foldl flush_line st l) =
  assistantContent st +:+ concat (map line_text l).
Proof.
  revert st. induction l as [|raw l IH]; intros st; simpl.
  - now rewrite app_nil_r.
  - now rewrite IH, flush_line_content, app_assoc.
Qed.

Lemma split_LF_all_whitespace s :
  all_whitespace s = true -> Forall (fun l => all_whitespace l = true) (split_LF s).
Proof.
  induction s as [|c s IH]; intros H.
  - repeat constructor.
  - simpl in H. apply andb_true_iff in H as [Hc Hs]. specialize (IH Hs).
    simpl. destruct (Ascii.eqb c LF).
    + now constructor.
    + destruct (split_LF s) as [|h t]; [repeat constructor; simpl; now rewrite Hc|].
      inversion IH; subst. constructor; [simpl; now rewrite Hc|assumption].
Qed.

Lemma line_text_whitespace l : all_whitespace l = true -> line_text l = "".
Proof.
  intros H. unfold Ingest.line_text. rewrite classify_strip_CR.
  unfold classify. rewrite (all_whitespace_trim l H). simpl.
  now rewrite orb_true_r.
Qed.

Lemma text_of_whitespace s : all_whitespace s = true -> text_of s = "".
Proof.
  intros H. unfold Ingest.text_of.
  induction (split_LF_all_whitespace s H) as [|l ls Hl _ IH]; [reflexivity|].
  simpl. now rewrite (line_text_whitespace l Hl), IH.
Qed.

Lemma final_flush_content st :
  assistantContent (final_flush st) =
  assistantContent st +:+ text_of (textBuffer st).
Proof.
  unfold Ingest.final_flush.
  destruct (is_empty (trim (textBuffer st))) eqn:E; simpl.
  - rewrite (text_of_whitespace _ (trim_empty _ E)). now rewrite app_nil_r.
  - apply flush_lines_content.
Qed.

(** *** One read leaves the text still to come unchanged *)

Lemma text_of_line line rest :
  has_char LF line = false ->
  text_of (line +:+ str LF +:+ rest) = line_text line +:+ text_of rest.
Proof.
  intros H. unfold Ingest.text_of. now rewrite (split_LF_line line rest H).
Qed.

Lemma line_text_strip_CR line : line_text (strip_CR line) = line_text line.
Proof. unfold Ingest.line_text. now rewrite classify_strip_CR. Qed.

Lemma process_lines_text fuel st t :
  assistantContent (process_lines fuel st)
    +:+ text_of (textBuffer (process_lines fuel st) +:+ t)
  = assistantContent st +:+ text_of (textBuffer st +:+ t).
Proof.
  revert st. induction fuel as [|fuel IH]; intros st; [reflexivity|].
  cbn [Ingest.process_lines].
  destruct (indexOf (str LF) (textBuffer st)) as [i|] eqn:Hi; [|reflexivity].
  destruct (indexOf_LF_Some _ _ Hi) as [Hno Heq].
  unfold slice. rewrite Nat.sub_0_r. cbn [sliceFrom].
  set (line := sliceTo i (textBuffer st)) in *.
  set (rest := sliceFrom (i + 1) (textBuffer st)) in *.
  assert (Hstep : text_of (textBuffer st +:+ t) = line_text line +:+ text_of (rest +:+ t)).
  { rewrite Heq, !app_assoc. now apply text_of_line. }
  rewrite Hstep. clearbody line rest. clear Heq Hi Hstep.
  unfold Ingest.line_text.
  destruct (classify (strip_CR line)) as [| |jsonStr] eqn:Hk.
  - rewrite IH. reflexivity.
  - reflexivity.
  - destruct (decode P jsonStr) as [[content|]|] eqn:Hd.
    + rewrite IH. cbn. now rewrite app_assoc.
    + rewrite IH. reflexivity.
    + cbn. rewrite !app_assoc.
      rewrite (text_of_line _ _ (has_char_strip_CR _ _ Hno)).
      rewrite line_text_strip_CR. unfold Ingest.line_text. rewrite Hk, Hd.
      reflexivity.
Qed.

Lemma read_chunk_text st chunk t :
  assistantContent (read_chunk st chunk)
    +:+ text_of (textBuffer (read_chunk st chunk) +:+ t)
  = assistantContent st +:+ text_of (textBuffer st +:+ chunk +:+ t).
Proof.
  unfold Ingest.read_chunk. rewrite process_lines_text. cbn.
  now rewrite app_assoc.
Qed.

Lemma read_chunks_text chunks st t :
  assistantContent (foldl read_chunk st chunks)
    +:+ text_of (textBuffer (foldl read_chunk st chunks) +:+ t)
  = assistantContent st +:+ text_of (textBuffer st +:+ concat chunks +:+ t).
Proof.
  revert st. induction chunks as [|c chunks IH]; intros st; [reflexivity|].
  simpl. rewrite IH, read_chunk_text. now rewrite app_assoc.
Qed.

(** The accumulated content is the text of the lines of the whole stream. *)
Lemma ingest_content prev chunks :
  assistantContent (ingest P assistantId prev chunks) = text_of (concat chunks).
Proof.
  unfold ingest. rewrite final_flush_content.
  pose proof (read_chunks_text chunks (mkIngest "" "" prev) "") as H.
  rewrite !app_nil_r in H. exact H.
Qed.

End Reads.

(** The fuel [read_chunk] gives the inner loop never runs out: with the
    length of the buffer, the loop ends as it does with any more. *)
Lemma process_lines_fuel P assistantId fuel st :
  String.length (textBuffer st) <= fuel ->
  process_lines P assistantId (S fuel) st = process_lines P assistantId fuel st.
Proof.
  revert st. induction fuel as [|fuel IH]; intros st Hlen.
  - destruct (textBuffer st) as [|c b] eqn:Hb; [|cbn in Hlen; lia].
    cbn [process_lines]. now rewrite Hb.
  - cbn [process_lines].
    destruct (indexOf (str LF) (textBuffer st)) as [i|] eqn:Hi; [|reflexivity].
    destruct (indexOf_LF_Some _ _ Hi) as [_ Heq].
    assert (Hrest : String.length (sliceFrom (i + 1) (textBuffer st)) <= fuel).
    { rewrite Heq in Hlen. rewrite length_app in Hlen. unfold str in Hlen.
      rewrite app_cons in Hlen. cbn [String.length] in Hlen.
      change ("" +:+ sliceFrom (i + 1) (textBuffer st))
        with (sliceFrom (i + 1) (textBuffer st)) in Hlen. lia. }
    destruct (classify (strip_CR (slice 0 i (textBuffer st)))) as [| |jsonStr].
    + now apply IH.
    + reflexivity.
    + destruct (decode P jsonStr) as [[content|]|]; [now apply IH|now apply IH|reflexivity].
Qed.

(** The messages shown are another matter: when the sentinel and an event
    arrive in one chunk, the event is left to the final flush, which never
    adds a message; when they arrive in two chunks, the read loop adds
    it. *)
Example shown_depends_on_chunks :
  shown (ingest Engine.platform 7 []
           ["data: [DONE]" +:+ str LF +:+ Samples.event "Hi"]) = []
  /\ shown (ingest Engine.platform 7 []
              ["data: [DONE]" +:+ str LF; Samples.event "Hi"])
     = [mkMessage 7 assistant "Hi" (Some explanation)]
  /\ assistantContent (ingest Engine.platform 7 []
                         ["data: [DONE]" +:+ str LF +:+ Samples.event "Hi"]) = "Hi".
Proof. repeat split; reflexivity. Qed.

(** C1. Chunk-boundary invariance: however the text of a response is cut
    into chunks, the read loop followed by the final flush accumulates the
    same assistant content as when the whole text arrives as one chunk. *)
Theorem chunk_boundary_invariance (P : Platform) (assistantId : N)
    (prev : list Message) (chunks : list string) :
  assistantContent (ingest P assistantId prev chunks) =
  assistantContent (ingest P assistantId prev [concat chunks]).
Proof.
  rewrite !ingest_content. simpl. now rewrite app_nil_r.
Qed.

(** Two ways of cutting one text accumulate the same content. *)
Corollary chunkings_agree (P : Platform) (assistantId : N) (prev : list Message)
    (chunks1 chunks2 : list string) :
  concat chunks1 = concat chunks2 ->
  assistantContent (ingest P assistantId prev chunks1) =
  assistantContent (ingest P assistantId prev chunks2).
Proof. intros H. now rewrite !ingest_content, H. Qed.

(** *** A line whose payload does not parse goes back to the buffer *)

Lemma indexOf_LF_line line rest :
  has_char LF line = false ->
  indexOf (str LF) (line +:+ str LF +:+ rest) = Some (String.length line).
Proof.
  induction line as [|c line IH]; intros H.
  - reflexivity.
  - simpl in H. apply orb_false_iff in H as [Hc Hl].
    rewrite app_cons, indexOf_LF_cons, Ascii.eqb_sym, Hc, (IH Hl). reflexivity.
Qed.

Lemma sliceTo_app line t : sliceTo (String.length line) (line +:+ t) = line.
Proof.
  induction line as [|c line IH]; [reflexivity|].
  rewrite app_cons. simpl. now rewrite IH.
Qed.

Lemma sliceFrom_app line t : sliceFrom (String.length line) (line +:+ t) = t.
Proof.
  induction line as [|c line IH]; [reflexivity|].
  rewrite app_cons. simpl. exact IH.
Qed.

Lemma sliceFrom_line line rest :
  sliceFrom (String.length line + 1) (line +:+ str LF +:+ rest) = rest.
Proof.
  induction line as [|c line IH]; [reflexivity|].
  rewrite app_cons. simpl. exact IH.
Qed.

Lemma startsWith_prefix p s :
  startsWith p s = true -> s = p +:+ sliceFrom (String.length p) s.
Proof.
  revert s. induction p as [|a p IH]; intros s H; [reflexivity|].
  destruct s as [|b s]; [discriminate|]. simpl in H.
  destruct (Ascii.eqb a b) eqn:E; [|discriminate].
  apply Ascii.eqb_eq in E. subst b. rewrite app_cons. simpl. f_equal. now apply IH.
Qed.

(** A line that starts with the event marker is the sentinel or carries a
    payload. *)
Lemma classify_data l :
  startsWith "data: " l = true ->
  classify l =
  if String.eqb (trim (sliceFrom 6 l)) "[DONE]" then Sentinel
  else Payload (trim (sliceFrom 6 l)).
Proof.
  intros H. unfold classify. rewrite H.
  rewrite (startsWith_prefix _ _ H). reflexivity.
Qed.

Lemma decode_parse_failure P jsonStr :
  JSON_parse P jsonStr = None -> decode P jsonStr = None.
Proof. intros H. unfold decode. now rewrite H. Qed.

Lemma process_lines_rebuffer P assistantId fuel st line rest jsonStr :
  textBuffer st = line +:+ str LF +:+ rest ->
  has_char LF line = false ->
  classify (strip_CR line) = Payload jsonStr ->
  decode P jsonStr = None ->
  process_lines P assistantId (S fuel) st =
  set_buffer st (strip_CR line +:+ str LF +:+ rest).
Proof.
  intros Hb Hno Hk Hd. cbn [process_lines]. rewrite Hb.
  rewrite (indexOf_LF_line _ _ Hno).
  unfold slice. rewrite Nat.sub_0_r. cbn [sliceFrom].
  rewrite sliceTo_app, sliceFrom_line, Hk, Hd. reflexivity.
Qed.

(** C2. Rebuffer on partial parse: when the read loop takes a complete line
    that starts with the event marker and whose payload, which is not the
    sentinel, does not parse, it puts the line back in front of the buffer
    with its line feed and stops: the content and the messages are as they
    were, nothing after the line is processed in this read, and the read of
    any next chunk takes the same line again. *)
Theorem rebuffer_on_partial_parse (P : Platform) (assistantId : N) (fuel : nat)
    (st : IngestState) (line rest : string) :
  textBuffer st = line +:+ str LF +:+ rest ->
  has_char LF line = false ->
  startsWith "data: " (strip_CR line) = true ->
  String.eqb (trim (sliceFrom 6 (strip_CR line))) "[DONE]" = false ->
  JSON_parse P (trim (sliceFrom 6 (strip_CR line))) = None ->
  process_lines P assistantId (S fuel) st
    = mkIngest (strip_CR line +:+ str LF +:+ rest) (assistantContent st) (shown st)
  /\ forall chunk,
       read_chunk P assistantId
         (mkIngest (strip_CR line +:+ str LF +:+ rest) (assistantContent st) (shown st))
         chunk
       = mkIngest (strip_CR (strip_CR line) +:+ str LF +:+ rest +:+ chunk)
                  (assistantContent st) (shown st).
Proof.
  intros Hb Hno Hdata Hsent Hparse.
  assert (Hk : classify (strip_CR line)
               = Payload (trim (sliceFrom 6 (strip_CR line)))).
  { rewrite (classify_data _ Hdata), Hsent. reflexivity. }
  pose proof (decode_parse_failure _ _ Hparse) as Hd.
  split.
  - exact (process_lines_rebuffer P assistantId fuel st line rest _ Hb Hno Hk Hd).
  - intros chunk. unfold read_chunk, set_buffer. cbn [textBuffer assistantContent shown].
    rewrite !app_assoc.
    assert (Hlen : exists n,
              String.length (strip_CR line +:+ str LF +:+ rest +:+ chunk) = S n).
    { rewrite length_app. unfold str. rewrite app_cons. cbn [String.length].
      rewrite Nat.add_succ_r. eauto. }
    destruct Hlen as [n ->].
    rewrite (process_lines_rebuffer P assistantId _ _ (strip_CR line) (rest +:+ chunk)
               (trim (sliceFrom 6 (strip_CR line)))); try done.
    + now apply has_char_strip_CR.
    + now rewrite classify_strip_CR.
Qed.

(** The read of a line cut inside its payload, on the engine of this file:
    the cut line is followed by a comment line, which stays unprocessed. *)
Lemma rebuffer_on_partial_parse_witness :
  process_lines Engine.platform 2 1
    (mkIngest (Samples.cut_line +:+ str LF +:+ ": keep-alive" +:+ str LF) "Hi" [])
  = mkIngest (Samples.cut_line +:+ str LF +:+ ": keep-alive" +:+ str LF) "Hi" [].
Proof.
  refine (proj1 (rebuffer_on_partial_parse Engine.platform 2 0
           (mkIngest (Samples.cut_line +:+ str LF +:+ ": keep-alive" +:+ str LF) "Hi" [])
           Samples.cut_line (": keep-alive" +:+ str LF) _ _ _ _ _)); reflexivity.
Defined.

End IngestFacts.

(** ** The intake collector: parsing *)

Module IntakeFacts.
Import JS Intake JSFacts.

Lemma trimStart_nonempty_head s :
  is_empty (trimStart s) = false ->
  exists c r, trimStart s = String c r /\ is_whitespace c = false.
Proof.
  induction s as [|a s IH]; [discriminate|].
  simpl. destruct (is_whitespace a) eqn:E; [exact IH|]. eauto.
Qed.

Lemma match_value_nonempty rest v :
  match_value rest = Some v -> is_empty v = false.
Proof.
  unfold match_value. destruct (is_empty (trimStart rest)) eqn:E.
  - destruct (last_char rest) as [c|]; [|discriminate].
    destruct (is_line_terminator c); [discriminate|]. now intros [= <-].
  - destruct (no_line_terminator (trimStart rest)); [|discriminate].
    now intros [= <-].
Qed.

Lemma key_value_of_nonempty line k v :
  key_value_of line = Some (k, v) -> is_empty v = false.
Proof.
  unfold key_value_of, match_key_value.
  destruct (split_first_colon line) as [[k0 rest]|]; [|discriminate].
  destruct (is_empty k0); [discriminate|].
  destruct (match_value rest) as [v0|] eqn:E; [|discriminate].
  intros [= _ <-]. exact (match_value_nonempty _ _ E).
Qed.

Lemma record_line_key_value m line :
  record_line m line =
  match key_value_of line with
  | Some (k, v) => <[k := v]> m
  | None => m
  end.
Proof.
  unfold record_line, key_value_of.
  now destruct (match_key_value line) as [[k v]|].
Qed.

Lemma omap_cons {A B} (f : A -> option B) x l :
  omap f (x :: l) =
  match f x with
  | Some y => y :: omap f l
  | None => omap f l
  end.
Proof. reflexivity. Qed.

(** The object after the loop holds, at each key, the value of the last
    line that carries the key. *)
Lemma lookup_recorded lines (m : gmap string string) k :
  foldl record_line m lines !! k =
  match last_value k (omap key_value_of lines) with
  | Some v => Some v
  | None => m !! k
  end.
Proof.
  revert m. induction lines as [|l lines IH]; intros m; [reflexivity|].
  cbn [foldl]. rewrite IH, record_line_key_value, omap_cons.
  destruct (key_value_of l) as [[k0 v0]|]; [|reflexivity].
  cbn [last_value]. destruct (last_value k (omap key_value_of lines)); [reflexivity|].
  destruct (String.eqb_spec k k0) as [->|Hne].
  - apply lookup_insert_eq.
  - now apply lookup_insert_ne.
Qed.

Lemma last_value_nonempty lines k v :
  last_value k (omap key_value_of lines) = Some v -> is_empty v = false.
Proof.
  induction lines as [|l lines IH]; [discriminate|].
  rewrite omap_cons. destruct (key_value_of l) as [[k0 v0]|] eqn:E; [|exact IH].
  cbn [last_value].
  destruct (last_value k (omap key_value_of lines)) as [w|]; [exact IH|].
  destruct (String.eqb k k0); [|discriminate].
  intros [= <-]. exact (key_value_of_nonempty _ _ _ E).
Qed.

Lemma first_truthy_field lines name alias :
  first_truthy (foldl record_line ∅ lines) name alias =
  field (omap key_value_of lines) name alias.
Proof.
  unfold first_truthy, field. rewrite !lookup_recorded, !lookup_empty.
  destruct (last_value name (omap key_value_of lines)) as [v|] eqn:E.
  - now rewrite (last_value_nonempty _ _ _ E).
  - now destruct (last_value alias (omap key_value_of lines)).
Qed.

(** What [parseIntakeFromText] returns, on the lines of the text. *)
Lemma parseIntakeFromText_fields text :
  parseIntakeFromText text =
  let kvs := key_values text in
  let projectIdea := field kvs "project idea" "project" in
  let techStack := field kvs "tech stack" "tech" in
  let skillLevel := field kvs "skill level" "skill" in
  let timeline := field kvs "timeline" "timeframe" in
  if negb (is_empty projectIdea) && negb (is_empty techStack)
     && negb (is_empty skillLevel) && negb (is_empty timeline)
  then Some (mkIntake projectIdea techStack skillLevel timeline)
  else None.
Proof.
  unfold parseIntakeFromText, key_values. cbv zeta.
  now rewrite !first_truthy_field.
Qed.

(** A target named by one line only has the value of that line. *)
Lemma field_unique kvs name alias v :
  name <> alias ->
  values_for name alias kvs = [v] ->
  field kvs name alias = v.
Proof.
  intros Hne. unfold field, values_for.
  assert (Hnone : forall l : list (string * string),
    filter (fun kv => String.eqb (fst kv) name || String.eqb (fst kv) alias = true) l = [] ->
    last_value name l = None /\ last_value alias l = None).
  { induction l as [|[k0 v0] l IH]; [easy|].
    rewrite filter_cons. cbn [fst]. case_decide as Hd; [discriminate|].
    intros Hl. destruct (IH Hl) as [Hn Ha]. cbn [last_value]. rewrite Hn, Ha.
    apply not_true_is_false, orb_false_iff in Hd as [H1 H2].
    rewrite (String.eqb_sym name), H1, (String.eqb_sym alias), H2. easy. }
  induction kvs as [|[k0 v0] kvs IH]; [discriminate|].
  rewrite filter_cons. cbn [fst]. case_decide as Hd.
  - cbn [map snd]. intros [= -> Hrest].
    apply map_eq_nil in Hrest. destruct (Hnone _ Hrest) as [Hn Ha].
    cbn [last_value]. rewrite Hn, Ha.
    destruct (String.eqb_spec name k0) as [->|Hk]; [reflexivity|].
    apply orb_true_iff in Hd as [Hd|Hd]; apply String.eqb_eq in Hd; subst k0.
    + congruence.
    + now rewrite String.eqb_refl.
  - intros Hl. specialize (IH Hl).
    apply not_true_is_false, orb_false_iff in Hd as [H1 H2].
    cbn [last_value].
    rewrite (String.eqb_sym name), H1, (String.eqb_sym alias), H2.
    destruct (last_value name kvs); [exact IH|].
    destruct (last_value alias kvs); exact IH.
Qed.

End IntakeFacts.

(** ** The intake collector: the state machine *)

Module ChatFacts.
Import JS Intake Chat JSFacts IntakeFacts.

(** *** Patterns that ignore case *)

Lemma plain_letter_y : plain_letter "y".
Proof. intros [[] [] [] [] [] [] [] []]; reflexivity. Qed.
Lemma plain_letter_e : plain_letter "e".
Proof. intros [[] [] [] [] [] [] [] []]; reflexivity. Qed.
Lemma plain_letter_s : plain_letter "s".
Proof. intros [[] [] [] [] [] [] [] []]; reflexivity. Qed.
Lemma plain_letter_n : plain_letter "n".
Proof. intros [[] [] [] [] [] [] [] []]; reflexivity. Qed.
Lemma plain_letter_o : plain_letter "o".
Proof. intros [[] [] [] [] [] [] [] []]; reflexivity. Qed.

(** [/^p$/i] accepts the texts whose lower-case form is [p]. *)
Lemma test_exact_i_lower p t :
  plain_word p -> test_exact_i p t = String.eqb (toLowerCase t) p.
Proof.
  revert t. induction p as [|a p IH]; intros t Hp.
  - now destruct t.
  - destruct Hp as [Ha Hp]. destruct t as [|c t]; [reflexivity|].
    cbn [test_exact_i toLowerCase String.eqb]. rewrite (Ha c), (IH t Hp).
    now destruct (Ascii.eqb (toLowerChar c) a).
Qed.

Lemma test_yes t : test_exact_i "yes" t = String.eqb (toLowerCase t) "yes".
Proof.
  apply test_exact_i_lower.
  repeat split; auto using plain_letter_y, plain_letter_e, plain_letter_s.
Qed.

Lemma test_no t : test_exact_i "no" t = String.eqb (toLowerCase t) "no".
Proof.
  apply test_exact_i_lower.
  repeat split; auto using plain_letter_n, plain_letter_o.
Qed.

Lemma lower_n c : toLowerChar c = "n"%char -> c = "n"%char \/ c = "N"%char.
Proof. destruct c as [[] [] [] [] [] [] [] []]; vm_compute; intros H; try discriminate H; auto. Qed.

Lemma lower_o c : toLowerChar c = "o"%char -> c = "o"%char \/ c = "O"%char.
Proof. destruct c as [[] [] [] [] [] [] [] []]; vm_compute; intros H; try discriminate H; auto. Qed.

Lemma lower_no t :
  toLowerCase t = "no" -> t = "no" \/ t = "nO" \/ t = "No" \/ t = "NO".
Proof.
  destruct t as [|c1 [|c2 [|c3 t]]]; try discriminate.
  cbn [toLowerCase]. intros [= H1 H2].
  destruct (lower_n _ H1) as [-> | ->], (lower_o _ H2) as [-> | ->]; auto.
Qed.

(** *** What holds in every reachable state *)

Lemma handleSend_invariant now conv s :
  invariant s -> invariant (fst (handleSend now conv s)).
Proof.
  intros Hinv. unfold handleSend.
  destruct (is_empty (trim (input s)) || isLoading s) eqn:Hg; [exact Hinv|].
  apply orb_false_iff in Hg as [_ Hl].
  destruct (is_code_request (trim (input s))); [exact Hinv|].
  destruct (negb (intakeConfirmed s)) eqn:Hc; [|exact Hinv].
  apply negb_true_iff in Hc. destruct Hinv as (H1 & _ & H2 & H3).
  destruct (parseIntakeFromText (trim (input s))) as [parsed|] eqn:Hp.
  - repeat split; cbn; eauto; try congruence. intros i [= <-]. eauto.
  - destruct (awaitingConfirmation s && test_exact_i "yes" (trim (input s))) eqn:Hy.
    + destruct (intake s) as [i|] eqn:Hi.
      * repeat split; cbn; try easy. rewrite Hi. exact H3.
      * destruct (awaitingConfirmation s && test_exact_i "no" (trim (input s)));
          repeat split; cbn; try easy; rewrite ?Hi; try easy; auto; congruence.
    + destruct (awaitingConfirmation s && test_exact_i "no" (trim (input s)));
        repeat split; cbn; try easy; auto; congruence.
Qed.

Lemma reachable_invariant s : reachable s -> invariant s.
Proof.
  induction 1 as [|s s' _ IH Hstep].
  - repeat split; cbn; try easy.
  - destruct Hstep as [s i | s now conv | s ms i l Hc]; try exact IH.
    + now apply handleSend_invariant.
    + destruct IH as (H1 & H2 & H3 & H4). repeat split; cbn; auto.
Qed.

(** While the intake is not confirmed, no response is loading. *)
Lemma reachable_not_loading s :
  reachable s -> intakeConfirmed s = false -> isLoading s = false.
Proof.
  intros Hr Hc. destruct (reachable_invariant s Hr) as (_ & H2 & _).
  destruct (isLoading s); [|reflexivity]. rewrite (H2 eq_refl) in Hc. discriminate.
Qed.

(** *** The branches of [handleSend] *)

Lemma handleSend_refuses now conv s :
  isLoading s = false ->
  is_empty (trim (input s)) = false ->
  is_code_request (trim (input s)) = true ->
  handleSend now conv s =
  (reply s now (trim (input s))
         (mkMessage now assistant refusal_content (Some warning)),
   persist conv [UpdateTitle ("BODHIT: " +:+ sliceTo 48 (trim (input s)))]
     ++ persist conv [AddMessage user (trim (input s)) None;
                      AddMessage assistant refusal_content (Some warning)]).
Proof. intros Hl He Hc. unfold handleSend. now rewrite Hl, He, Hc. Qed.

(** A message that is neither a code request nor sent while a response is
    loading, in a session whose intake is not confirmed. *)
Lemma handleSend_intake now conv s :
  isLoading s = false ->
  is_empty (trim (input s)) = false ->
  is_code_request (trim (input s)) = false ->
  intakeConfirmed s = false ->
  handleSend now conv s =
  let text := trim (input s) in
  let title := persist conv [UpdateTitle ("BODHIT: " +:+ sliceTo 48 text)] in
  match parseIntakeFromText text with
  | Some parsed =>
      (reply (set_awaitingConfirmation (set_intake s (Some parsed)) true) now text
             (mkMessage (now + 1) assistant (parsed_content parsed) (Some question)),
       title ++ persist conv
         [AddMessage user text None;
          AddMessage assistant (parsed_content parsed) (Some question)])
  | None =>
      match awaitingConfirmation s && test_exact_i "yes" text, intake s with
      | true, Some i =>
          (reply (set_awaitingConfirmation (set_intakeConfirmed s true) false) now text
                 (mkMessage (now + 1) assistant confirmed_content (Some explanation)),
           title ++ persist conv
             [AddMessage user text None;
              AddMessage assistant confirmed_content (Some explanation);
              SaveIntake i])
      | _, _ =>
          if awaitingConfirmation s && test_exact_i "no" text then
            (reply (set_awaitingConfirmation (set_intake s None) false) now text
                   (mkMessage (now + 1) assistant reenter_content (Some explanation)),
             title ++ persist conv
               [AddMessage user text None;
                AddMessage assistant reenter_content (Some explanation)])
          else
            (reply s now text
                   (mkMessage (now + 1) assistant helper_content (Some question)),
             title ++ persist conv
               [AddMessage user text None;
                AddMessage assistant helper_content (Some question)])
      end
  end.
Proof. intros Hl He Hc Hi. unfold handleSend. now rewrite Hl, He, Hc, Hi. Qed.

Lemma handleSend_confirmed_only_by_yes now conv s :
  intakeConfirmed s = false ->
  intakeConfirmed (fst (handleSend now conv s)) = true ->
  awaitingConfirmation s = true
  /\ test_exact_i "yes" (trim (input s)) = true
  /\ is_Some (intake s)
  /\ awaitingConfirmation (fst (handleSend now conv s)) = false.
Proof.
  intros Hc. unfold handleSend.
  destruct (is_empty (trim (input s)) || isLoading s); [cbn; congruence|].
  destruct (is_code_request (trim (input s))); [cbn; congruence|].
  rewrite Hc. cbn [negb].
  destruct (parseIntakeFromText (trim (input s))); [cbn; congruence|].
  destruct (awaitingConfirmation s) eqn:Ha; cbn [andb].
  - destruct (test_exact_i "yes" (trim (input s))) eqn:Hy.
    + destruct (intake s) eqn:Hi; [cbn; eauto|].
      destruct (test_exact_i "no" (trim (input s))); cbn; congruence.
    + destruct (test_exact_i "no" (trim (input s))); cbn; congruence.
  - cbn. congruence.
Qed.

(** C4. The confirmation state machine: in every reachable state
    [awaitingConfirmation] and [intakeConfirmed] are not both true; a step
    makes [intakeConfirmed] true only if it is a [handleSend] whose trimmed
    message is [yes] up to case, sent while [awaitingConfirmation] is true
    and a record that [parseIntakeFromText] returned is held; and a trimmed
    message that is [no] up to case, sent while awaiting, sets [intake] to
    [null] and leaves the collector collecting. *)
Theorem intake_confirmation_state_machine :
  (forall s, reachable s ->
     ~ (awaitingConfirmation s = true /\ intakeConfirmed s = true))
  /\ (forall s s', reachable s -> step s s' ->
        intakeConfirmed s = false -> intakeConfirmed s' = true ->
        (exists now conv, s' = fst (handleSend now conv s))
        /\ awaitingConfirmation s = true
        /\ toLowerCase (trim (input s)) = "yes"
        /\ (exists i text, intake s = Some i /\ parseIntakeFromText text = Some i)
        /\ awaitingConfirmation s' = false)
  /\ (forall now conv s, reachable s ->
        awaitingConfirmation s = true ->
        toLowerCase (trim (input s)) = "no" ->
        intake (fst (handleSend now conv s)) = None
        /\ awaitingConfirmation (fst (handleSend now conv s)) = false
        /\ intakeConfirmed (fst (handleSend now conv s)) = false).
Proof.
  split; [|split].
  - intros s Hr [Ha Hc]. destruct (reachable_invariant s Hr) as (H1 & _).
    rewrite (H1 Ha) in Hc. discriminate.
  - intros s s' Hr Hstep Hc Hc'.
    destruct (reachable_invariant s Hr) as (_ & _ & _ & H3).
    destruct Hstep as [s i | s now conv | s ms i l _]; cbn in Hc'; try congruence.
    destruct (handleSend_confirmed_only_by_yes now conv s Hc Hc') as (Ha & Hy & [i Hi] & Ha').
    repeat split; eauto.
    + rewrite test_yes in Hy. now apply String.eqb_eq in Hy.
    + destruct (H3 i Hi) as [text Ht]. eauto.
  - intros now conv s Hr Ha Hno.
    destruct (reachable_invariant s Hr) as (H1 & _). specialize (H1 Ha).
    pose proof (reachable_not_loading s Hr H1) as Hl.
    assert (Ht : exists t, trim (input s) = t /\
                   (t = "no" \/ t = "nO" \/ t = "No" \/ t = "NO")).
    { eexists; split; [reflexivity|]. now apply lower_no. }
    destruct Ht as (t & Ht & Hcases).
    assert (He : is_empty t = false) by (destruct Hcases as [->|[->|[->| ->]]]; reflexivity).
    assert (Hq : is_code_request t = false) by (destruct Hcases as [->|[->|[->| ->]]]; reflexivity).
    assert (Hp : parseIntakeFromText t = None) by (destruct Hcases as [->|[->|[->| ->]]]; reflexivity).
    assert (Hy : test_exact_i "yes" t = false) by (destruct Hcases as [->|[->|[->| ->]]]; reflexivity).
    assert (Hn : test_exact_i "no" t = true) by (destruct Hcases as [->|[->|[->| ->]]]; reflexivity).
    rewrite handleSend_intake; rewrite ?Ht; auto.
    cbv zeta. rewrite Hp, Ha, Hy, Hn. cbn [andb].
    destruct (intake s); cbn; auto.
Qed.

(** The run: the four lines are sent, then the reply [ No ]. *)
Lemma intake_confirmation_witness :
  intake (fst (handleSend 11 false (set_input Samples.after_intake " No "))) = None
  /\ awaitingConfirmation (fst (handleSend 11 false (set_input Samples.after_intake " No "))) = false
  /\ intakeConfirmed (fst (handleSend 11 false (set_input Samples.after_intake " No "))) = false.
Proof.
  refine (proj2 (proj2 intake_confirmation_state_machine) 11%N false
            (set_input Samples.after_intake " No ") _ _ _); try reflexivity.
  refine (reachable_step _ _ (reachable_step _ _ (reachable_step _ _
            reachable_initial (step_edit initial Samples.four_lines))
            (step_send _ 10%N false)) (step_edit _ " No ")).
Defined.

(** *** Direct requests for code *)

Lemma test_i_unfold p s :
  test_i p s =
  if startsWith_i p s then true
  else match s with
       | "" => false
       | String _ s' => test_i p s'
       end.
Proof. now destruct s. Qed.

Lemma startsWith_i_here p post : startsWith_i p (p +:+ post) = true.
Proof.
  induction p as [|a p IH]; [reflexivity|].
  rewrite app_cons. cbn [startsWith_i]. now rewrite Ascii.eqb_refl.
Qed.

Lemma test_i_inside p pre post : test_i p (pre +:+ p +:+ post) = true.
Proof.
  induction pre as [|c pre IH].
  - change ("" +:+ p +:+ post) with (p +:+ post).
    now rewrite test_i_unfold, startsWith_i_here.
  - rewrite app_cons, test_i_unfold.
    now destruct (startsWith_i p (String c (pre +:+ p +:+ post))).
Qed.

Lemma is_code_request_pattern rx text :
  rx ∈ codeRequestPatterns -> test_i rx text = true -> is_code_request text = true.
Proof.
  intros Hin Ht. unfold is_code_request. apply existsb_exists.
  exists rx. split; [now apply list_elem_of_In|exact Ht].
Qed.

(** C9. The short circuit on a direct request for code: a message whose
    trimmed text is not empty and matches one of the fixed patterns (any text
    that contains [give me the code] does) gets the refusal, of type
    [warning], at once: whatever the intake state, [intake],
    [intakeConfirmed] and [awaitingConfirmation] stay as they were, the
    user's message and the refusal are appended, and neither [streamChat]
    nor [saveIntake] is called.  The handler runs only when no response is
    loading. *)
Theorem code_request_short_circuit :
  (forall now conv s rx,
     isLoading s = false ->
     is_empty (trim (input s)) = false ->
     rx ∈ codeRequestPatterns ->
     test_i rx (trim (input s)) = true ->
     let text := trim (input s) in
     let refusal := mkMessage now assistant refusal_content (Some warning) in
     let s' := fst (handleSend now conv s) in
     let calls := snd (handleSend now conv s) in
     messages s' = messages s ++ [mkMessage now user text None; refusal]
     /\ intake s' = intake s
     /\ intakeConfirmed s' = intakeConfirmed s
     /\ awaitingConfirmation s' = awaitingConfirmation s
     /\ calls = persist conv [UpdateTitle ("BODHIT: " +:+ sliceTo 48 text)]
                 ++ persist conv [AddMessage user text None;
                                  AddMessage assistant refusal_content (Some warning)]
     /\ (forall t, StreamChat t ∉ calls)
     /\ (forall i, SaveIntake i ∉ calls))
  /\ (forall pre post,
        is_code_request (pre +:+ "give me the code" +:+ post) = true).
Proof.
  split.
  - intros now conv s rx Hl He Hin Ht. cbv zeta.
    rewrite (handleSend_refuses now conv s Hl He (is_code_request_pattern _ _ Hin Ht)).
    cbn [fst snd]. repeat split; try reflexivity.
    + intros t. destruct conv; not_among.
    + intros i. destruct conv; not_among.
  - intros pre post. apply (is_code_request_pattern "give me the code").
    + apply list_elem_of_here.
    + apply test_i_inside.
Qed.

(** The request is made while the collector awaits the confirmation of the
    record it parsed from the four lines. *)
Lemma code_request_witness :
  awaitingConfirmation Samples.after_intake = true
  /\ awaitingConfirmation
       (fst (handleSend 11 true
               (set_input Samples.after_intake "ok, GIVE me the Code now")))
     = true
  /\ last (messages
             (fst (handleSend 11 true
                     (set_input Samples.after_intake "ok, GIVE me the Code now"))))
     = Some (mkMessage 11 assistant refusal_content (Some warning)).
Proof.
  pose (w := proj1 code_request_short_circuit 11%N true
               (set_input Samples.after_intake "ok, GIVE me the Code now")
               "give me the code" eq_refl eq_refl
               (list_elem_of_here _ _) eq_refl).
  cbv zeta in w. destruct w as (Hm & _ & _ & Ha & _).
  split; [reflexivity|]. split; [exact Ha|]. rewrite Hm. reflexivity.
Defined.

(** *** Messages received while awaiting the confirmation *)

Lemma after_intake_reachable i : reachable (set_input Samples.after_intake i).
Proof.
  exact (reachable_step _ _ (reachable_step _ _ (reachable_step _ _
           reachable_initial (step_edit initial Samples.four_lines))
           (step_send _ 10%N false)) (step_edit _ i)).
Defined.

(** C5, as stated, fails: while the record of the four lines awaits its
    confirmation, a message that is neither [yes] nor [no] and carries four
    other lines is parsed and its record replaces the held one; and a
    message that does not parse is answered with the format helper, which
    is not the confirmation question that was asked. *)
Lemma reparsed_while_awaiting :
  reachable (set_input Samples.after_intake Samples.other_lines)
  /\ awaitingConfirmation (set_input Samples.after_intake Samples.other_lines) = true
  /\ intake (set_input Samples.after_intake Samples.other_lines) = Some Samples.todo_app
  /\ test_exact_i "yes" (trim Samples.other_lines) = false
  /\ test_exact_i "no" (trim Samples.other_lines) = false
  /\ intake (fst (handleSend 11 false
                    (set_input Samples.after_intake Samples.other_lines)))
     = Some Samples.blog
  /\ Samples.blog <> Samples.todo_app
  /\ last (messages (fst (handleSend 11 false
                            (set_input Samples.after_intake "maybe later"))))
     = Some (mkMessage 12 assistant helper_content (Some question))
  /\ helper_content <> parsed_content Samples.todo_app.
Proof.
  split; [apply after_intake_reachable|].
  repeat split; try reflexivity; discriminate.
Qed.

(** C5, amended.  While the collector awaits the confirmation, a message
    that is neither [yes] nor [no] is handled as any message of a session
    whose intake is not confirmed: a direct request for code is refused; a
    message that parses as an intake record replaces the held record and is
    echoed with the confirmation question for the new record; any other
    message leaves the held record as it is, the collector still awaiting,
    and is answered with the format helper. *)
Theorem awaiting_other_message (now : N) (conv : bool) (s : ChatState) :
  reachable s ->
  awaitingConfirmation s = true ->
  is_empty (trim (input s)) = false ->
  test_exact_i "yes" (trim (input s)) = false ->
  test_exact_i "no" (trim (input s)) = false ->
  fst (handleSend now conv s) =
  let text := trim (input s) in
  if is_code_request text then
    reply s now text (mkMessage now assistant refusal_content (Some warning))
  else
    match parseIntakeFromText text with
    | Some parsed =>
        reply (set_awaitingConfirmation (set_intake s (Some parsed)) true) now text
              (mkMessage (now + 1) assistant (parsed_content parsed) (Some question))
    | None =>
        reply s now text (mkMessage (now + 1) assistant helper_content (Some question))
    end.
Proof.
  intros Hr Ha He Hy Hn. cbv zeta.
  destruct (reachable_invariant s Hr) as (H1 & _). specialize (H1 Ha).
  pose proof (reachable_not_loading s Hr H1) as Hl.
  destruct (is_code_request (trim (input s))) eqn:Hq.
  - now rewrite handleSend_refuses.
  - rewrite handleSend_intake by assumption. cbv zeta.
    destruct (parseIntakeFromText (trim (input s))); [reflexivity|].
    rewrite Hy, Hn, !andb_false_r. now destruct (intake s).
Qed.

Lemma awaiting_other_message_witness :
  fst (handleSend 11 false (set_input Samples.after_intake "maybe later")) =
  reply (set_input Samples.after_intake "maybe later") 11 "maybe later"
        (mkMessage 12 assistant helper_content (Some question)).
Proof.
  exact (awaiting_other_message 11%N false
           (set_input Samples.after_intake "maybe later")
           (after_intake_reachable _) eq_refl eq_refl eq_refl eq_refl).
Defined.

(** *** Parsing the intake *)

Lemma key_values_nonempty text :
  Forall (fun kv => is_empty (snd kv) = false) (key_values text).
Proof.
  unfold key_values. induction (intake_lines text) as [|l lines IH]; [constructor|].
  rewrite omap_cons. destruct (key_value_of l) as [[k v]|] eqn:E; [|exact IH].
  constructor; [exact (key_value_of_nonempty _ _ _ E)|exact IH].
Qed.

Lemma values_for_nonempty text name alias v :
  values_for name alias (key_values text) = [v] -> is_empty v = false.
Proof.
  intros H. assert (Hin : v ∈ values_for name alias (key_values text))
    by (rewrite H; apply list_elem_of_here).
  unfold values_for in Hin. apply list_elem_of_fmap in Hin as ([k w] & -> & Hin).
  apply list_elem_of_filter in Hin as [_ Hin].
  pose proof (key_values_nonempty text) as Hall.
  rewrite Forall_forall in Hall. exact (Hall _ Hin).
Qed.

(** C6, as stated, fails: a text whose lines include the four lines of the
    required format, after a greeting and before one more line, does not
    yield the values of those four lines when the extra line names a target
    again. *)
Lemma later_line_wins :
  "Project idea: Todo app" ∈ intake_lines Samples.four_lines_and_more
  /\ "Tech stack: React" ∈ intake_lines Samples.four_lines_and_more
  /\ "Skill level: beginner" ∈ intake_lines Samples.four_lines_and_more
  /\ "Timeline: 2 weeks" ∈ intake_lines Samples.four_lines_and_more
  /\ parseIntakeFromText Samples.four_lines_and_more
     = Some (mkIntake "Blog" "React" "beginner" "2 weeks")
  /\ parseIntakeFromText Samples.four_lines_and_more <> Some Samples.todo_app.
Proof.
  repeat split; try discriminate; try reflexivity;
    vm_compute; repeat constructor.
Qed.

(** C6, amended.  [parseIntakeFromText] gives each target the value of the
    last line whose key, in lower case, is the target's name, or when no
    line carries the name, of the last line that carries its alias; it
    returns the four values when each is found and [null] otherwise.  So a
    text in which each target is named by one line only, in any order and
    among any other lines, yields the values of those four lines.  When it
    returns [null] for a message that is no direct request for code, sent
    while the collector is collecting, the collector answers with the
    required format and its state stays as it was. *)
Theorem parseIntakeFromText_last_line_wins :
  (forall text,
     parseIntakeFromText text =
     let kvs := key_values text in
     let projectIdea := field kvs "project idea" "project" in
     let techStack := field kvs "tech stack" "tech" in
     let skillLevel := field kvs "skill level" "skill" in
     let timeline := field kvs "timeline" "timeframe" in
     if negb (is_empty projectIdea) && negb (is_empty techStack)
        && negb (is_empty skillLevel) && negb (is_empty timeline)
     then Some (mkIntake projectIdea techStack skillLevel timeline)
     else None)
  /\ (forall text v1 v2 v3 v4,
        values_for "project idea" "project" (key_values text) = [v1] ->
        values_for "tech stack" "tech" (key_values text) = [v2] ->
        values_for "skill level" "skill" (key_values text) = [v3] ->
        values_for "timeline" "timeframe" (key_values text) = [v4] ->
        parseIntakeFromText text = Some (mkIntake v1 v2 v3 v4))
  /\ (forall now conv s,
        reachable s ->
        is_empty (trim (input s)) = false ->
        is_code_request (trim (input s)) = false ->
        intakeConfirmed s = false ->
        awaitingConfirmation s = false ->
        parseIntakeFromText (trim (input s)) = None ->
        fst (handleSend now conv s) =
        reply s now (trim (input s))
              (mkMessage (now + 1) assistant helper_content (Some question))).
Proof.
  split; [exact parseIntakeFromText_fields|]. split.
  - intros text v1 v2 v3 v4 H1 H2 H3 H4.
    rewrite parseIntakeFromText_fields. cbv zeta.
    rewrite (field_unique _ "project idea" "project" v1 ltac:(done) H1).
    rewrite (field_unique _ "tech stack" "tech" v2 ltac:(done) H2).
    rewrite (field_unique _ "skill level" "skill" v3 ltac:(done) H3).
    rewrite (field_unique _ "timeline" "timeframe" v4 ltac:(done) H4).
    rewrite (values_for_nonempty _ _ _ _ H1), (values_for_nonempty _ _ _ _ H2),
      (values_for_nonempty _ _ _ _ H3), (values_for_nonempty _ _ _ _ H4).
    reflexivity.
  - intros now conv s Hr He Hq Hc Ha Hp.
    pose proof (reachable_not_loading s Hr Hc) as Hl.
    rewrite handleSend_intake by assumption. cbv zeta.
    now rewrite Hp, Ha.
Qed.

(** The aliases, another order, a carriage return and blanks around a
    value. *)
Lemma parseIntakeFromText_witness :
  parseIntakeFromText Samples.other_lines = Some Samples.blog.
Proof.
  exact (proj1 (proj2 parseIntakeFromText_last_line_wins) Samples.other_lines
           "Blog" "Vue" "advanced" "1 week" eq_refl eq_refl eq_refl eq_refl).
Defined.

End ChatFacts.

(** ** The command extractor *)

Module ExtractFacts.
Import JS Json Extract Dispatch JSFacts IngestFacts.

Lemma sliceFrom_add a b s :
  sliceFrom (a + b) s = sliceFrom b (sliceFrom a s).
Proof.
  revert s. induction a as [|a IH]; intros s; [reflexivity|].
  destruct s as [|c s]; simpl; [now destruct b|]. apply IH.
Qed.

Lemma indexOf_empty p : is_empty p = false -> indexOf p "" = None.
Proof. now destruct p. Qed.

Lemma extract_empty P tag : extractFencedJson P "" tag = None.
Proof. reflexivity. Qed.

(** The span between the first opening fence and the first fence after
    it. *)
Lemma extract_span P pre tag rest :
  indexOf (fence +:+ tag) (pre +:+ (fence +:+ tag) +:+ rest) = Some (String.length pre) ->
  extractFencedJson P (pre +:+ (fence +:+ tag) +:+ rest) tag =
  match indexOf fence rest with
  | None => None
  | Some n =>
      mkExtracted (trim (sliceTo n rest)) <$> JSON_parse P (trim (sliceTo n rest))
  end.
Proof.
  intros Hstart. unfold extractFencedJson. rewrite Hstart.
  unfold indexOfFrom. rewrite sliceFrom_add, sliceFrom_app, sliceFrom_app.
  destruct (indexOf fence rest) as [n|]; [|reflexivity].
  cbn [fmap option_fmap option_map].
  assert (Hlen : String.length (fence +:+ tag) = S (S (S (String.length tag))))
    by reflexivity.
  destruct (Nat.leb_spec (String.length pre + String.length (fence +:+ tag) + n)
              (String.length pre)) as [Hle|_]; [rewrite Hlen in Hle; lia|].
  unfold slice. rewrite sliceFrom_add, sliceFrom_app, sliceFrom_app.
  replace (String.length pre + String.length (fence +:+ tag) + n
           - (String.length pre + String.length (fence +:+ tag))) with n by lia.
  now destruct (JSON_parse P (trim (sliceTo n rest))).
Qed.

(** C7, as stated, fails.  A block of file operations that is never
    closed yields nothing on its own, and yields its payload once a
    well-formed mentor report follows it, whose opening fence then closes
    it.  And a well-formed block of file operations, which yields its
    payload on its own, yields nothing after a mentor report whose note
    quotes its opening fence. *)
Lemma closed_by_the_next_block :
  extractFencedJson Engine.platform Samples.open_file_ops "FILE_OPS" = None
  /\ extractFencedJson Engine.platform Samples.empty_report "MENTOR_REPORT"
     = Some (mkExtracted "{}" (JObj []))
  /\ extractFencedJson Engine.platform
       (Samples.open_file_ops +:+ Samples.empty_report) "FILE_OPS"
     = Some (mkExtracted "[]" (JArr []))
  /\ extractFencedJson Engine.platform (Samples.block "FILE_OPS" "[]") "FILE_OPS"
     = Some (mkExtracted "[]" (JArr []))
  /\ extractFencedJson Engine.platform
       (Samples.quoting_report +:+ str LF +:+ Samples.block "FILE_OPS" "[]") "FILE_OPS"
     = None.
Proof. repeat split; reflexivity. Qed.

(** C7, amended.  [extractFencedJson] returns [null] when the text has no
    occurrence of the opening fence with the tag, when no three backticks
    follow the first occurrence, and when the trimmed text between that
    occurrence and the first three backticks after it does not parse;
    otherwise it returns that trimmed text and its parsed value.  The first
    occurrence may stand inside another block, and the three backticks that
    close the span may be the opening fence of another block.  When the
    first occurrence opens the tag's own block and the block's own fence
    closes it, the result is that of the block's inner text alone, whatever
    stands before the opening fence and after the closing one. *)
Theorem extractFencedJson_first_span (P : Platform) (tag : string) :
  (forall text,
     indexOf (fence +:+ tag) text = None ->
     extractFencedJson P text tag = None)
  /\ (forall pre rest,
        indexOf (fence +:+ tag) (pre +:+ (fence +:+ tag) +:+ rest)
          = Some (String.length pre) ->
        indexOf fence rest = None ->
        extractFencedJson P (pre +:+ (fence +:+ tag) +:+ rest) tag = None)
  /\ (forall pre body post,
        indexOf (fence +:+ tag) (pre +:+ (fence +:+ tag) +:+ body +:+ fence +:+ post)
          = Some (String.length pre) ->
        indexOf fence (body +:+ fence +:+ post) = Some (String.length body) ->
        extractFencedJson P (pre +:+ (fence +:+ tag) +:+ body +:+ fence +:+ post) tag
        = match JSON_parse P (trim body) with
          | Some v => Some (mkExtracted (trim body) v)
          | None => None
          end).
Proof.
  split; [|split].
  - intros text H. unfold extractFencedJson. now rewrite H.
  - intros pre rest Hstart Hnone. rewrite (extract_span P pre tag rest Hstart).
    now rewrite Hnone.
  - intros pre body post Hstart Hclose.
    rewrite (extract_span P pre tag _ Hstart), Hclose, sliceTo_app.
    now destruct (JSON_parse P (trim body)).
Qed.

(** The file operations of a response whose mentor report does not
    parse. *)
Lemma extractFencedJson_witness :
  extractFencedJson Engine.platform Samples.response "FILE_OPS"
  = Some (mkExtracted Samples.create_a_ts
            (JArr [JObj [("action", JStr "create"); ("path", JStr "/src/a.ts");
                         ("content", JStr "x")]]))
  /\ extractFencedJson Engine.platform Samples.response "MENTOR_REPORT" = None.
Proof.
  split; [|reflexivity].
  exact (proj2 (proj2 (extractFencedJson_first_span Engine.platform "FILE_OPS"))
           ("Here is the plan." +:+ str LF +:+ Samples.block "MENTOR_REPORT" "{oops"
              +:+ str LF)
           (str LF +:+ Samples.create_a_ts +:+ str LF)
           (str LF +:+ "Confirm to apply.")
           eq_refl eq_refl).
Defined.

(** *** The mentor report *)

Lemma extract_some_nonempty P text tag e :
  extractFencedJson P text tag = Some e -> is_empty text = false.
Proof. destruct text; [discriminate|reflexivity]. Qed.

(** C8, as stated, fails: a mentor report whose payload is [null] parses,
    a submission is known, and nothing is inserted. *)
Lemma null_report_is_dropped :
  extractFencedJson Engine.platform Samples.null_report "MENTOR_REPORT"
  = Some (mkExtracted "null" JNull)
  /\ snd (finalize Engine.platform true (Some "submission-1") Samples.null_report
            (mkDispatch None false None false []))
     = [AddAssistantMessage Samples.null_report None None].
Proof. split; reflexivity. Qed.

(** C8, amended.  When the mentor report parses to a truthy value (every
    object and every array is one) and the submission is known, the end of
    [streamChat] inserts the report into [mentor_reports] in the same call:
    no dialog stages it, and the calls do not depend on what file or
    milestone operations are pending, before or after. *)
Theorem mentor_report_bypasses_confirmation (P : Platform) (conv : bool)
    (sid content : string) (d : DispatchState) (e : Extracted) :
  extractFencedJson P content "MENTOR_REPORT" = Some e ->
  truthy (Some (parsed e)) = true ->
  is_empty sid = false ->
  InsertMentorReport sid (parsed e) (raw e)
    ∈ snd (finalize P conv (Some sid) content d)
  /\ (forall d', snd (finalize P conv (Some sid) content d')
                 = snd (finalize P conv (Some sid) content d))
  /\ (forall members, truthy (Some (JObj members)) = true)
  /\ (forall elements, truthy (Some (JArr elements)) = true).
Proof.
  intros He Ht Hs. split; [|split; [|split]]; try reflexivity.
  unfold finalize. rewrite (extract_some_nonempty _ _ _ _ He), He.
  cbv zeta. cbn [snd]. rewrite Ht, Hs. cbn [negb andb].
  apply elem_of_app. right. apply list_elem_of_here.
Qed.

(** The report is inserted while file operations wait in their dialog. *)
Lemma mentor_report_witness :
  InsertMentorReport "submission-1" (JObj []) "{}"
    ∈ snd (finalize Engine.platform true (Some "submission-1") Samples.empty_report
             (mkDispatch (Some (JArr [])) true None false [])).
Proof.
  exact (proj1 (mentor_report_bypasses_confirmation Engine.platform true
                  "submission-1" Samples.empty_report
                  (mkDispatch (Some (JArr [])) true None false [])
                  (mkExtracted "{}" (JObj [])) eq_refl eq_refl eq_refl)).
Defined.

End ExtractFacts.

(** ** The operation dispatcher *)

Module DispatchFacts.
Import JS Json Dispatch.

Section Turns.
Context {W : Type} (attempt : json -> W -> Attempt * W).

(** The results pushed so far stay in front of those of the turns to
    come. *)
Lemma foldl_turn rs w operations :
  foldl (turn attempt) (rs, w) operations =
  (rs ++ fst (run attempt operations w), snd (run attempt operations w)).
Proof.
  unfold run. revert rs w.
  induction operations as [|op operations IH]; intros rs w.
  - cbn. now rewrite app_nil_r.
  - cbn [foldl].
    assert (Ht : forall rs0, turn attempt (rs0, w) op =
                   (rs0 ++ [result_of op (fst (attempt op w))], snd (attempt op w))).
    { intros rs0. unfold turn. cbn [fst snd]. now destruct (attempt op w). }
    rewrite !Ht. cbn [app].
    rewrite (IH (rs ++ _)), (IH [_]). cbn [fst snd]. now rewrite <- app_assoc.
Qed.

Lemma run_cons op operations w :
  run attempt (op :: operations) w =
  (result_of op (fst (attempt op w)) :: fst (run attempt operations (snd (attempt op w))),
   snd (run attempt operations (snd (attempt op w)))).
Proof.
  unfold run at 1. cbn [foldl].
  assert (Ht : turn attempt ([], w) op =
                 ([result_of op (fst (attempt op w))], snd (attempt op w))).
  { unfold turn. cbn [fst snd]. now destruct (attempt op w). }
  rewrite Ht. now rewrite foldl_turn.
Qed.

Lemma run_app before after w :
  run attempt (before ++ after) w =
  (fst (run attempt before w) ++ fst (run attempt after (snd (run attempt before w))),
   snd (run attempt after (snd (run attempt before w)))).
Proof.
  revert w. induction before as [|op before IH]; intros w.
  - change (run attempt [] w) with (@nil OpResult, w). cbn [app fst snd].
    now destruct (run attempt after w).
  - cbn [app]. rewrite !run_cons, IH. reflexivity.
Qed.

Lemma run_length operations w :
  length (fst (run attempt operations w)) = length operations.
Proof.
  revert w. induction operations as [|op operations IH]; intros w; [reflexivity|].
  rewrite run_cons. cbn. now rewrite IH.
Qed.

Lemma run_lookup operations w j op :
  operations !! j = Some op ->
  fst (run attempt operations w) !! j =
  Some (result_of op (fst (attempt op (snd (run attempt (take j operations) w))))).
Proof.
  revert w j. induction operations as [|op0 operations IH]; intros w j H; [discriminate|].
  rewrite run_cons. destruct j as [|j].
  - cbn in H. injection H as ->. reflexivity.
  - cbn in H. cbn [take]. rewrite run_cons. cbn [fst snd lookup list_lookup].
    exact (IH _ j H).
Qed.

End Turns.

Lemma run_one_result_each {W : Type} (attempt : json -> W -> Attempt * W) :
  one_result_each attempt.
Proof.
  intros operations w. split; [apply run_length|]. split; [apply run_lookup|].
  intros before op after ->. rewrite run_app. cbn [fst]. f_equal.
  now rewrite run_cons.
Qed.

Lemma finish_known {A W} (o : Outcome A W) : fst (finish o) <> UnknownAction.
Proof. now destruct o. Qed.

Lemma attempt_file_op_unknown {W} fs (host : Host W) now op w :
  fst (attempt_file_op fs host now op w) = UnknownAction <->
  op <> JNull /\ ~ recognized file_actions op.
Proof.
  unfold recognized, file_actions, attempt_file_op.
  destruct op as [|b|m e|s|l|members]; cbn [prop];
    try (split; [intros _; split; [discriminate|intros (a & [=] & _)]
                |reflexivity]).
  - split; [discriminate|]. now intros [[] _].
  - destruct (lookup_member "action" members) as [[|b|m e|action|l|ms]|];
      try (split; [intros _; split; [discriminate|intros (a & [=] & _)]
                  |reflexivity]).
    destruct (String.eqb_spec action "create") as [->|H1].
    { split; [intros H; now apply finish_known in H|].
      intros [_ []]. eexists; split; [reflexivity|]. repeat constructor. }
    destruct (String.eqb_spec action "update") as [->|H2].
    { split; [intros H; now apply finish_known in H|].
      intros [_ []]. eexists; split; [reflexivity|]. repeat constructor. }
    destruct (String.eqb_spec action "delete") as [->|H3].
    { split; [intros H; now apply finish_known in H|].
      intros [_ []]. eexists; split; [reflexivity|]. repeat constructor. }
    destruct (String.eqb_spec action "rename") as [->|H4].
    { split; [intros H; now apply finish_known in H|].
      intros [_ []]. eexists; split; [reflexivity|]. repeat constructor. }
    destruct (String.eqb_spec action "export") as [->|H5].
    { split.
      - destruct fs as [f|]; [destruct (exportProject f w)
                             |destruct (stringifyCurrentFiles host w)];
          cbn; intros H; try discriminate H; now apply finish_known in H.
      - intros [_ []]. eexists; split; [reflexivity|]. repeat constructor. }
    split; [|reflexivity]. intros _. split; [discriminate|].
    intros (a & [= <-] & Hin).
    repeat (apply elem_of_cons in Hin as [Hin|Hin]; [congruence|]).
    now apply elem_of_nil in Hin.
Qed.

Lemma update_or_throw_known {W} (host : Host W) table payload key w :
  fst (update_or_throw host table payload key w) <> UnknownAction.
Proof.
  unfold update_or_throw. now destruct (updateRow host table payload key w) as [[c|] w1|c w1].
Qed.

Lemma attempt_milestone_op_unknown {W} (host : Host W) op w :
  fst (attempt_milestone_op host op w) = UnknownAction <->
  op <> JNull /\ ~ recognized milestone_actions op.
Proof.
  unfold recognized, milestone_actions, attempt_milestone_op.
  destruct op as [|b|m e|s|l|members]; cbn [prop];
    try (split; [intros _; split; [discriminate|intros (a & [=] & _)]
                |reflexivity]).
  - split; [discriminate|]. now intros [[] _].
  - destruct (lookup_member "action" members) as [[|b|m e|action|l|ms]|];
      try (split; [intros _; split; [discriminate|intros (a & [=] & _)]
                  |reflexivity]).
    destruct (String.eqb_spec action "update_milestone") as [->|H1].
    { split.
      - destruct (lookup_member "milestone_id" members) as [key|]; [|discriminate].
        destruct (truthy (Some key)); [|discriminate].
        intros H. now apply update_or_throw_known in H.
      - intros [_ []]. eexists; split; [reflexivity|]. repeat constructor. }
    destruct (String.eqb_spec action "update_task") as [->|H2].
    { split.
      - destruct (lookup_member "task_id" members) as [key|]; [|discriminate].
        destruct (truthy (Some key)); [|discriminate].
        intros H. now apply update_or_throw_known in H.
      - intros [_ []]. eexists; split; [reflexivity|]. repeat constructor. }
    split; [|reflexivity]. intros _. split; [discriminate|].
    intros (a & [= <-] & Hin).
    repeat (apply elem_of_cons in Hin as [Hin|Hin]; [congruence|]).
    now apply elem_of_nil in Hin.
Qed.

Lemma finish_caught {A W} (o : Outcome A W) : caught o (finish o).
Proof. now destruct o. Qed.

Lemma update_or_throw_answered {W} (host : Host W) table payload key w :
  answered (updateRow host table payload key w)
           (update_or_throw host table payload key w).
Proof.
  unfold update_or_throw, answered.
  now destruct (updateRow host table payload key w) as [[c|] w1|c w1].
Qed.

Lemma attempt_file_op_caught {W} fs (host : Host W) now op w :
  let path := prop "path" op in
  let content := or_else (prop "content" op) (JStr "") in
  let attempt := attempt_file_op fs host now op w in
  (prop "action" op = Some (JStr "create") ->
   caught (if_fs fs (fun f => createFile f path content
                                 (or_else (prop "language" op) (JStr "text"))) w)
          attempt)
  /\ (prop "action" op = Some (JStr "update") ->
      caught (if_fs fs (fun f => updateFile f path content) w) attempt)
  /\ (prop "action" op = Some (JStr "delete") ->
      caught (if_fs fs (fun f => deleteFile f path (truthy (prop "recursive" op))) w)
             attempt)
  /\ (prop "action" op = Some (JStr "rename") ->
      caught (if_fs fs (fun f => renameFile f path
                                   (or_else_undefined (prop "newName" op)
                                                      (prop "newPath" op))) w)
             attempt)
  /\ (prop "action" op = Some (JStr "export") ->
      match match fs with
            | Some f => exportProject f w
            | None => stringifyCurrentFiles host w
            end with
      | Returned text w1 =>
          caught (offerDownload host text
                    (or_else (prop "filename" op)
                       (JStr ("bodhit-project-" +:+ Engine.decimal now +:+ ".json")))
                    w1)
                 attempt
      | Threw c w1 => attempt = (Thrown c, w1)
      end).
Proof.
  cbv zeta.
  repeat split; intros Ha;
    (destruct op as [|b|m e|s|l|members]; try discriminate Ha);
    unfold attempt_file_op; rewrite Ha; decide_actions;
    try apply finish_caught.
  destruct (match fs with
            | Some f => exportProject f w
            | None => stringifyCurrentFiles host w
            end) as [text w1|c w1]; [apply finish_caught|reflexivity].
Qed.

Lemma attempt_milestone_op_answered {W} (host : Host W) op w :
  (prop "action" op = Some (JStr "update_milestone") ->
   (truthy (prop "milestone_id" op) = false ->
    attempt_milestone_op host op w = (Thrown "Error: milestone_id is required", w))
   /\ (forall key,
         prop "milestone_id" op = Some key -> truthy (Some key) = true ->
         exists payload,
           answered (updateRow host "milestones" payload key w)
                    (attempt_milestone_op host op w)))
  /\ (prop "action" op = Some (JStr "update_task") ->
      (truthy (prop "task_id" op) = false ->
       attempt_milestone_op host op w = (Thrown "Error: task_id is required", w))
      /\ (forall key,
            prop "task_id" op = Some key -> truthy (Some key) = true ->
            exists payload,
              answered (updateRow host "tasks" payload key w)
                       (attempt_milestone_op host op w))).
Proof.
  split; intros Ha;
    (destruct op as [|b|m e|s|l|members]; try discriminate Ha);
    unfold attempt_milestone_op; rewrite Ha; decide_actions.
  - split.
    + intros Hk. destruct (prop "milestone_id" (JObj members)) as [key|]; [|reflexivity].
      now rewrite Hk.
    + intros key -> ->. eexists. apply update_or_throw_answered.
  - split.
    + intros Hk. destruct (prop "task_id" (JObj members)) as [key|]; [|reflexivity].
      now rewrite Hk.
    + intros key -> ->. eexists. apply update_or_throw_answered.
Qed.

(** C3. Fault isolation in the dispatcher.  In the file domain and in the
    milestone and task domain the loop pushes one result for each
    operation, in the order of the operations, each the result of the
    attempt on its own operation: [ok] when the attempt is applied,
    [unknown-action] when the action is unknown, [error] with the
    stringified cause when the attempt threw; and a turn that throws does
    not end the loop: the operations before it keep their results and those
    after it are still run.  An attempt is of an unknown action exactly
    when the operation is not [null] and its action is not one of the
    domain's.  The attempt on [null] throws the [TypeError] of reading its
    action.  The attempt on a recognized file operation is applied when the
    call it makes into the file system (none without a file system), or for
    an export the download it offers, returns, and is thrown with the cause
    when that call throws.  The attempt on a recognized milestone or task
    operation throws when the operation names no row, and otherwise is
    applied when the update request returns without an error, and thrown
    with the cause when the request throws or its response carries an
    error.  The results of the file domain are what [applyFileOps] logs;
    those of the other domain are what the report of [applyMilestoneOps]
    counts. *)
Theorem dispatcher_fault_isolation {W : Type} (fs : option (FileSystem W))
    (host : Host W) (now : N) :
  one_result_each (attempt_file_op fs host now)
  /\ one_result_each (attempt_milestone_op host)
  /\ (forall op a,
        operation (result_of op a) = op
        /\ status (result_of op a)
           = match a with
             | Applied => ok
             | UnknownAction => unknown_action
             | Thrown _ => error
             end
        /\ cause (result_of op a)
           = match a with
             | Thrown c => Some c
             | _ => None
             end)
  /\ (forall op w,
        fst (attempt_file_op fs host now op w) = UnknownAction <->
        op <> JNull /\ ~ recognized file_actions op)
  /\ (forall op w,
        fst (attempt_milestone_op host op w) = UnknownAction <->
        op <> JNull /\ ~ recognized milestone_actions op)
  /\ (forall ops d w,
        truthy (Some ops) = true ->
        opsLog (fst (applyFileOps fs host now (Some ops) d w))
        = opsLog d ++ [mkLog now (fst (run_file_ops fs host now (operations_of ops) w))])
  /\ (forall ops d w,
        truthy (Some ops) = true ->
        snd (applyMilestoneOps host (Some ops) d w)
        = Some (report (fst (run_milestone_ops host (operations_of ops) w))))
  /\ (forall w,
        attempt_file_op fs host now JNull w = (Thrown (TypeError_null "action"), w)
        /\ attempt_milestone_op host JNull w = (Thrown (TypeError_null "action"), w))
  /\ (forall op w,
        let path := prop "path" op in
        let content := or_else (prop "content" op) (JStr "") in
        let attempt := attempt_file_op fs host now op w in
        (prop "action" op = Some (JStr "create") ->
         caught (if_fs fs (fun f => createFile f path content
                                       (or_else (prop "language" op) (JStr "text"))) w)
                attempt)
        /\ (prop "action" op = Some (JStr "update") ->
            caught (if_fs fs (fun f => updateFile f path content) w) attempt)
        /\ (prop "action" op = Some (JStr "delete") ->
            caught (if_fs fs (fun f => deleteFile f path (truthy (prop "recursive" op))) w)
                   attempt)
        /\ (prop "action" op = Some (JStr "rename") ->
            caught (if_fs fs (fun f => renameFile f path
                                         (or_else_undefined (prop "newName" op)
                                                            (prop "newPath" op))) w)
                   attempt)
        /\ (prop "action" op = Some (JStr "export") ->
            match match fs with
                  | Some f => exportProject f w
                  | None => stringifyCurrentFiles host w
                  end with
            | Returned text w1 =>
                caught (offerDownload host text
                          (or_else (prop "filename" op)
                             (JStr ("bodhit-project-" +:+ Engine.decimal now +:+ ".json")))
                          w1)
                       attempt
            | Threw c w1 => attempt = (Thrown c, w1)
            end))
  /\ (forall op w,
        (prop "action" op = Some (JStr "update_milestone") ->
         (truthy (prop "milestone_id" op) = false ->
          attempt_milestone_op host op w = (Thrown "Error: milestone_id is required", w))
         /\ (forall key,
               prop "milestone_id" op = Some key -> truthy (Some key) = true ->
               exists payload,
                 answered (updateRow host "milestones" payload key w)
                          (attempt_milestone_op host op w)))
        /\ (prop "action" op = Some (JStr "update_task") ->
            (truthy (prop "task_id" op) = false ->
             attempt_milestone_op host op w = (Thrown "Error: task_id is required", w))
            /\ (forall key,
                  prop "task_id" op = Some key -> truthy (Some key) = true ->
                  exists payload,
                    answered (updateRow host "tasks" payload key w)
                             (attempt_milestone_op host op w)))).
Proof.
  split; [apply run_one_result_each|]. split; [apply run_one_result_each|].
  split; [intros op []; repeat split; reflexivity|].
  split; [apply attempt_file_op_unknown|].
  split; [apply attempt_milestone_op_unknown|].
  split.
  { intros ops d w Ht. unfold applyFileOps. rewrite Ht.
    now destruct (run_file_ops fs host now (operations_of ops) w). }
  split.
  { intros ops d w Ht. unfold applyMilestoneOps. rewrite Ht.
    now destruct (run_milestone_ops host (operations_of ops) w). }
  split; [intros w; split; reflexivity|].
  split; [intros op w; apply attempt_file_op_caught|].
  intros op w. apply attempt_milestone_op_answered.
Qed.

(** A batch of five whose third operation is refused by the file system
    and whose fourth is [null]: five results, the others as if nothing had
    failed, and the world holds the two changes that were made. *)
Example dispatcher_batch_of_five :
  run_file_ops (Some Samples.recording_fs) Samples.recording_host 7
    [Samples.op_of "create" "/src/a.ts"; Samples.op_of "chmod" "/src/a.ts";
     Samples.op_of "create" "/forbidden"; JNull; Samples.op_of "update" "/src/a.ts"] []
  = ([mkResult (Samples.op_of "create" "/src/a.ts") ok None;
      mkResult (Samples.op_of "chmod" "/src/a.ts") unknown_action None;
      mkResult (Samples.op_of "create" "/forbidden") error (Some "Error: forbidden");
      mkResult JNull error (Some (TypeError_null "action"));
      mkResult (Samples.op_of "update" "/src/a.ts") ok None],
     [Samples.Created (Some (JStr "/src/a.ts")) (JStr "") (JStr "text");
      Samples.Updated (Some (JStr "/src/a.ts")) (JStr "")]).
Proof. reflexivity. Qed.

(** The second end-to-end scenario: the block of one [create], extracted,
    staged and applied, gives one result, [ok]. *)
Example one_create_applied :
  let staged :=
    fst (finalize Engine.platform false None Samples.response
           (mkDispatch None false None false [])) in
  showFileOpsDialog staged = true
  /\ opsLog (fst (applyFileOps (Some Samples.recording_fs) Samples.recording_host 7
                    (pendingFileOps staged) staged []))
     = [mkLog 7 [mkResult
                   (JObj [("action", JStr "create"); ("path", JStr "/src/a.ts");
                          ("content", JStr "x")]) ok None]].
Proof. split; reflexivity. Qed.

(** A batch of three in the milestone domain: the database answers the
    second update with an error and the third names no task. *)
Example milestone_batch_of_three :
  run_milestone_ops Samples.recording_host
    [JObj [("action", JStr "update_milestone"); ("milestone_id", JNum 4 0);
           ("status", JStr "done"); ("title", JStr "")];
     JObj [("action", JStr "update_task"); ("task_id", JStr "missing")];
     JObj [("action", JStr "update_task"); ("progress", JNum 5 1)]] []
  = ([mkResult (JObj [("action", JStr "update_milestone"); ("milestone_id", JNum 4 0);
                      ("status", JStr "done"); ("title", JStr "")]) ok None;
      mkResult (JObj [("action", JStr "update_task"); ("task_id", JStr "missing")])
               error (Some "Error: no such row");
      mkResult (JObj [("action", JStr "update_task"); ("progress", JNum 5 1)])
               error (Some "Error: task_id is required")],
     [Samples.RowUpdated "milestones" [("status", JStr "done")] (JNum 4 0)]).
Proof. reflexivity. Qed.

(** *** Without a file system *)

Lemma attempt_without_fs {W} (host : Host W) now op w :
  recognized mutations op ->
  attempt_file_op None host now op w = (Applied, w).
Proof.
  intros (a & Ha & Hin). destruct op as [|b|m e|s|l|members]; try discriminate Ha.
  unfold attempt_file_op. rewrite Ha.
  repeat (apply elem_of_cons in Hin as [->|Hin]; [reflexivity|]).
  now apply elem_of_nil in Hin.
Qed.

Lemma run_without_fs {W} (host : Host W) now operations w :
  Forall (recognized mutations) operations ->
  run_file_ops None host now operations w =
  (map (fun op => mkResult op ok None) operations, w).
Proof.
  unfold run_file_ops. induction 1 as [|op operations Hop _ IH]; [reflexivity|].
  rewrite run_cons, (attempt_without_fs host now op w Hop). cbn [fst snd].
  now rewrite IH.
Qed.

(** C10. Without a file system collaborator, every [create], [update],
    [delete] and [rename] is recorded as [ok] and nothing is changed: the
    log of a batch of such operations is all [ok] and the world is the one
    the batch started in. *)
Theorem ok_without_file_system {W : Type} (host : Host W) (now : N)
    (operations : list json) (d : DispatchState) (w : W) :
  Forall (recognized mutations) operations ->
  run_file_ops None host now operations w
    = (map (fun op => mkResult op ok None) operations, w)
  /\ applyFileOps None host now (Some (JArr operations)) d w
     = (mkDispatch None false (pendingMilestoneOps d) (showMilestoneOpsDialog d)
          (opsLog d ++ [mkLog now (map (fun op => mkResult op ok None) operations)]),
        w).
Proof.
  intros H. split; [now apply run_without_fs|].
  unfold applyFileOps. cbn [truthy operations_of].
  now rewrite (run_without_fs host now operations w H).
Qed.

Lemma ok_without_file_system_witness :
  run_file_ops None Samples.recording_host 7
    [Samples.op_of "create" "/src/a.ts"; Samples.op_of "update" "/src/a.ts";
     Samples.op_of "rename" "/src/a.ts"; Samples.op_of "delete" "/src/a.ts"] []
  = ([mkResult (Samples.op_of "create" "/src/a.ts") ok None;
      mkResult (Samples.op_of "update" "/src/a.ts") ok None;
      mkResult (Samples.op_of "rename" "/src/a.ts") ok None;
      mkResult (Samples.op_of "delete" "/src/a.ts") ok None], []).
Proof.
  refine (proj1 (ok_without_file_system Samples.recording_host 7%N
            [Samples.op_of "create" "/src/a.ts"; Samples.op_of "update" "/src/a.ts";
             Samples.op_of "rename" "/src/a.ts"; Samples.op_of "delete" "/src/a.ts"]
            (mkDispatch None false None false []) [] _)).
  repeat constructor; eexists; (split; [reflexivity|]); repeat constructor.
Defined.

End DispatchFacts.

(* ===================================================================== *)
(** * Part III. Further properties of the component *)
(* ===================================================================== *)

(** ** More on [trim] *)

Module TrimFacts.
Import JS JSFacts Notions.

Lemma trimEnd_idem s : trimEnd (trimEnd s) = trimEnd s.
Proof.
  induction s as [|c s IH]; [reflexivity|].
  cbn [trimEnd]. destruct (is_whitespace c && is_empty (trimEnd s)) eqn:E; [reflexivity|].
  cbn [trimEnd]. now rewrite IH, E.
Qed.

Lemma head_ok_trimStart s : head_ok (trimStart s) = true.
Proof.
  induction s as [|c s IH]; [reflexivity|].
  cbn [trimStart]. destruct (is_whitespace c) eqn:E; [exact IH|].
  cbn. now rewrite E.
Qed.

Lemma head_ok_fixed s : head_ok s = true -> trimStart s = s.
Proof.
  destruct s as [|c s]; [reflexivity|]. cbn.
  now intros ->%negb_true_iff.
Qed.

Lemma head_ok_trimEnd s : head_ok s = true -> head_ok (trimEnd s) = true.
Proof.
  destruct s as [|c s]; [reflexivity|]. cbn [head_ok trimEnd].
  intros H. apply negb_true_iff in H. rewrite H. cbn. now rewrite H.
Qed.

Lemma trimStart_trim s : trimStart (trim s) = trim s.
Proof. apply head_ok_fixed, head_ok_trimEnd, head_ok_trimStart. Qed.

Lemma trimEnd_trim s : trimEnd (trim s) = trim s.
Proof. apply trimEnd_idem. Qed.

Lemma trim_idem s : trim (trim s) = trim s.
Proof. unfold trim at 1. now rewrite trimStart_trim, trimEnd_trim. Qed.

Lemma trimEnd_suffix p v : trimEnd (p +:+ v) = p +:+ v -> trimEnd v = v.
Proof.
  induction p as [|c p IH]; [easy|].
  rewrite app_cons. cbn [trimEnd].
  destruct (is_whitespace c && is_empty (trimEnd (p +:+ v))); [discriminate|].
  intros [= H]. now apply IH.
Qed.

Lemma trimEnd_length s : String.length (trimEnd s) <= String.length s.
Proof.
  induction s as [|c s IH]; [reflexivity|].
  cbn [trimEnd].
  destruct (is_whitespace c && is_empty (trimEnd s)); cbn [String.length]; lia.
Qed.

Lemma trimEnd_app_all_whitespace p w :
  all_whitespace w = true -> trimEnd (p +:+ w) = trimEnd p.
Proof.
  intros Hw. induction p as [|c p IH].
  - change ("" +:+ w) with w. cbn [trimEnd]. clear -Hw.
    induction w as [|a w IH]; [reflexivity|].
    cbn in Hw. apply andb_true_iff in Hw as [Ha Hw].
    cbn [trimEnd]. now rewrite (IH Hw), Ha.
  - rewrite app_cons. cbn [trimEnd]. now rewrite IH.
Qed.

Lemma trimStart_split s : exists w, s = w +:+ trimStart s /\ all_whitespace w = true.
Proof.
  induction s as [|c s (w & Hs & Hw)]; [now exists ""|].
  cbn [trimStart]. destruct (is_whitespace c) eqn:E.
  - exists (String c w). rewrite app_cons, <- Hs. cbn. now rewrite E.
  - now exists "".
Qed.

End TrimFacts.

(** ** More on the intake parser *)

Module IntakeEdges.
Import JS Intake JSFacts IntakeFacts Notions TrimFacts.

Lemma split_first_colon_app l k rest :
  split_first_colon l = Some (k, rest) -> l = k +:+ str colon +:+ rest.
Proof.
  revert k. induction l as [|c l IH]; intros k; [discriminate|].
  cbn [split_first_colon]. destruct (Ascii.eqb c colon) eqn:E.
  - intros [= <- <-]. apply Ascii.eqb_eq in E. now subst c.
  - destruct (split_first_colon l) as [[k0 r0]|]; [|discriminate].
    intros [= <- <-]. rewrite app_cons. f_equal. now apply IH.
Qed.

Lemma last_char_nonempty s c : last_char s = Some c -> is_empty s = false.
Proof. now destruct s. Qed.

Lemma length_nonempty s : is_empty s = false -> 0 < String.length s.
Proof. destruct s; [discriminate|cbn; lia]. Qed.

(** The value a trimmed line gives is clean. *)
Lemma key_value_of_clean x k v :
  key_value_of (trim x) = Some (k, v) -> clean v.
Proof.
  unfold key_value_of, match_key_value.
  destruct (split_first_colon (trim x)) as [[k0 rest]|] eqn:Hs; [|discriminate].
  destruct (is_empty k0); [discriminate|].
  destruct (match_value rest) as [v0|] eqn:Hv; [|discriminate].
  intros [= _ <-]. apply split_first_colon_app in Hs.
  pose proof (trimEnd_trim x) as Hend. rewrite Hs in Hend.
  unfold match_value in Hv.
  destruct (is_empty (trimStart rest)) eqn:E.
  - exfalso. destruct (last_char rest) as [c|] eqn:Hc; [|discriminate].
    assert (Hw : all_whitespace rest = true).
    { apply trimStart_whitespace_suffix. now destruct (trimStart rest). }
    rewrite <- !app_assoc in Hend. rewrite (trimEnd_app_all_whitespace _ _ Hw) in Hend.
    pose proof (trimEnd_length (k0 +:+ str colon)) as Hlen.
    rewrite Hend in Hlen. rewrite !length_app in Hlen.
    pose proof (length_nonempty _ (last_char_nonempty _ _ Hc)). lia.
  - destruct (no_line_terminator (trimStart rest)) eqn:Hn; [|discriminate].
    injection Hv as <-. repeat split; [exact E|exact Hn|].
    unfold trim. rewrite (head_ok_fixed _ (head_ok_trimStart rest)).
    destruct (trimStart_split rest) as (w & Hw & _).
    rewrite Hw in Hend. rewrite <- !app_assoc in Hend.
    exact (trimEnd_suffix _ _ Hend).
Qed.

Lemma intake_lines_trimmed text l :
  l ∈ intake_lines text -> exists x, l = trim x.
Proof.
  unfold intake_lines. intros Hin. apply list_elem_of_filter in Hin as [_ Hin].
  apply list_elem_of_fmap in Hin as (x & -> & _). eauto.
Qed.

Lemma key_values_clean text k v : (k, v) ∈ key_values text -> clean v.
Proof.
  unfold key_values. intros Hin. apply list_elem_of_omap in Hin as (l & Hl & Hkv).
  destruct (intake_lines_trimmed _ _ Hl) as [x ->].
  exact (key_value_of_clean _ _ _ Hkv).
Qed.

Lemma last_value_elem k kvs v : last_value k kvs = Some v -> (k, v) ∈ kvs.
Proof.
  induction kvs as [|[k0 v0] kvs IH]; [discriminate|].
  cbn [last_value]. destruct (last_value k kvs) as [w|].
  - intros [= <-]. right. now apply IH.
  - destruct (String.eqb_spec k k0) as [->|]; [|discriminate].
    intros [= <-]. left.
Qed.

Lemma field_clean text name alias :
  is_empty (field (key_values text) name alias) = false ->
  clean (field (key_values text) name alias).
Proof.
  unfold field. destruct (last_value name (key_values text)) as [v|] eqn:E.
  - intros _. exact (key_values_clean _ _ _ (last_value_elem _ _ _ E)).
  - destruct (last_value alias (key_values text)) as [v|] eqn:E'; [|discriminate].
    intros _. exact (key_values_clean _ _ _ (last_value_elem _ _ _ E')).
Qed.

(** X1. Every field of a record that [parseIntakeFromText] returns is not
    empty, holds no line terminator and has no blank at either end. *)
Theorem parsed_fields_are_clean (text : string) (r : IntakeRecord) :
  parseIntakeFromText text = Some r ->
  clean (projectIdea r) /\ clean (techStack r)
  /\ clean (skillLevel r) /\ clean (timeline r).
Proof.
  rewrite parseIntakeFromText_fields. cbv zeta.
  destruct (is_empty (field (key_values text) "project idea" "project")) eqn:E1;
    [discriminate|].
  destruct (is_empty (field (key_values text) "tech stack" "tech")) eqn:E2;
    [discriminate|].
  destruct (is_empty (field (key_values text) "skill level" "skill")) eqn:E3;
    [discriminate|].
  destruct (is_empty (field (key_values text) "timeline" "timeframe")) eqn:E4;
    [discriminate|].
  cbn. intros [= <-]. cbn.
  auto using field_clean.
Qed.

Lemma parsed_fields_witness :
  clean "Blog" /\ clean "Vue" /\ clean "advanced" /\ clean "1 week".
Proof.
  exact (parsed_fields_are_clean Samples.other_lines Samples.blog eq_refl).
Defined.

(** *** Texts without a colon *)

Lemma has_char_trimStart c s :
  has_char c s = false -> has_char c (trimStart s) = false.
Proof.
  induction s as [|a s IH]; [easy|]. cbn [trimStart].
  destruct (is_whitespace a); [|easy].
  cbn. intros [_ H]%orb_false_iff. auto.
Qed.

Lemma has_char_trimEnd c s :
  has_char c s = false -> has_char c (trimEnd s) = false.
Proof.
  induction s as [|a s IH]; [easy|]. cbn [trimEnd has_char].
  intros [Ha H]%orb_false_iff.
  destruct (is_whitespace a && is_empty (trimEnd s)); [reflexivity|].
  cbn. now rewrite Ha, IH.
Qed.

Lemma has_char_split_CRLF c s :
  has_char c s = false ->
  Forall (fun l => has_char c l = false) (split_CRLF s).
Proof.
  induction s as [|a s IH]; [repeat constructor|].
  cbn [has_char]. intros [Ha Hs]%orb_false_iff. specialize (IH Hs).
  assert (Hcont : Forall (fun l => has_char c l = false)
                    match split_CRLF s with
                    | h :: t => String a h :: t
                    | [] => [String a ""]
                    end).
  { destruct (split_CRLF s) as [|h t].
    - repeat constructor. cbn. now rewrite Ha.
    - inversion IH; subst. constructor; [cbn; now rewrite Ha|assumption]. }
  cbn [split_CRLF]. destruct (Ascii.eqb a LF); [now constructor|].
  destruct (Ascii.eqb a CR); [|exact Hcont].
  destruct s as [|d s']; [exact Hcont|].
  destruct (Ascii.eqb d LF) eqn:Ed; [|exact Hcont].
  cbn [split_CRLF] in IH. rewrite Ed in IH. inversion IH; subst.
  now constructor.
Qed.

Lemma no_colon_no_key s :
  has_char colon s = false -> split_first_colon s = None.
Proof.
  induction s as [|a s IH]; [reflexivity|].
  cbn [has_char split_first_colon]. intros [Ha Hs]%orb_false_iff.
  now rewrite Ha, (IH Hs).
Qed.

Lemma no_colon_no_key_values text :
  has_char colon text = false -> key_values text = [].
Proof.
  intros H. unfold key_values, intake_lines.
  pose proof (has_char_split_CRLF colon text H) as Hall.
  induction Hall as [|l ls Hl _ IH]; [reflexivity|].
  cbn [map]. rewrite filter_cons. case_decide; [|exact IH].
  rewrite omap_cons. unfold key_value_of at 1, match_key_value.
  rewrite no_colon_no_key; [exact IH|].
  unfold trim. now apply has_char_trimEnd, has_char_trimStart.
Qed.

(** X2. A text that holds no colon is never read as an intake. *)
Theorem no_colon_no_intake (text : string) :
  has_char colon text = false -> parseIntakeFromText text = None.
Proof.
  intros H. rewrite parseIntakeFromText_fields.
  now rewrite (no_colon_no_key_values text H).
Qed.

Lemma no_colon_no_intake_witness :
  parseIntakeFromText "A todo app, in React; I am a beginner and have 2 weeks" = None.
Proof.
  exact (no_colon_no_intake
           "A todo app, in React; I am a beginner and have 2 weeks" eq_refl).
Defined.

End IntakeEdges.

(** ** More on [handleSend] *)

Module ChatEdges.
Import JS Intake Chat JSFacts IntakeFacts ChatFacts Notions.

(** The seven ways a call of [handleSend] ends. *)
Lemma handleSend_cases now conv s :
  let text := trim (input s) in
  let title := persist conv [UpdateTitle ("BODHIT: " +:+ sliceTo 48 text)] in
  let r := handleSend now conv s in
  ((is_empty text = true \/ isLoading s = true) /\ r = (s, []))
  \/ (is_code_request text = true /\
      r = (reply s now text (mkMessage now assistant refusal_content (Some warning)),
           title ++ persist conv
             [AddMessage user text None;
              AddMessage assistant refusal_content (Some warning)]))
  \/ (exists parsed,
        intakeConfirmed s = false /\ parseIntakeFromText text = Some parsed /\
        r = (reply (set_awaitingConfirmation (set_intake s (Some parsed)) true) now text
               (mkMessage (now + 1) assistant (parsed_content parsed) (Some question)),
             title ++ persist conv
               [AddMessage user text None;
                AddMessage assistant (parsed_content parsed) (Some question)]))
  \/ (exists i,
        intakeConfirmed s = false /\ awaitingConfirmation s = true /\
        test_exact_i "yes" text = true /\ intake s = Some i /\
        r = (reply (set_awaitingConfirmation (set_intakeConfirmed s true) false) now text
               (mkMessage (now + 1) assistant confirmed_content (Some explanation)),
             title ++ persist conv
               [AddMessage user text None;
                AddMessage assistant confirmed_content (Some explanation);
                SaveIntake i]))
  \/ (intakeConfirmed s = false /\ awaitingConfirmation s = true /\
      test_exact_i "no" text = true /\
      r = (reply (set_awaitingConfirmation (set_intake s None) false) now text
             (mkMessage (now + 1) assistant reenter_content (Some explanation)),
           title ++ persist conv
             [AddMessage user text None;
              AddMessage assistant reenter_content (Some explanation)]))
  \/ (intakeConfirmed s = false /\
      r = (reply s now text
             (mkMessage (now + 1) assistant helper_content (Some question)),
           title ++ persist conv
             [AddMessage user text None;
              AddMessage assistant helper_content (Some question)]))
  \/ (intakeConfirmed s = true /\ isLoading s = false /\
      is_empty text = false /\ is_code_request text = false /\
      r = (s, title ++ [StreamChat text])).
Proof.
  cbv zeta. unfold handleSend.
  destruct (is_empty (trim (input s))) eqn:He; [left; auto|].
  destruct (isLoading s) eqn:Hl; [left; auto|]. cbn [orb].
  destruct (is_code_request (trim (input s))) eqn:Hq; [right; left; auto|].
  destruct (intakeConfirmed s) eqn:Hc; cbn [negb];
    [do 6 right; auto|].
  destruct (parseIntakeFromText (trim (input s))) as [parsed|] eqn:Hp;
    [do 2 right; left; eauto|].
  destruct (awaitingConfirmation s) eqn:Ha; cbn [andb]; [|do 5 right; left; auto].
  destruct (test_exact_i "yes" (trim (input s))) eqn:Hy.
  - destruct (intake s) as [i|] eqn:Hi; [do 3 right; left; eauto 10|].
    destruct (test_exact_i "no" (trim (input s))) eqn:Hn;
      [do 4 right; left; auto|do 5 right; left; auto].
  - destruct (test_exact_i "no" (trim (input s))) eqn:Hn;
      [do 4 right; left; auto|do 5 right; left; auto].
Qed.


(** X7. A message made of blanks only, or sent while a response is loading,
    is dropped: no cell changes and no call is made. *)
Theorem blank_input_is_dropped (now : N) (conv : bool) (s : ChatState) :
  all_whitespace (input s) = true \/ isLoading s = true ->
  handleSend now conv s = (s, []).
Proof.
  intros H. unfold handleSend.
  destruct H as [H|H].
  - now rewrite (all_whitespace_trim _ H).
  - rewrite H. now rewrite orb_true_r.
Qed.

Lemma blank_input_witness :
  handleSend 3 true (set_input Samples.after_intake (str LF +:+ "  " +:+ str LF))
  = (set_input Samples.after_intake (str LF +:+ "  " +:+ str LF), []).
Proof.
  exact (blank_input_is_dropped 3%N true
           (set_input Samples.after_intake (str LF +:+ "  " +:+ str LF))
           (or_introl eq_refl)).
Defined.

(** *** Once the intake is confirmed *)

Lemma reachable_confirmed_record s :
  reachable s -> intakeConfirmed s = true -> is_Some (intake s).
Proof.
  induction 1 as [|s s' Hr IH Hstep]; [discriminate|].
  destruct Hstep as [s i | s now conv | s ms i l Hc]; cbn; auto.
  intros Hc'. destruct (intakeConfirmed s) eqn:Hc.
  - specialize (IH eq_refl).
    pose proof (handleSend_cases now conv s) as Hcases; cbv zeta in Hcases;
    destruct Hcases
      as [[_ E]|[[_ E]|[(p & Hf & _)|[(i & Hf & _)
         |[(Hf & _)|[[Hf _]|(_ & _ & _ & _ & E)]]]]]];
      try congruence; cbv zeta in E; rewrite E; exact IH.
  - destruct (handleSend_confirmed_only_by_yes now conv s Hc Hc') as (_ & _ & Hi & _).
    pose proof (handleSend_cases now conv s) as Hcases; cbv zeta in Hcases;
    destruct Hcases
      as [[_ E]|[[_ E]|[(p & _ & _ & E)|[(i & _ & _ & _ & _ & E)
         |[(_ & _ & _ & E)|[[_ E]|(_ & _ & _ & _ & E)]]]]]];
      cbv zeta in E; rewrite E in Hc' |- *; cbn in Hc' |- *; congruence.
Qed.

(** X4. The confirmed state is final.  From a reachable state whose intake
    is confirmed, every step keeps it confirmed, not awaiting, and holding
    the record it held; and every message that is sent (not blank, no
    request for code, no response loading) goes to [streamChat] as it is,
    trimmed, with no attempt to parse it. *)
Theorem confirmed_is_final :
  (forall s s',
     reachable s -> step s s' -> intakeConfirmed s = true ->
     intakeConfirmed s' = true /\ awaitingConfirmation s' = false
     /\ intake s' = intake s /\ is_Some (intake s))
  /\ (forall now conv s,
        intakeConfirmed s = true -> isLoading s = false ->
        is_empty (trim (input s)) = false ->
        is_code_request (trim (input s)) = false ->
        handleSend now conv s
        = (s, persist conv [UpdateTitle ("BODHIT: " +:+ sliceTo 48 (trim (input s)))]
                ++ [StreamChat (trim (input s))])).
Proof.
  split.
  - intros s s' Hr Hstep Hc.
    pose proof (reachable_confirmed_record s Hr Hc) as Hi.
    destruct (reachable_invariant s Hr) as (H1 & _).
    assert (Ha : awaitingConfirmation s = false).
    { destruct (awaitingConfirmation s); [|reflexivity].
      rewrite (H1 eq_refl) in Hc. discriminate. }
    destruct Hstep as [s i | s now conv | s ms i l _]; cbn; auto.
    pose proof (handleSend_cases now conv s) as Hcases; cbv zeta in Hcases;
    destruct Hcases
      as [[_ E]|[[_ E]|[(p & Hf & _)|[(i & Hf & _)
         |[(Hf & _)|[[Hf _]|(_ & _ & _ & _ & E)]]]]]];
      try congruence; cbv zeta in E; rewrite E; cbn; auto.
  - intros now conv s Hc Hl He Hq. unfold handleSend.
    now rewrite He, Hl, Hq, Hc.
Qed.

(** The session of the four lines, confirmed, and then sent four other
    lines: they go to [streamChat]. *)
Lemma confirmed_is_final_witness :
  snd (handleSend 13 false
         (set_input (fst (handleSend 11 false (set_input Samples.after_intake "YES")))
                    Samples.other_lines))
  = [StreamChat Samples.other_lines].
Proof.
  exact (f_equal snd
           (proj2 confirmed_is_final 13%N false
              (set_input (fst (handleSend 11 false (set_input Samples.after_intake "YES")))
                         Samples.other_lines)
              eq_refl eq_refl eq_refl eq_refl)).
Defined.

(** X5. [saveIntake] is called on the confirming reply only, and with the
    record that was held: a conversation is open, the collector was awaiting
    and not confirmed, the trimmed message is [yes] up to case, and the
    call confirms the intake; in a reachable state the record is one that
    [parseIntakeFromText] returned. *)
Theorem saveIntake_only_on_confirmation (now : N) (conv : bool) (s : ChatState)
    (i : IntakeRecord) :
  SaveIntake i ∈ snd (handleSend now conv s) ->
  conv = true /\ intake s = Some i
  /\ awaitingConfirmation s = true /\ intakeConfirmed s = false
  /\ toLowerCase (trim (input s)) = "yes"
  /\ intakeConfirmed (fst (handleSend now conv s)) = true
  /\ (reachable s -> exists text, parseIntakeFromText text = Some i).
Proof.
  pose proof (handleSend_cases now conv s) as Hcases; cbv zeta in Hcases;
    destruct Hcases
    as [[_ E]|[[_ E]|[(p & _ & _ & E)|[(i0 & Hc & Ha & Hy & Hi & E)
       |[(_ & _ & _ & E)|[[_ E]|(_ & _ & _ & _ & E)]]]]]];
    cbv zeta in E; rewrite E; cbn [fst snd]; destruct conv; cbn;
    try (now intros H; exfalso; revert H; not_among).
  intros H. repeat (apply elem_of_cons in H as [H|H]; [try discriminate H|]).
  - injection H as ->. repeat split; auto.
    + rewrite test_yes in Hy. now apply String.eqb_eq in Hy.
    + intros Hr. destruct (reachable_invariant s Hr) as (_ & _ & _ & H3). eauto.
  - now apply elem_of_nil in H.
Qed.

Lemma saveIntake_witness :
  intake (set_input Samples.after_intake "Yes") = Some Samples.todo_app
  /\ intakeConfirmed (fst (handleSend 11 true (set_input Samples.after_intake "Yes")))
     = true.
Proof.
  pose (w := saveIntake_only_on_confirmation 11%N true
               (set_input Samples.after_intake "Yes") Samples.todo_app
               (list_elem_of_further _ _ _
                  (list_elem_of_further _ _ _
                     (list_elem_of_further _ _ _ (list_elem_of_here _ _))))).
  destruct w as (_ & Hi & _ & _ & _ & Hc & _). split; [exact Hi|exact Hc].
Defined.

Lemma sliceTo_length n t : String.length (sliceTo n t) <= n.
Proof.
  revert t. induction n as [|n IH]; intros t; [reflexivity|].
  destruct t as [|c t]; cbn; [lia|]. specialize (IH t). lia.
Qed.

(** X6. The calls to the conversation store.  Without an open
    conversation [handleSend] calls nothing but [streamChat]; and a title
    it sets is [BODHIT: ] followed by the first 48 characters of the trimmed
    message, so 56 characters at most. *)
Theorem store_calls_need_a_conversation (now : N) (s : ChatState) :
  (forall e, e ∈ snd (handleSend now false s) -> exists t, e = StreamChat t)
  /\ (forall conv title,
        UpdateTitle title ∈ snd (handleSend now conv s) ->
        conv = true
        /\ title = "BODHIT: " +:+ sliceTo 48 (trim (input s))
        /\ String.length title <= 56).
Proof.
  split.
  - intros e.
    pose proof (handleSend_cases now false s) as Hcases; cbv zeta in Hcases;
    destruct Hcases
      as [[_ E]|[[_ E]|[(p & _ & _ & E)|[(i0 & _ & _ & _ & _ & E)
         |[(_ & _ & _ & E)|[[_ E]|(_ & _ & _ & _ & E)]]]]]];
      cbv zeta in E; rewrite E; cbn;
      intros H; try (now apply elem_of_nil in H).
    apply list_elem_of_singleton in H. eauto.
  - intros conv title.
    assert (Hlen : String.length ("BODHIT: " +:+ sliceTo 48 (trim (input s))) <= 56).
    { rewrite length_app. pose proof (sliceTo_length 48 (trim (input s))).
      cbn [String.length]. lia. }
    pose proof (handleSend_cases now conv s) as Hcases; cbv zeta in Hcases;
    destruct Hcases
      as [[_ E]|[[_ E]|[(p & _ & _ & E)|[(i0 & _ & _ & _ & _ & E)
         |[(_ & _ & _ & E)|[[_ E]|(_ & _ & _ & _ & E)]]]]]];
      cbv zeta in E; rewrite E; cbn [fst snd]; destruct conv; cbn;
      intros H;
      repeat (apply elem_of_cons in H as [H|H]; [try discriminate H|]);
      try (now apply elem_of_nil in H);
      injection H as ->; auto.
Qed.

End ChatEdges.

(** ** More on the stream ingestor *)

Module IngestEdges.
Import JS Json Ingest JSFacts IngestFacts Notions.

Section Reads.
Context (P : Platform) (assistantId : N).

Local Abbreviation process_lines := (process_lines P assistantId).
Local Abbreviation read_chunk := (read_chunk P assistantId).
Local Abbreviation final_flush := (final_flush P assistantId).
Local Abbreviation line_text := (line_text P).
Local Abbreviation text_of := (text_of P).

(** *** The content only grows *)

Lemma begins_refl a : begins a a.
Proof. exists "". now rewrite app_nil_r. Qed.

Lemma begins_trans a b c : begins a b -> begins b c -> begins a c.
Proof. intros [t ->] [u ->]. exists (t +:+ u). now rewrite app_assoc. Qed.

Lemma process_lines_grows fuel st :
  begins (assistantContent st) (assistantContent (process_lines fuel st)).
Proof.
  revert st. induction fuel as [|fuel IH]; intros st; [apply begins_refl|].
  cbn [Ingest.process_lines].
  destruct (indexOf (str LF) (textBuffer st)) as [i|]; [|apply begins_refl].
  destruct (classify (strip_CR (slice 0 i (textBuffer st)))) as [| |jsonStr].
  - apply (IH (set_buffer st _)).
  - apply begins_refl.
  - destruct (decode P jsonStr) as [[content|]|].
    + eapply begins_trans; [|apply IH]. now exists content.
    + apply (IH (set_buffer st _)).
    + apply begins_refl.
Qed.

Lemma read_chunk_grows st chunk :
  begins (assistantContent st) (assistantContent (read_chunk st chunk)).
Proof. unfold Ingest.read_chunk. apply (process_lines_grows _ (set_buffer st _)). Qed.

Lemma read_chunks_grow chunks st :
  begins (assistantContent st) (assistantContent (foldl read_chunk st chunks)).
Proof.
  revert st. induction chunks as [|c chunks IH]; intros st; [apply begins_refl|].
  cbn [foldl]. eapply begins_trans; [apply read_chunk_grows|apply IH].
Qed.

Lemma final_flush_grows st :
  begins (assistantContent st) (assistantContent (final_flush st)).
Proof. rewrite final_flush_content. now eexists. Qed.

End Reads.

(** X8. The accumulated content only grows: what has been accumulated after
    some chunks is the beginning of what is accumulated after any further
    chunks, and of what the final flush leaves. *)
Theorem content_only_grows (P : Platform) (assistantId : N) (prev : list Message)
    (chunks more : list string) :
  begins (assistantContent (foldl (read_chunk P assistantId) (mkIngest "" "" prev) chunks))
         (assistantContent
            (foldl (read_chunk P assistantId) (mkIngest "" "" prev) (chunks ++ more)))
  /\ begins (assistantContent
               (foldl (read_chunk P assistantId) (mkIngest "" "" prev) chunks))
            (assistantContent (ingest P assistantId prev chunks)).
Proof.
  split.
  - rewrite foldl_app. apply read_chunks_grow.
  - apply final_flush_grows.
Qed.

(** *** A line that does not decode holds the stream back *)

Lemma read_chunk_held_back P assistantId st chunk :
  held_back P st ->
  held_back P (read_chunk P assistantId st chunk)
  /\ assistantContent (read_chunk P assistantId st chunk) = assistantContent st
  /\ shown (read_chunk P assistantId st chunk) = shown st.
Proof.
  intros (line & rest & jsonStr & Hb & Hno & Hk & Hd).
  unfold read_chunk.
  assert (Hb' : textBuffer (set_buffer st (textBuffer st +:+ chunk))
                = line +:+ str LF +:+ rest +:+ chunk).
  { cbn. now rewrite Hb, !app_assoc. }
  assert (Hlen : exists n,
            String.length (textBuffer (set_buffer st (textBuffer st +:+ chunk))) = S n).
  { rewrite Hb', length_app. unfold str. rewrite app_cons. cbn [String.length].
    rewrite Nat.add_succ_r. eauto. }
  destruct Hlen as [n ->].
  rewrite (process_lines_rebuffer P assistantId n _ line (rest +:+ chunk) jsonStr
             Hb' Hno Hk Hd).
  split; [|split; reflexivity].
  exists (strip_CR line), (rest +:+ chunk), jsonStr. repeat split; auto.
  - now apply has_char_strip_CR.
  - now rewrite classify_strip_CR.
Qed.

(** X9. Once the buffer starts with a complete event line that does not
    decode, no later read adds to the content or to the messages shown,
    however many chunks follow: everything behind that line waits for the
    final flush. *)
Theorem undecodable_line_holds_the_stream (P : Platform) (assistantId : N)
    (st : IngestState) (line rest jsonStr : string) (chunks : list string) :
  textBuffer st = line +:+ str LF +:+ rest ->
  has_char LF line = false ->
  classify (strip_CR line) = Payload jsonStr ->
  decode P jsonStr = None ->
  assistantContent (foldl (read_chunk P assistantId) st chunks) = assistantContent st
  /\ shown (foldl (read_chunk P assistantId) st chunks) = shown st
  /\ assistantContent (final_flush P assistantId
                         (foldl (read_chunk P assistantId) st chunks))
     = assistantContent st +:+ text_of P (rest +:+ concat chunks).
Proof.
  intros Hb Hno Hk Hd.
  assert (Hheld : held_back P st) by (exists line, rest, jsonStr; auto).
  assert (Hkeep : forall chunks st,
            held_back P st ->
            held_back P (foldl (read_chunk P assistantId) st chunks)
            /\ assistantContent (foldl (read_chunk P assistantId) st chunks)
               = assistantContent st
            /\ shown (foldl (read_chunk P assistantId) st chunks) = shown st).
  { clear. induction chunks as [|c chunks IH]; intros st H; [auto|].
    cbn [foldl]. destruct (read_chunk_held_back P assistantId st c H) as (H' & Hc & Hs).
    destruct (IH _ H') as (H'' & Hc' & Hs'). rewrite Hc', Hs'. auto. }
  destruct (Hkeep chunks st Hheld) as (_ & Hc & Hs).
  split; [exact Hc|]. split; [exact Hs|].
  rewrite final_flush_content.
  pose proof (read_chunks_text P assistantId chunks st "") as Ht.
  rewrite !app_nil_r in Ht. rewrite Hc in Ht.
  apply String.app_inj in Ht. rewrite Ht, Hb, Hc.
  rewrite !app_assoc, (text_of_line P _ _ Hno).
  unfold line_text at 1. now rewrite Hk, Hd.
Qed.

Lemma undecodable_line_witness :
  assistantContent
    (foldl (read_chunk Engine.platform 2)
       (mkIngest (Samples.cut_line +:+ str LF) "Hi" [])
       [Samples.event " there"; Samples.event "!"])
  = "Hi".
Proof.
  exact (proj1 (undecodable_line_holds_the_stream Engine.platform 2
                  (mkIngest (Samples.cut_line +:+ str LF) "Hi" [])
                  Samples.cut_line ""
                  ("{" +:+ Engine.quoted "choices" +:+ ":[{" +:+ Engine.quoted "delta"
                     +:+ ":{" +:+ str dquote +:+ "con")
                  [Samples.event " there"; Samples.event "!"]
                  eq_refl eq_refl eq_refl eq_refl)).
Defined.

(** *** The content in closed form *)

Section Lines.
Context (P : Platform).

Lemma line_text_app_CR l : line_text P (l +:+ str CR) = line_text P l.
Proof. unfold line_text. now rewrite !classify_strip_CR, classify_app_CR. Qed.

Lemma text_of_terminated sep lines :
  line_ending sep -> Forall no_LF lines ->
  text_of P (terminated sep lines) = concat (map (line_text P) lines).
Proof.
  intros Hsep Hlines. induction Hlines as [|l lines Hl _ IH].
  - apply text_of_whitespace. reflexivity.
  - unfold terminated. cbn [map concat]. fold (terminated sep lines).
    destruct Hsep as [E | E].
    + rewrite E at 1. rewrite app_assoc, (text_of_line P _ _ Hl). now rewrite IH.
    + rewrite E at 1. rewrite <- (app_assoc l), app_assoc.
      rewrite text_of_line.
      * now rewrite line_text_app_CR, IH.
      * rewrite has_char_app. unfold no_LF in Hl. now rewrite Hl.
Qed.

Lemma line_text_no_payload l : carries_payload l = false -> line_text P l = "".
Proof.
  unfold carries_payload, line_text.
  now destruct (classify (strip_CR l)).
Qed.

Lemma text_of_payload_lines lines :
  concat (map (line_text P) (List.filter carries_payload lines))
  = concat (map (line_text P) lines).
Proof.
  induction lines as [|l lines IH]; [reflexivity|].
  cbn [List.filter map concat]. destruct (carries_payload l) eqn:E.
  - cbn [map concat]. now rewrite IH.
  - rewrite (line_text_no_payload l E), IH. reflexivity.
Qed.

Lemma filter_no_LF lines :
  Forall no_LF lines -> Forall no_LF (List.filter carries_payload lines).
Proof.
  induction 1 as [|l lines Hl _ IH]; [constructor|].
  cbn [List.filter]. destruct (carries_payload l); [now constructor|assumption].
Qed.

End Lines.

(** X10. However the stream is cut into chunks, and whether its lines end
    in a line feed or in a carriage return and a line feed, the accumulated
    content is the concatenation of what each line contributes. *)
Theorem content_of_terminated_lines (P : Platform) (assistantId : N)
    (prev : list Message) (sep : string) (lines chunks : list string) :
  line_ending sep ->
  Forall no_LF lines ->
  concat chunks = terminated sep lines ->
  assistantContent (ingest P assistantId prev chunks)
  = concat (map (line_text P) lines).
Proof.
  intros Hsep Hlines Hcut.
  now rewrite ingest_content, Hcut, text_of_terminated.
Qed.

Lemma content_of_terminated_lines_witness :
  assistantContent
    (ingest Engine.platform 2 []
       ["data: [DO"; "NE]" +:+ str CR +:+ str LF +:+ Samples.event_line "Hi";
        str CR +:+ str LF])
  = concat (map (line_text Engine.platform) ["data: [DONE]"; Samples.event_line "Hi"]).
Proof.
  apply (content_of_terminated_lines Engine.platform 2 [] (str CR +:+ str LF)
           ["data: [DONE]"; Samples.event_line "Hi"]).
  - right. reflexivity.
  - repeat constructor.
  - reflexivity.
Defined.

(** X11. Lines that carry no payload (blank lines, comment lines, lines
    that are not [data: ] lines, and the [data: [DONE]] sentinel) are inert:
    a stream and the same stream without them accumulate the same
    content.  In particular the sentinel does not end the accumulation. *)
Theorem lines_without_payload_are_inert (P : Platform) (assistantId : N)
    (prev : list Message) (sep : string) (lines chunks chunks' : list string) :
  line_ending sep ->
  Forall no_LF lines ->
  concat chunks = terminated sep lines ->
  concat chunks' = terminated sep (List.filter carries_payload lines) ->
  assistantContent (ingest P assistantId prev chunks')
  = assistantContent (ingest P assistantId prev chunks).
Proof.
  intros Hsep Hlines Hcut Hcut'.
  rewrite !ingest_content, Hcut, Hcut'.
  rewrite !text_of_terminated by auto using filter_no_LF.
  apply text_of_payload_lines.
Qed.

Lemma lines_without_payload_witness :
  assistantContent
    (ingest Engine.platform 2 [] [Samples.event "Hi" +:+ Samples.event " there"])
  = assistantContent
      (ingest Engine.platform 2 []
         [Samples.event "Hi"; ": keep-alive" +:+ str LF;
          "data: [DONE]" +:+ str LF; Samples.event " there"]).
Proof.
  apply (lines_without_payload_are_inert Engine.platform 2 [] (str LF)
           [Samples.event_line "Hi"; ": keep-alive"; "data: [DONE]";
            Samples.event_line " there"]).
  - left. reflexivity.
  - repeat constructor.
  - reflexivity.
  - reflexivity.
Defined.

(** *** The messages shown *)

Section Shown.
Context (P : Platform) (assistantId : N) (prev : list Message).

Lemma fresh_last m : fresh assistantId prev -> last prev = Some m ->
  is_assistant assistantId m = false.
Proof.
  intros Hf Hl. apply last_Some in Hl as [l' ->].
  apply Forall_app in Hf as [_ Hm]. inversion Hm as [|? ? Hid _]; subst.
  unfold is_assistant. apply N.eqb_neq in Hid. rewrite Hid. apply andb_false_r.
Qed.

Lemma show_streamed_first c :
  (forall m, last prev = Some m -> is_assistant assistantId m = false) ->
  show_streamed assistantId c prev = prev ++ [streamed_message assistantId c].
Proof.
  intros H. unfold show_streamed. destruct (last prev) as [m|]; [|reflexivity].
  now rewrite (H m eq_refl).
Qed.

Lemma map_fresh c :
  fresh assistantId prev ->
  map (fun m => if N.eqb (id m) assistantId then set_content c m else m) prev = prev.
Proof.
  induction 1 as [|m l Hm _ IH]; [reflexivity|].
  cbn [map]. apply N.eqb_neq in Hm. now rewrite Hm, IH.
Qed.

Lemma show_streamed_again c0 c :
  fresh assistantId prev ->
  show_streamed assistantId c (prev ++ [streamed_message assistantId c0])
  = prev ++ [streamed_message assistantId c].
Proof.
  intros Hf. unfold show_streamed. rewrite last_snoc.
  unfold is_assistant. cbn [role id streamed_message]. rewrite N.eqb_refl.
  cbn [bool_decide decide_rel andb]. rewrite map_app, (map_fresh c Hf).
  cbn [map id streamed_message]. now rewrite N.eqb_refl.
Qed.

Lemma show_flushed_first c l :
  (forall m, last l = Some m -> is_assistant assistantId m = false) ->
  show_flushed assistantId c l = l.
Proof.
  intros H. unfold show_flushed. destruct (last l) as [m|]; [|reflexivity].
  now rewrite (H m eq_refl).
Qed.

Lemma imap_before {A} (g : A -> A) (l : list A) n :
  length l <= n ->
  imap (fun i m => if Nat.eqb i n then g m else m) l = l.
Proof.
  intros Hn. rewrite (imap_ext _ (fun _ m => m)).
  - induction l as [|x l IH]; [reflexivity|]. cbn. f_equal. apply IH. cbn in Hn. lia.
  - intros i x Hi. apply lookup_lt_Some in Hi.
    destruct (Nat.eqb_spec i n); [lia|reflexivity].
Qed.

Lemma show_flushed_again c0 c :
  show_flushed assistantId c (prev ++ [streamed_message assistantId c0])
  = prev ++ [streamed_message assistantId c].
Proof.
  unfold show_flushed. rewrite last_snoc.
  unfold is_assistant. cbn [role id streamed_message]. rewrite N.eqb_refl.
  cbn [bool_decide decide_rel andb]. rewrite imap_app.
  rewrite List.length_app. cbn [length]. rewrite Nat.add_sub.
  rewrite imap_before by lia. f_equal.
  cbn [imap]. now rewrite Nat.add_0_r, Nat.eqb_refl.
Qed.

Hypothesis prev_fresh : fresh assistantId prev.

Lemma shows_append_streamed st content :
  shows assistantId prev st ->
  shown (append_streamed assistantId st content)
  = prev ++ [streamed_message assistantId (assistantContent st +:+ content)].
Proof.
  intros [H | H]; unfold append_streamed; cbn [shown]; rewrite H.
  - apply show_streamed_first. intros m. now apply fresh_last.
  - now apply show_streamed_again.
Qed.

Lemma shows_process_lines fuel st :
  shows assistantId prev st -> shows assistantId prev (process_lines P assistantId fuel st).
Proof.
  revert st. induction fuel as [|fuel IH]; intros st H; [exact H|].
  cbn [process_lines].
  destruct (indexOf (str LF) (textBuffer st)) as [i|]; [|exact H].
  destruct (classify (strip_CR (slice 0 i (textBuffer st)))) as [| |jsonStr].
  - apply IH. exact H.
  - exact H.
  - destruct (decode P jsonStr) as [[content|]|].
    + apply IH. right. now apply (shows_append_streamed (set_buffer st _)).
    + apply IH. exact H.
    + exact H.
Qed.

Lemma shows_read_chunks chunks st :
  shows assistantId prev st ->
  shows assistantId prev (foldl (read_chunk P assistantId) st chunks).
Proof.
  revert st. induction chunks as [|c chunks IH]; intros st H; [exact H|].
  cbn [foldl]. apply IH. unfold read_chunk. apply shows_process_lines. exact H.
Qed.

Lemma shows_flush_line st raw :
  shows assistantId prev st -> shows assistantId prev (flush_line P assistantId st raw).
Proof.
  intros H. unfold flush_line. destruct (is_empty raw); [exact H|].
  destruct (classify (strip_CR raw)) as [| |jsonStr]; try exact H.
  destruct (decode P jsonStr) as [[content|]|]; try exact H.
  unfold append_flushed. destruct H as [H | H]; [left | right]; cbn [shown assistantContent];
    rewrite H.
  - apply show_flushed_first. intros m. now apply fresh_last.
  - apply show_flushed_again.
Qed.

Lemma shows_final_flush st :
  shows assistantId prev st -> shows assistantId prev (final_flush P assistantId st).
Proof.
  intros H. unfold final_flush.
  destruct (negb (is_empty (trim (textBuffer st)))); [|exact H].
  generalize (split_LF (textBuffer st)). intros l.
  revert st H. induction l as [|raw l IH]; intros st H; [exact H|].
  cbn [foldl]. apply IH. now apply shows_flush_line.
Qed.

End Shown.

(** What the final flush never does: show a message.  It only rewrites the
    assistant's message when that is already the last one. *)
Lemma final_flush_shows_nothing_new P assistantId st :
  (forall m, last (shown st) = Some m -> is_assistant assistantId m = false) ->
  shown (final_flush P assistantId st) = shown st.
Proof.
  intros H. unfold final_flush.
  destruct (negb (is_empty (trim (textBuffer st)))); [|reflexivity].
  assert (Hl : forall l st', shown st' = shown st ->
                 shown (foldl (flush_line P assistantId) st' l) = shown st).
  { induction l as [|raw l IH]; intros st' E; [exact E|].
    cbn [foldl]. apply IH. unfold flush_line. destruct (is_empty raw); [exact E|].
    destruct (classify (strip_CR raw)) as [| |jsonStr]; try exact E.
    destruct (decode P jsonStr) as [[content|]|]; try exact E.
    unfold append_flushed. cbn [shown]. rewrite E. now apply show_flushed_first. }
  now apply Hl.
Qed.

Lemma no_LF_indexOf b : has_char LF b = false -> indexOf (str LF) b = None.
Proof.
  induction b as [|c b IH]; intros H; [reflexivity|].
  cbn [has_char] in H. apply orb_false_iff in H as [Hc Hb].
  rewrite indexOf_LF_cons, Ascii.eqb_sym, Hc, (IH Hb). reflexivity.
Qed.

Lemma read_chunks_no_LF P assistantId chunks st :
  has_char LF (textBuffer st +:+ concat chunks) = false ->
  foldl (read_chunk P assistantId) st chunks
  = set_buffer st (textBuffer st +:+ concat chunks).
Proof.
  revert st. induction chunks as [|c chunks IH]; intros st H.
  - cbn [foldl concat]. rewrite app_nil_r. now destruct st.
  - cbn [foldl concat] in *. rewrite <- app_assoc in H.
    assert (Hc : has_char LF (textBuffer st +:+ c) = false).
    { rewrite has_char_app in H. now apply orb_false_iff in H as [H _]. }
    assert (E : read_chunk P assistantId st c = set_buffer st (textBuffer st +:+ c)).
    { unfold read_chunk.
      destruct (String.length (textBuffer (set_buffer st (textBuffer st +:+ c))));
        [reflexivity|].
      cbn [process_lines textBuffer set_buffer]. now rewrite (no_LF_indexOf _ Hc). }
    rewrite E, IH; [|exact H]. cbn [textBuffer set_buffer]. unfold set_buffer.
    cbn [assistantContent shown]. now rewrite app_assoc.
Qed.

(** X12. A reply that arrives without any line feed is accumulated by the
    final flush only, and is never shown: the messages stay as they were,
    while the content is what the single line carries. *)
Theorem unterminated_reply_is_not_shown (P : Platform) (assistantId : N)
    (prev : list Message) (chunks : list string) :
  has_char LF (concat chunks) = false ->
  (forall m, last prev = Some m -> is_assistant assistantId m = false) ->
  shown (ingest P assistantId prev chunks) = prev
  /\ assistantContent (ingest P assistantId prev chunks) = line_text P (concat chunks).
Proof.
  intros Hno Hlast. split.
  - unfold ingest. rewrite read_chunks_no_LF by exact Hno.
    now rewrite final_flush_shows_nothing_new.
  - rewrite ingest_content. unfold text_of. rewrite (split_LF_whole _ Hno).
    cbn [map concat]. apply app_nil_r.
Qed.

Lemma unterminated_reply_witness :
  shown (ingest Engine.platform 2 [Chat.greeting] ["data: {"; sliceFrom 7 (Samples.event_line "Hi")])
  = [Chat.greeting]
  /\ assistantContent
       (ingest Engine.platform 2 [Chat.greeting]
          ["data: {"; sliceFrom 7 (Samples.event_line "Hi")])
     = "Hi".
Proof.
  apply (unterminated_reply_is_not_shown Engine.platform 2 [Chat.greeting]
           ["data: {"; sliceFrom 7 (Samples.event_line "Hi")]).
  - reflexivity.
  - intros m [= <-]. reflexivity.
Defined.

(** X13. When no earlier message has the identifier of the assistant's
    message, ingestion leaves the earlier messages as they are and adds at
    most one message after them: the assistant's, of type explanation,
    holding all the accumulated content. *)
Theorem earlier_messages_are_kept (P : Platform) (assistantId : N)
    (prev : list Message) (chunks : list string) :
  fresh assistantId prev ->
  shown (ingest P assistantId prev chunks) = prev
  \/ shown (ingest P assistantId prev chunks)
     = prev ++ [mkMessage assistantId assistant
                  (assistantContent (ingest P assistantId prev chunks))
                  (Some explanation)].
Proof.
  intros Hf. unfold ingest.
  apply (shows_final_flush P assistantId prev Hf).
  apply (shows_read_chunks P assistantId prev Hf).
  now left.
Qed.

Lemma earlier_messages_witness :
  shown (ingest Engine.platform 2 [Chat.greeting] [Samples.event "Hi"]) = [Chat.greeting]
  \/ shown (ingest Engine.platform 2 [Chat.greeting] [Samples.event "Hi"])
     = [Chat.greeting] ++
       [mkMessage 2 assistant
          (assistantContent (ingest Engine.platform 2 [Chat.greeting] [Samples.event "Hi"]))
          (Some explanation)].
Proof.
  apply (earlier_messages_are_kept Engine.platform 2 [Chat.greeting] [Samples.event "Hi"]).
  repeat constructor. discriminate.
Defined.

End IngestEdges.

(** ** More on the extraction of fenced blocks *)

Module ExtractEdges.
Import JS Json Extract Dispatch JSFacts IngestFacts ExtractFacts TrimFacts.

Lemma startsWith_sliceTo p k s :
  startsWith p (sliceTo k s) = true -> startsWith p s = true.
Proof.
  revert k s. induction p as [|a p IH]; intros k s H; [reflexivity|].
  destruct k as [|k]; [discriminate H|].
  destruct s as [|b s]; [discriminate H|].
  cbn [sliceTo startsWith] in *. destruct (Ascii.eqb a b); [|discriminate H].
  exact (IH _ _ H).
Qed.

Lemma startsWith_app p s t :
  startsWith p s = true -> startsWith p (s +:+ t) = true.
Proof.
  revert s. induction p as [|a p IH]; intros s H; [reflexivity|].
  destruct s as [|b s]; [discriminate H|]. rewrite app_cons.
  cbn [startsWith] in *. destruct (Ascii.eqb a b); [|discriminate H].
  exact (IH _ H).
Qed.

Lemma indexOf_cons_None p c s :
  indexOf p (String c s) = None ->
  startsWith p (String c s) = false /\ indexOf p s = None.
Proof.
  cbn [indexOf]. destruct (startsWith p (String c s)); [discriminate|].
  destruct (indexOf p s); [discriminate|]. now split.
Qed.

(** No occurrence before the first one. *)
Lemma indexOf_before p s n :
  is_empty p = false -> indexOf p s = Some n -> indexOf p (sliceTo n s) = None.
Proof.
  intros Hp. revert n. induction s as [|c s IH]; intros n H.
  - rewrite (indexOf_empty p Hp) in H. discriminate H.
  - cbn [indexOf] in H. destruct (startsWith p (String c s)) eqn:E.
    + injection H as <-. now apply indexOf_empty.
    + destruct (indexOf p s) as [m|]; [|discriminate H].
      injection H as <-. cbn [sliceTo indexOf].
      destruct (startsWith p (String c (sliceTo m s))) eqn:E'.
      * apply (startsWith_sliceTo p (S m) (String c s)) in E'. congruence.
      * now rewrite (IH m eq_refl).
Qed.

Lemma indexOf_None_prefix p a t :
  is_empty p = false -> indexOf p (a +:+ t) = None -> indexOf p a = None.
Proof.
  intros Hp. induction a as [|c a IH]; intros H; [now apply indexOf_empty|].
  rewrite app_cons in H. apply indexOf_cons_None in H as [Hs Hi].
  cbn [indexOf]. destruct (startsWith p (String c a)) eqn:E.
  - apply (startsWith_app p (String c a) t) in E. rewrite app_cons in E. congruence.
  - now rewrite (IH Hi).
Qed.

Lemma indexOf_None_suffix p a t :
  indexOf p (a +:+ t) = None -> indexOf p t = None.
Proof.
  induction a as [|c a IH]; intros H; [exact H|].
  rewrite app_cons in H. apply indexOf_cons_None in H as [_ Hi]. exact (IH Hi).
Qed.

Lemma trimEnd_split s : exists w, s = trimEnd s +:+ w.
Proof.
  induction s as [|c s [w Hw]]; [now exists ""|].
  cbn [trimEnd]. destruct (is_whitespace c && is_empty (trimEnd s)).
  - now exists (String c s).
  - exists w. rewrite app_cons. now f_equal.
Qed.

Lemma indexOf_None_trim p s :
  is_empty p = false -> indexOf p s = None -> indexOf p (trim s) = None.
Proof.
  intros Hp H. unfold trim.
  destruct (trimStart_split s) as (w & Hs & _). rewrite Hs in H.
  apply indexOf_None_suffix in H.
  destruct (trimEnd_split (trimStart s)) as [w' Hw']. rewrite Hw' in H.
  exact (indexOf_None_prefix p _ _ Hp H).
Qed.

(** X14. What an extraction returns: the fence and the tag do occur in the
    text; the raw text has no blank at either end, holds no fence, and
    parses to the value returned with it. *)
Theorem extracted_block_is_well_formed (P : Platform) (text tag : string)
    (e : Extracted) :
  extractFencedJson P text tag = Some e ->
  is_Some (indexOf (fence +:+ tag) text)
  /\ trim (raw e) = raw e
  /\ indexOf fence (raw e) = None
  /\ JSON_parse P (raw e) = Some (parsed e).
Proof.
  unfold extractFencedJson. intros H.
  destruct (indexOf (fence +:+ tag) text) as [start|]; [|discriminate H].
  split; [now eexists|].
  unfold indexOfFrom in H.
  destruct (indexOf fence (sliceFrom (start + String.length (fence +:+ tag)) text))
    as [n|] eqn:Hn; [|discriminate H].
  cbn [fmap option_fmap option_map] in H.
  destruct (_ <=? start); [discriminate H|].
  unfold slice in H.
  replace (start + String.length (fence +:+ tag) + n
           - (start + String.length (fence +:+ tag))) with n in H by lia.
  destruct (JSON_parse P _) as [v|] eqn:Hv; [|discriminate H].
  injection H as <-. cbn [raw parsed].
  split; [apply trim_idem|]. split; [|exact Hv].
  apply indexOf_None_trim; [reflexivity|].
  now apply indexOf_before.
Qed.

Lemma extracted_block_witness :
  is_Some (indexOf (fence +:+ "FILE_OPS") (Samples.block "FILE_OPS" "[]"))
  /\ trim "[]" = "[]"
  /\ indexOf fence "[]" = None
  /\ JSON_parse Engine.platform "[]" = Some (JArr []).
Proof.
  exact (extracted_block_is_well_formed Engine.platform
           (Samples.block "FILE_OPS" "[]") "FILE_OPS"
           (mkExtracted "[]" (JArr [])) eq_refl).
Defined.

(** X15. The end of [streamChat] only stages: it leaves the log as it is,
    and each of the two pending cells either keeps its value and its dialog
    its state, or takes the truthy payload of its own block of the content
    and the dialog opens.  Staging one kind does not disturb the other. *)
Theorem finalize_only_stages (P : Platform) (conv : bool) (sid : option string)
    (content : string) (d : DispatchState) :
  opsLog (fst (finalize P conv sid content d)) = opsLog d
  /\ (pendingFileOps (fst (finalize P conv sid content d)) = pendingFileOps d
      /\ showFileOpsDialog (fst (finalize P conv sid content d)) = showFileOpsDialog d
      \/ exists e,
           extractFencedJson P content "FILE_OPS" = Some e
           /\ truthy (Some (parsed e)) = true
           /\ pendingFileOps (fst (finalize P conv sid content d)) = Some (parsed e)
           /\ showFileOpsDialog (fst (finalize P conv sid content d)) = true)
  /\ (pendingMilestoneOps (fst (finalize P conv sid content d)) = pendingMilestoneOps d
      /\ showMilestoneOpsDialog (fst (finalize P conv sid content d))
         = showMilestoneOpsDialog d
      \/ exists e,
           extractFencedJson P content "MILESTONE_OPS" = Some e
           /\ truthy (Some (parsed e)) = true
           /\ pendingMilestoneOps (fst (finalize P conv sid content d)) = Some (parsed e)
           /\ showMilestoneOpsDialog (fst (finalize P conv sid content d)) = true).
Proof.
  unfold finalize. cbn [fst].
  destruct (is_empty content).
  - cbn. repeat split; left; split; reflexivity.
  - unfold truthy_parsed.
    destruct (extractFencedJson P content "FILE_OPS") as [e1|];
      [destruct (truthy (Some (parsed e1))) eqn:T1|];
      (destruct (extractFencedJson P content "MILESTONE_OPS") as [e2|];
       [destruct (truthy (Some (parsed e2))) eqn:T2|]);
      cbn; (split; [reflexivity|]); split;
      first [ left; split; reflexivity
            | right; eexists; repeat split; eassumption ].
Qed.

End ExtractEdges.

(** ** More on the dispatcher of milestone and task operations *)

Module DispatchEdges.
Import JS Json Dispatch JSFacts DispatchFacts Notions.

Lemma provided_elem op k0 k v :
  (k, v) ∈ provided op k0 -> k = k0 /\ prop k0 op = Some v /\ truthy (Some v) = true.
Proof.
  unfold provided. destruct (prop k0 op) as [x|]; [|now intros ?%elem_of_nil].
  destruct (truthy (Some x)) eqn:T; [|now intros ?%elem_of_nil].
  intros H%list_elem_of_singleton. injection H as -> ->. auto.
Qed.

Lemma provided_number_elem op k0 k v :
  (k, v) ∈ provided_number op k0 -> k = k0 /\ prop k0 op = Some v /\ is_number v = true.
Proof.
  unfold provided_number.
  destruct (prop k0 op) as [[|b|m e|x|l|ms]|]; try now intros ?%elem_of_nil.
  intros H%list_elem_of_singleton. injection H as -> ->. auto.
Qed.

(** X16. An operation on milestones or tasks reaches the database at most
    once, and only through an update it warrants: either the attempt leaves
    the world as it is and is not recorded as applied, or it is one update
    request on one of the two tables, keyed by the operation's own truthy
    identifier, writing only the table's columns with the operation's own
    values. *)
Theorem updates_are_warranted {W : Type} (host : Host W) (op : json) (w : W) :
  (snd (attempt_milestone_op host op w) = w
   /\ fst (attempt_milestone_op host op w) <> Applied)
  \/ exists table payload key,
       warranted op table payload key
       /\ attempt_milestone_op host op w = update_or_throw host table payload key w.
Proof.
  unfold attempt_milestone_op.
  destruct op as [|b|m e|s|l|members]; cbn [prop]; try (left; split; [reflexivity|discriminate]).
  destruct (lookup_member "action" members) as [[|b|m e|action|l|ms]|] eqn:Ha;
    try (left; split; [reflexivity|discriminate]).
  destruct (String.eqb action "update_milestone").
  { destruct (lookup_member "milestone_id" members) as [key|] eqn:Hk;
      [|left; split; [reflexivity|discriminate]].
    destruct (truthy (Some key)) eqn:Tk; [|left; split; [reflexivity|discriminate]].
    right. eexists "milestones", _, key. split; [|reflexivity].
    split; [now left|]. split; [exact Hk|]. split; [exact Tk|].
    intros k v Hin. unfold update_fields. cbn [String.eqb Ascii.eqb].
    repeat (apply elem_of_app in Hin as [Hin|Hin]);
      apply provided_elem in Hin as (-> & Hp & Ht);
      (split; [not_among || (repeat constructor)|split; [exact Hp|now left]]). }
  destruct (String.eqb action "update_task").
  { destruct (lookup_member "task_id" members) as [key|] eqn:Hk;
      [|left; split; [reflexivity|discriminate]].
    destruct (truthy (Some key)) eqn:Tk; [|left; split; [reflexivity|discriminate]].
    right. eexists "tasks", _, key. split; [|reflexivity].
    split; [now right|]. split; [exact Hk|]. split; [exact Tk|].
    intros k v Hin. unfold update_fields.
    apply elem_of_app in Hin as [Hin|Hin];
      [apply provided_elem in Hin as (-> & Hp & Ht);
       split; [repeat constructor|split; [exact Hp|now left]]|].
    apply elem_of_app in Hin as [Hin|Hin];
      [apply provided_number_elem in Hin as (-> & Hp & Ht);
       split; [repeat constructor|split; [exact Hp|now right]]|].
    apply elem_of_app in Hin as [Hin|Hin];
      apply provided_elem in Hin as (-> & Hp & Ht);
      (split; [repeat constructor|split; [exact Hp|now left]]). }
  left. split; [reflexivity|discriminate].
Qed.

Lemma attempt_unrecognized {W} (host : Host W) op w :
  ~ recognized milestone_actions op ->
  fst (attempt_milestone_op host op w) <> Applied.
Proof.
  intros Hn. destruct op as [|b|m e|s|l|members]; try discriminate.
  assert (Hnn : JObj members <> JNull) by discriminate.
  pose proof (proj2 (attempt_milestone_op_unknown host (JObj members) w)
                (conj Hnn Hn)) as H.
  rewrite H. discriminate.
Qed.

Lemma status_result_of op a : status (result_of op a) = ok -> a = Applied.
Proof. now destruct a. Qed.

Lemma failed_count_positive results r :
  r ∈ results -> status r <> ok -> failed_count results <> 0.
Proof.
  intros Hin Hs. unfold failed_count.
  assert (Hf : r ∈ filter (fun r => status r <> ok) results)
    by (apply list_elem_of_filter; auto).
  destruct (filter _ results); [now apply elem_of_nil in Hf|discriminate].
Qed.

(** X17. One operation that is [null] or whose action is neither
    [update_milestone] nor [update_task] is enough for the report of the
    whole batch to be a warning, whatever the other operations are and
    however the database answers them. *)
Theorem unrecognized_operation_warns {W : Type} (host : Host W)
    (operations : list json) (w : W) (op : json) :
  op ∈ operations ->
  ~ recognized milestone_actions op ->
  destructive (report (fst (run_milestone_ops host operations w))) = true
  /\ title (report (fst (run_milestone_ops host operations w)))
     = "Milestone ops completed with warnings".
Proof.
  intros Hin Hn. apply list_elem_of_lookup in Hin as [j Hj].
  pose proof (run_lookup (attempt_milestone_op host) operations w j op Hj) as Hr.
  fold (run_milestone_ops host operations w) in Hr.
  assert (Hf : failed_count (fst (run_milestone_ops host operations w)) <> 0).
  { eapply failed_count_positive.
    - apply list_elem_of_lookup. exists j. exact Hr.
    - intros Hs%status_result_of. revert Hs. now apply attempt_unrecognized. }
  unfold report. apply Nat.eqb_neq in Hf. rewrite Hf. split; reflexivity.
Qed.

Lemma unrecognized_operation_witness :
  destructive
    (report (fst (run_milestone_ops Samples.recording_host
                    [JObj [("action", JStr "update_task"); ("task_id", JNum 4 0)];
                     JObj [("action", JStr "close_task"); ("task_id", JNum 4 0)]] [])))
  = true.
Proof.
  refine (proj1 (unrecognized_operation_warns Samples.recording_host
                   [JObj [("action", JStr "update_task"); ("task_id", JNum 4 0)];
                    JObj [("action", JStr "close_task"); ("task_id", JNum 4 0)]] []
                   (JObj [("action", JStr "close_task"); ("task_id", JNum 4 0)]) _ _)).
  - apply list_elem_of_further, list_elem_of_here.
  - intros (a & [= <-] & Hin). revert Hin. not_among.
Defined.

End DispatchEdges.

(** ** [streamChat] from its first statement to its last *)

Module StreamEdges.
Import JS Json Ingest Dispatch Chat Stream JSFacts IngestFacts ChatFacts Notions.

Lemma finalize_nothing P conv sid d : finalize P conv sid "" d = (d, []).
Proof. unfold finalize. cbn. rewrite andb_false_r. reflexivity. Qed.

Section Call.
Context (P : Platform) (now assistantId : N) (conv : bool) (sid : option string)
        (userMessage : string) (s : ChatState) (d : DispatchState).

Local Abbreviation call := (streamChat P now assistantId conv sid userMessage).
Local Abbreviation allMessages := (messages s ++ [mkMessage now user userMessage None]).

Lemma streamChat_cells resp :
  exists ms,
    chat (call resp s d)
    = mkChat ms "" (intake s) (intakeConfirmed s) (awaitingConfirmation s) false.
Proof.
  unfold streamChat.
  destruct resp as [|status errorData| |chunks|chunks];
    repeat match goal with
           | |- context [N.eqb ?a ?b] => destruct (N.eqb a b)
           | |- context [match ?e with JNull => _ | _ => _ end] => destruct e
           | |- context [finalize ?P ?c ?i ?x ?d] => destruct (finalize P c i x d)
           end; cbn [chat]; eauto.
Qed.

Lemma streamChat_sent resp :
  sent (call resp s d) = persist conv [AddMessage user userMessage None].
Proof.
  unfold streamChat.
  destruct resp as [|status errorData| |chunks|chunks];
    repeat match goal with
           | |- context [N.eqb ?a ?b] => destruct (N.eqb a b)
           | |- context [match ?e with JNull => _ | _ => _ end] => destruct e
           | |- context [finalize ?P ?c ?i ?x ?d] => destruct (finalize P c i x d)
           end; reflexivity.
Qed.

Lemma streamChat_without_stream resp :
  without_stream resp ->
  messages (chat (call resp s d)) = allMessages
  /\ dispatch (call resp s d) = d
  /\ stored (call resp s d) = []
  /\ exists n, notices (call resp s d) = [n].
Proof.
  unfold streamChat.
  destruct resp as [|status errorData| |chunks|chunks]; intros H; try contradiction;
    cbn [assistantContent shown]; rewrite ?finalize_nothing;
    repeat match goal with
           | |- context [N.eqb ?a ?b] => destruct (N.eqb a b)
           | |- context [match ?e with JNull => _ | _ => _ end] => destruct e
           end; cbn; eauto 10.
Qed.

Lemma finalize_stored c c' f m :
  AddAssistantMessage c' f m ∈ snd (finalize P conv sid c d) ->
  c' = c /\ is_empty c = false /\ conv = true.
Proof.
  unfold finalize. cbn [snd]. intros H. apply elem_of_app in H as [H|H].
  - destruct conv; [|now apply elem_of_nil in H].
    destruct (is_empty c); [now apply elem_of_nil in H|].
    cbn in H. apply list_elem_of_singleton in H. injection H as -> _ _. auto.
  - destruct (if is_empty c then None else Extract.extractFencedJson P c "MENTOR_REPORT")
      as [e|]; [|now apply elem_of_nil in H].
    destruct sid as [x|]; [|now apply elem_of_nil in H].
    destruct (truthy (Some (Extract.parsed e)) && negb (is_empty x));
      [|now apply elem_of_nil in H].
    apply list_elem_of_singleton in H. discriminate H.
Qed.

Lemma streamChat_shape resp :
  fresh assistantId allMessages ->
  exists c,
    (messages (chat (call resp s d)) = allMessages
     \/ messages (chat (call resp s d))
        = allMessages ++ [mkMessage assistantId assistant c (Some explanation)])
    /\ (dispatch (call resp s d), stored (call resp s d)) = finalize P conv sid c d.
Proof.
  intros Hf.
  assert (Hbegun : shows assistantId allMessages (mkIngest "" "" allMessages))
    by now left.
  assert (Hret : finalize P conv sid "" d = (d, [])) by apply finalize_nothing.
  unfold streamChat.
  destruct resp as [|status errorData| |chunks|chunks].
  - exists "". rewrite Hret. cbn. auto.
  - exists "". cbn [assistantContent shown]. rewrite Hret.
    destruct (N.eqb status 429); [cbn; auto|].
    destruct (N.eqb status 402); [cbn; auto|].
    destruct errorData; cbn; auto.
  - exists "". rewrite Hret. cbn. auto.
  - pose proof (IngestEdges.shows_read_chunks P assistantId allMessages Hf chunks _ Hbegun)
      as Hs.
    exists (assistantContent (foldl (read_chunk P assistantId)
                                (mkIngest "" "" allMessages) chunks)).
    destruct (finalize P conv sid _ d) as [d' st']. cbn. split; [exact Hs|reflexivity].
  - pose proof (IngestEdges.shows_final_flush P assistantId allMessages Hf _
                  (IngestEdges.shows_read_chunks P assistantId allMessages Hf chunks _
                     Hbegun)) as Hs.
    exists (assistantContent (ingest P assistantId allMessages chunks)).
    destruct (finalize P conv sid _ d) as [d' st']. cbn. split; [exact Hs|reflexivity].
Qed.

End Call.

(** X19. A run of [streamChat] that [handleSend] starts is a step of the
    panel: it is started with the trimmed text, in a session whose intake
    is confirmed, by a call that leaves the cells as they were; it writes
    no cell but the messages, the text area and the loading flag; and it
    leaves the panel not loading, with an empty text area, whatever the
    response is.  The user's message is stored by one call, made only in
    an open conversation. *)
Theorem streamChat_is_a_step (P : Platform) (now now' assistantId : N) (conv : bool)
    (sid : option string) (s : ChatState) (d : DispatchState) (resp : Response)
    (text : string) :
  StreamChat text ∈ snd (handleSend now conv s) ->
  text = trim (input s)
  /\ fst (handleSend now conv s) = s
  /\ intakeConfirmed s = true
  /\ step s (chat (streamChat P now' assistantId conv sid text resp s d))
  /\ isLoading (chat (streamChat P now' assistantId conv sid text resp s d)) = false
  /\ input (chat (streamChat P now' assistantId conv sid text resp s d)) = ""
  /\ sent (streamChat P now' assistantId conv sid text resp s d)
     = persist conv [AddMessage user text None].
Proof.
  intros Hin.
  destruct (streamChat_cells P now' assistantId conv sid text s d resp) as [ms Hms].
  pose proof (ChatEdges.handleSend_cases now conv s) as Hcases; cbv zeta in Hcases;
    destruct Hcases
    as [[_ E]|[[_ E]|[(p & _ & _ & E)|[(i0 & _ & _ & _ & _ & E)
       |[(_ & _ & _ & E)|[[_ E]|(Hc & _ & _ & _ & E)]]]]]];
    cbv zeta in E; rewrite E in *; cbn [fst snd] in *;
    try (exfalso; revert Hin; destruct conv; now not_among).
  assert (Ht : text = trim (input s)).
  { destruct conv; cbn in Hin;
      repeat (apply elem_of_cons in Hin as [Hin|Hin]; [try discriminate Hin|]);
      try (now apply elem_of_nil in Hin); now injection Hin. }
  split; [exact Ht|]. split; [reflexivity|]. split; [exact Hc|].
  rewrite Hms, streamChat_sent. cbn [isLoading input].
  split; [now apply step_stream|]. auto.
Qed.

Lemma streamChat_is_a_step_witness :
  isLoading
    (chat (streamChat Engine.platform 12 13 true None "Why does my loop stop?"
             (Streamed [Samples.event "Hi"])
             (mkChat [greeting] " Why does my loop stop? " (Some Samples.todo_app)
                     true false false)
             (mkDispatch None false None false [])))
  = false.
Proof.
  refine (proj1 (proj2 (proj2 (proj2 (proj2
            (streamChat_is_a_step Engine.platform 11 12 13 true None
               (mkChat [greeting] " Why does my loop stop? " (Some Samples.todo_app)
                       true false false)
               (mkDispatch None false None false [])
               (Streamed [Samples.event "Hi"])
               "Why does my loop stop?" _)))))).
  apply list_elem_of_further, list_elem_of_here.
Defined.

(** X20. A response that brings no stream (the request fails, it is
    refused, or it has no body) adds nothing but the user's message: no
    assistant message is shown, nothing is staged, nothing more is stored,
    and exactly one toast is raised. *)
Theorem no_stream_no_reply (P : Platform) (now assistantId : N) (conv : bool)
    (sid : option string) (userMessage : string) (s : ChatState)
    (d : DispatchState) (resp : Response) :
  without_stream resp ->
  messages (chat (streamChat P now assistantId conv sid userMessage resp s d))
  = messages s ++ [mkMessage now user userMessage None]
  /\ dispatch (streamChat P now assistantId conv sid userMessage resp s d) = d
  /\ stored (streamChat P now assistantId conv sid userMessage resp s d) = []
  /\ exists n, notices (streamChat P now assistantId conv sid userMessage resp s d) = [n].
Proof. apply streamChat_without_stream. Qed.

Lemma no_stream_no_reply_witness :
  messages (chat (streamChat Engine.platform 12 13 true None "Hello" (Refused 500 JNull)
                    initial (mkDispatch None false None false [])))
  = messages initial ++ [mkMessage 12 user "Hello" None]
  /\ dispatch (streamChat Engine.platform 12 13 true None "Hello" (Refused 500 JNull)
                 initial (mkDispatch None false None false []))
     = mkDispatch None false None false []
  /\ stored (streamChat Engine.platform 12 13 true None "Hello" (Refused 500 JNull)
               initial (mkDispatch None false None false []))
     = []
  /\ exists n,
       notices (streamChat Engine.platform 12 13 true None "Hello" (Refused 500 JNull)
                  initial (mkDispatch None false None false []))
       = [n].
Proof.
  exact (no_stream_no_reply Engine.platform 12 13 true None "Hello" initial
           (mkDispatch None false None false []) (Refused 500 JNull) I).
Defined.

(** X21. What is stored is what is shown.  When no message of the panel
    has the identifier of the assistant's message, every run of
    [streamChat] has one content such that: the messages are the earlier
    ones and the user's, followed or not by the assistant's message with
    that content; what is staged and stored is what the end of the function
    makes of that content; and an assistant message is stored only with
    that content, when it is not empty and a conversation is open. *)
Theorem stored_content_is_shown_content (P : Platform) (now assistantId : N)
    (conv : bool) (sid : option string) (userMessage : string) (s : ChatState)
    (d : DispatchState) (resp : Response) :
  fresh assistantId (messages s ++ [mkMessage now user userMessage None]) ->
  exists c,
    (messages (chat (streamChat P now assistantId conv sid userMessage resp s d))
     = messages s ++ [mkMessage now user userMessage None]
     \/ messages (chat (streamChat P now assistantId conv sid userMessage resp s d))
        = messages s ++ [mkMessage now user userMessage None]
            ++ [mkMessage assistantId assistant c (Some explanation)])
    /\ (dispatch (streamChat P now assistantId conv sid userMessage resp s d),
        stored (streamChat P now assistantId conv sid userMessage resp s d))
       = finalize P conv sid c d
    /\ (forall c' f m,
          AddAssistantMessage c' f m
            ∈ stored (streamChat P now assistantId conv sid userMessage resp s d) ->
          c' = c /\ is_empty c = false /\ conv = true).
Proof.
  intros Hf.
  destruct (streamChat_shape P now assistantId conv sid userMessage s d resp Hf)
    as (c & Hm & Hfin).
  exists c. split; [|split; [exact Hfin|]].
  - rewrite <- List.app_assoc in Hm. exact Hm.
  - intros c' f m Hin.
    apply (finalize_stored P conv sid d c c' f m).
    rewrite <- Hfin. exact Hin.
Qed.

Lemma stored_content_witness :
  exists c,
    (messages (chat (streamChat Engine.platform 12 13 true None "Hello"
                       (Interrupted [Samples.event "Hi"]) initial
                       (mkDispatch None false None false [])))
     = messages initial ++ [mkMessage 12 user "Hello" None]
     \/ messages (chat (streamChat Engine.platform 12 13 true None "Hello"
                          (Interrupted [Samples.event "Hi"]) initial
                          (mkDispatch None false None false [])))
        = messages initial ++ [mkMessage 12 user "Hello" None]
            ++ [mkMessage 13 assistant c (Some explanation)])
    /\ (dispatch (streamChat Engine.platform 12 13 true None "Hello"
                    (Interrupted [Samples.event "Hi"]) initial
                    (mkDispatch None false None false [])),
        stored (streamChat Engine.platform 12 13 true None "Hello"
                  (Interrupted [Samples.event "Hi"]) initial
                  (mkDispatch None false None false [])))
       = finalize Engine.platform true None c (mkDispatch None false None false [])
    /\ (forall c' f m,
          AddAssistantMessage c' f m
            ∈ stored (streamChat Engine.platform 12 13 true None "Hello"
                        (Interrupted [Samples.event "Hi"]) initial
                        (mkDispatch None false None false [])) ->
          c' = c /\ is_empty c = false /\ true = true).
Proof.
  apply (stored_content_is_shown_content Engine.platform 12 13 true None "Hello"
           initial (mkDispatch None false None false [])
           (Interrupted [Samples.event "Hi"])).
  repeat constructor; discriminate.
Defined.

End StreamEdges.

(** ** The dialogs and the dispatchers together *)

Module DialogEdges.
Import JS Json Extract Dispatch Dialogs DispatchFacts.

Section Steps.
Context {W : Type} (P : Platform) (fs : option (FileSystem W)) (host : Host W).

Lemma finalize_staged conv sid content d :
  staged_truthy d -> staged_truthy (fst (finalize P conv sid content d)).
Proof.
  intros [Hf Hm]. unfold finalize. cbn [fst]. unfold truthy_parsed.
  destruct (if is_empty content then None else extractFencedJson P content "FILE_OPS")
    as [e1|]; [destruct (truthy (Some (parsed e1))) eqn:T1|];
    (destruct (if is_empty content then None
               else extractFencedJson P content "MILESTONE_OPS")
       as [e2|]; [destruct (truthy (Some (parsed e2))) eqn:T2|]);
    split; cbn [pendingFileOps pendingMilestoneOps stage_file_ops stage_milestone_ops];
    intros v Hv; try (injection Hv as <-); auto.
Qed.

Lemma applyFileOps_staged now ops d w :
  staged_truthy d -> staged_truthy (fst (applyFileOps fs host now ops d w)).
Proof.
  intros [Hf Hm]. unfold applyFileOps. destruct ops as [v|]; [|now split].
  destruct (truthy (Some v)); [|now split].
  destruct (run_file_ops fs host now (operations_of v) w).
  split; cbn; [discriminate|exact Hm].
Qed.

Lemma applyMilestoneOps_staged ops d w :
  staged_truthy d -> staged_truthy (fst (fst (applyMilestoneOps host ops d w))).
Proof.
  intros [Hf Hm]. unfold applyMilestoneOps. destruct ops as [v|]; [|now split].
  destruct (truthy (Some v)); [|now split].
  destruct (run_milestone_ops host (operations_of v) w).
  split; cbn; [exact Hf|discriminate].
Qed.

Lemma reachable_staged x : reachable P fs host x -> staged_truthy (fst x).
Proof.
  induction 1 as [w|x y _ IH Hstep]; [split; discriminate|].
  destruct Hstep; cbn [fst] in *.
  - now apply finalize_staged.
  - destruct IH as [Hf Hm]. split; cbn; [discriminate|exact Hm].
  - destruct IH as [Hf Hm]. split; cbn; [exact Hf|discriminate].
  - now apply applyFileOps_staged.
  - now apply applyMilestoneOps_staged.
  - exact IH.
  - exact IH.
  - exact IH.
Qed.

End Steps.

(** X22. The early return of the dispatchers is never taken for a pending
    batch.  Whatever led to the state (replies, cancellations, earlier
    applications, dialogs opened and closed), a pending batch is truthy;
    so [Apply] on pending file operations runs them, closes the dialog,
    clears the cell and appends one entry to the log with one result for
    each operation, and [Apply] on pending milestone operations runs them,
    closes the dialog, clears the cell and raises the report. *)
Theorem apply_runs_the_pending_batch {W : Type} (P : Platform)
    (fs : option (FileSystem W)) (host : Host W) (now : N)
    (d : DispatchState) (w : W) :
  reachable P fs host (d, w) ->
  (forall v,
     pendingFileOps d = Some v ->
     applyFileOps fs host now (pendingFileOps d) d w
     = (mkDispatch None false (pendingMilestoneOps d) (showMilestoneOpsDialog d)
          (opsLog d ++ [mkLog now (fst (run_file_ops fs host now (operations_of v) w))]),
        snd (run_file_ops fs host now (operations_of v) w))
     /\ length (fst (run_file_ops fs host now (operations_of v) w))
        = length (operations_of v))
  /\ (forall v,
        pendingMilestoneOps d = Some v ->
        applyMilestoneOps host (pendingMilestoneOps d) d w
        = (mkDispatch (pendingFileOps d) (showFileOpsDialog d) None false (opsLog d),
           snd (run_milestone_ops host (operations_of v) w),
           Some (report (fst (run_milestone_ops host (operations_of v) w))))).
Proof.
  intros Hr. destruct (reachable_staged P fs host _ Hr) as [Hf Hm]. cbn [fst] in *.
  split; intros v Hv; rewrite Hv.
  - split; [|apply run_length].
    unfold applyFileOps. rewrite (Hf v Hv).
    now destruct (run_file_ops fs host now (operations_of v) w).
  - unfold applyMilestoneOps. rewrite (Hm v Hv).
    now destruct (run_milestone_ops host (operations_of v) w).
Qed.

Lemma apply_runs_the_pending_batch_witness :
  pendingFileOps
    (fst (applyFileOps (Some Samples.recording_fs) Samples.recording_host 7
            (pendingFileOps
               (fst (finalize Engine.platform false None Samples.response initial)))
            (fst (finalize Engine.platform false None Samples.response initial)) []))
  = None.
Proof.
  assert (Hr : reachable Engine.platform (Some Samples.recording_fs) Samples.recording_host
                 (fst (finalize Engine.platform false None Samples.response initial), []))
    by (eapply reachable_step; [apply reachable_initial|apply step_finalize]).
  pose proof (proj1 (apply_runs_the_pending_batch Engine.platform
                       (Some Samples.recording_fs) Samples.recording_host 7 _ _ Hr)
                (JArr [JObj [("action", JStr "create"); ("path", JStr "/src/a.ts");
                             ("content", JStr "x")]])
                eq_refl) as [H _].
  exact (f_equal (fun x => pendingFileOps (fst x)) H).
Defined.

End DialogEdges.
